(** * w3af: OpenAPI parameter handler

    A shallow embedding of
    [w3af/core/data/parsers/doc/open_api/parameters.py]: the
    [ParameterValues] store and the [ParameterHandler] that repairs
    parameter specs, synthesises a value for every parameter and expands an
    operation over caller supplied values.

    Python objects are modelled as a JSON-like [value]; a [dict] is an
    association list, and the order of the list is the order in which the
    dict is iterated.  Byte strings and unicode strings are one type.  Code
    that may raise returns a [result] that names the exception; the
    recursion of the synthesiser is bounded by a fuel that stands for the
    recursion limit of the interpreter, which a specification that refers to
    itself exhausts. *)

From Stdlib Require Import ZArith List String Ascii Bool Lia.
Import ListNotations.
Local Open Scope string_scope.
Local Open Scope Z_scope.

(** ** Python values *)

#[warnings="-register-all"]
Inductive value : Type :=
| VNone
| VBool (b : bool)
| VInt (z : Z)
| VFloat (digits : Z) (exp10 : Z)      (* digits * 10^exp10, a decimal literal *)
| VStr (s : string)
| VList (l : list value)
| VDict (d : list (string * value))
| VDate (y m d : Z)                    (* datetime.date *)
| VDateTime (y m d hh mm ss : Z)       (* datetime.datetime *)
| VFile (name : string) (filename : string).  (* a file-like upload object *)

Definition dict : Type := list (string * value).

(** ** Exceptions and results *)

Inductive exn : Type :=
| TypeError
| AttributeError
| KeyError
| IndexError
| ValueError
| RecursionLimit          (* RuntimeError: maximum recursion depth exceeded *)
| NotImplementedError
| SwaggerError.           (* raised by a collaborator: deref, smart_fill *)

Inductive result (A : Type) : Type :=
| Ok (a : A)
| Raise (e : exn).

Arguments Ok {A} a.
Arguments Raise {A} e.

Definition bind {A B : Type} (m : result A) (k : A -> result B) : result B :=
  match m with
  | Ok a => k a
  | Raise e => Raise e
  end.

Notation "x <- m ;; k" := (bind m (fun x => k))
  (at level 61, m at next level, right associativity).

Notation "' pat <- m ;; k" := (bind m (fun x => match x with pat => k end))
  (at level 61, pat pattern, m at next level, right associativity).

(** [for x in xs: acc = f(acc, x)] where the body may raise. *)
Fixpoint foldM {A B : Type} (f : B -> A -> result B) (xs : list A) (acc : B)
  : result B :=
  match xs with
  | [] => Ok acc
  | x :: xs' => acc' <- f acc x ;; foldM f xs' acc'
  end.

(** [[f(x) for x in xs]] where [f] may raise. *)
Fixpoint mapM {A B : Type} (f : A -> result B) (xs : list A) : result (list B) :=
  match xs with
  | [] => Ok []
  | x :: xs' => y <- f x ;; ys <- mapM f xs' ;; Ok (y :: ys)
  end.

(** ** Dictionaries *)

Fixpoint dict_get {V : Type} (k : string) (d : list (string * V)) : option V :=
  match d with
  | [] => None
  | (k', v) :: d' => if String.eqb k k' then Some v else dict_get k d'
  end.

Definition dict_has {V : Type} (k : string) (d : list (string * V)) : bool :=
  match dict_get k d with
  | Some _ => true
  | None => false
  end.

(** [d[k] = v]: an existing key keeps its place, a new key goes last. *)
Fixpoint dict_set {V : Type} (k : string) (v : V) (d : list (string * V))
  : list (string * V) :=
  match d with
  | [] => [(k, v)]
  | (k', v') :: d' =>
      if String.eqb k k' then (k, v) :: d' else (k', v') :: dict_set k v d'
  end.

(** [del d[k]] *)
Fixpoint dict_del {V : Type} (k : string) (d : list (string * V))
  : list (string * V) :=
  match d with
  | [] => []
  | (k', v') :: d' =>
      if String.eqb k k' then dict_del k d' else (k', v') :: dict_del k d'
  end.

(** ** Python primitives on values *)

(** [x is None] *)
Definition is_none (v : value) : bool :=
  match v with
  | VNone => true
  | _ => false
  end.

(** [v == 'literal'] *)
Definition eq_str (v : value) (s : string) : bool :=
  match v with
  | VStr s' => String.eqb s' s
  | _ => false
  end.

(** [v in (s1, s2, ...)] for a tuple of string literals *)
Definition in_strs (v : value) (l : list string) : bool :=
  existsb (eq_str v) l.

(** truth value of an object, as [if v:] and [not v] test it *)
Definition truthy (v : value) : bool :=
  match v with
  | VNone => false
  | VBool b => b
  | VInt z => negb (z =? 0)
  | VFloat m _ => negb (m =? 0)
  | VStr s => negb (String.eqb s EmptyString)
  | VList l => match l with [] => false | _ => true end
  | VDict d => match d with [] => false | _ => true end
  | VDate _ _ _ | VDateTime _ _ _ _ _ _ | VFile _ _ => true
  end.

(** [k in v] for a string literal [k]: key test on a dict, membership on a
    list, substring test on a string, [TypeError] otherwise. *)
Definition py_in (k : string) (v : value) : result bool :=
  match v with
  | VDict d => Ok (dict_has k d)
  | VList l => Ok (existsb (fun x => eq_str x k) l)
  | VStr s => Ok (match String.index 0 k s with Some _ => true | None => false end)
  | _ => Raise TypeError
  end.

(** [v[k]] for a string literal [k] *)
Definition py_getitem (v : value) (k : string) : result value :=
  match v with
  | VDict d => match dict_get k d with
               | Some x => Ok x
               | None => Raise KeyError
               end
  | _ => Raise TypeError
  end.

(** [v.get(k, None)]: only a dict has the method *)
Definition py_get (v : value) (k : string) : result value :=
  match v with
  | VDict d => match dict_get k d with
               | Some x => Ok x
               | None => Ok VNone
               end
  | _ => Raise AttributeError
  end.

(** [v[0]] *)
Definition py_index0 (v : value) : result value :=
  match v with
  | VList (x :: _) => Ok x
  | VList [] => Raise IndexError
  | VStr (String c _) => Ok (VStr (String c EmptyString))
  | VStr EmptyString => Raise IndexError
  | VDict _ => Raise KeyError
  | _ => Raise TypeError
  end.

Fixpoint chars (s : string) : list value :=
  match s with
  | EmptyString => []
  | String c s' => VStr (String c EmptyString) :: chars s'
  end.

(** [for x in v]: the elements of a list, the characters of a string, the
    keys of a dict *)
Definition py_iter (v : value) : result (list value) :=
  match v with
  | VList l => Ok l
  | VStr s => Ok (chars s)
  | VDict d => Ok (map (fun kv => VStr (fst kv)) d)
  | _ => Raise TypeError
  end.

(** [len(v)] *)
Definition py_len (v : value) : result nat :=
  match v with
  | VList l => Ok (List.length l)
  | VStr s => Ok (String.length s)
  | VDict d => Ok (List.length d)
  | _ => Raise TypeError
  end.

(** [v.iteritems()] *)
Definition py_iteritems (v : value) : result dict :=
  match v with
  | VDict d => Ok d
  | _ => Raise AttributeError
  end.

(** [isinstance(v, basestring)] *)
Definition is_basestring (v : value) : bool :=
  match v with
  | VStr _ => true
  | _ => false
  end.

Definition is_digit_char (c : ascii) : bool :=
  let n := nat_of_ascii c in (Nat.leb 48 n && Nat.leb n 57)%bool.

Fixpoint all_digits (s : string) : bool :=
  match s with
  | EmptyString => true
  | String c s' => (is_digit_char c && all_digits s')%bool
  end.

(** [s.isdigit()] of a byte string in the C locale: every byte is one of
    [0] to [9] and there is at least one.  What [isdigit] answers for a
    unicode string is decided by the Unicode database, which knows more
    digits than these ten; the handler takes the method as it finds it, and
    so does the model: see [isdigit] among the collaborators. *)
Definition bytes_isdigit (s : string) : bool :=
  match s with
  | EmptyString => false
  | _ => all_digits s
  end.

(** a dict key must be hashable: looking a list or a dict up raises *)
Definition hashable (v : value) : bool :=
  match v with
  | VList _ | VDict _ => false
  | _ => true
  end.

(** [v[k] = x]: only a dict accepts a string key *)
Definition py_setitem (v : value) (k : string) (x : value) : result value :=
  match v with
  | VDict d => Ok (VDict (dict_set k x d))
  | _ => Raise TypeError
  end.

(** ** Collaborators

    What the handler uses and does not implement: the generator of the
    [random] module, the form filler and the parsed specification.
    [Random w] is [random.Random()], a generator whose first state comes
    from the entropy [w] of the environment; [seed r a] is [r.seed(a)] and
    [randint r a b] the first [r.randint(a, b)].  [deref] receives the
    [{'$ref': ...}] dict the handler builds.  [isdigit s] is
    [s.isdigit()], a method of the string type of the interpreter: a byte
    string and a unicode string answer differently, and the model, where
    both are one type, takes the answer from the environment. *)

Class Collaborators : Type := {
  world : Type;
  rng : Type;
  Random : world -> rng;
  seed : rng -> Z -> rng;
  randint : rng -> value -> value -> result value;
  smart_fill : value -> result value;
  smart_fill_file : value -> string -> result value;
  deref : value -> result value;
  isdigit : string -> bool
}.

(** ** ParameterValues *)

Module ParameterValues.

Record t : Type := { _values : list (string * list value) }.

Definition init : t := {| _values := [] |}.

Definition is_empty (self : t) : bool :=
  match _values self with
  | [] => true
  | _ => false
  end.

Definition key (path name : string) : string := path ++ "|" ++ name.

Definition get (self : t) (path name : string) : list value :=
  match dict_get (key path name) (_values self) with
  | None => []
  | Some values => values
  end.

(** [values] is a list by its type, so the [ValueError] of [set] has no
    counterpart. *)
Definition set (self : t) (path name : string) (values : list value) : t :=
  {| _values := dict_set (key path name) values (_values self) |}.

End ParameterValues.

(** ** Operations and parameters *)

(** [d.get(k, None)] on a mapping known to be a dict *)
Definition get_or_none (k : string) (d : dict) : value :=
  match dict_get k d with
  | Some v => v
  | None => VNone
  end.

(** Modelled from the spec: the [Param] and [Operation] classes of
    bravado_core, which the handler receives and never defines.  A
    parameter has a name, a required flag, its raw spec mapping and a
    [fill] attribute that exists only once it was assigned.  An operation
    is a path, a method and its parameters by name, in declared order. *)
Record Param : Type := {
  name : string;
  required : bool;
  param_spec : dict;
  fill : option value
}.

(** Modelled from the spec: [parameter.default], the default the author
    declared, [None] when there is none.  The attribute is read from the
    spec mapping each time, so after a repair wrote to [param_spec['default']]
    the handler finds the repaired default, not the one the author wrote. *)
Definition default (parameter : Param) : value :=
  get_or_none "default" (param_spec parameter).

Record Operation : Type := {
  path_name : string;
  http_method : string;
  params : list (string * Param)
}.

(** [parameter.fill = v] *)
Definition set_fill (parameter : Param) (v : value) : Param :=
  {| name := name parameter;
     required := required parameter;
     param_spec := param_spec parameter;
     fill := Some v |}.

Definition no_fill (parameter : Param) : Param :=
  {| name := name parameter;
     required := required parameter;
     param_spec := param_spec parameter;
     fill := None |}.

(** [parameter.param_spec] after an in-place update of the mapping *)
Definition set_param_spec (parameter : Param) (d : dict) : Param :=
  {| name := name parameter;
     required := required parameter;
     param_spec := d;
     fill := fill parameter |}.

Definition set_params (operation : Operation) (ps : list (string * Param))
  : Operation :=
  {| path_name := path_name operation;
     http_method := http_method operation;
     params := ps |}.

(** Modelled from the spec: [Operation.from_spec(swagger_spec, path_name,
    http_method, op_spec)], which builds the operation again from the shared
    raw spec: the same parameters over the same spec mappings, none of them
    with a [fill] attribute yet. *)
Definition from_spec (operation : Operation) : Operation :=
  set_params operation
    (map (fun kp => (fst kp, no_fill (snd kp))) (params operation)).

(** [copy.deepcopy] of a fill value: values are immutable here *)
Definition deepcopy (v : value) : value := v.

(** [operation.params[parameter_name].fill = v] *)
Definition set_param_fill (parameter_name : string) (v : value)
  (operation : Operation) : result Operation :=
  match dict_get parameter_name (params operation) with
  | None => Raise KeyError
  | Some parameter =>
      Ok (set_params operation
            (dict_set parameter_name (set_fill parameter v) (params operation)))
  end.

(** ** ParameterHandler *)

Module ParameterHandler.

(** The float 4.2 is the decimal [VFloat 42 (-1)]. *)
Definition DEFAULT_VALUES_BY_TYPE : dict :=
  [("int64", VInt 42);
   ("int32", VInt 42);
   ("integer", VInt 42);
   ("float", VFloat 42 (-1));
   ("double", VFloat 42 (-1));
   ("date", VDate 2017 6 30);
   ("date-time", VDateTime 2017 6 30 23 59 45);
   ("boolean", VBool true)].

(** [DEFAULT_VALUES_BY_TYPE.get(parameter_type, None)] *)
Definition default_value_for (parameter_type : value) : result value :=
  if hashable parameter_type then
    match parameter_type with
    | VStr s => Ok (get_or_none s DEFAULT_VALUES_BY_TYPE)
    | _ => Ok VNone
    end
  else Raise TypeError.

(** [hasattr(parameter, 'fill')] is [fill parameter] being [Some]. *)
Definition _copy (operation : Operation) : result Operation :=
  let clone := from_spec operation in
  foldM (fun clone kp =>
           match fill (snd kp) with
           | Some f => set_param_fill (fst kp) (deepcopy f) clone
           | None => Ok clone
           end)
        (params operation) clone.

(** With one value the operations are updated in place and the same list is
    returned; with several, every operation is copied once per value. *)
Definition _set_custom_parameter_values (operations : list Operation)
  (parameter_name : string) (values : list value) : result (list Operation) :=
  match values with
  | [] => Ok operations
  | [v] => mapM (set_param_fill parameter_name v) operations
  | _ =>
      clones <- mapM (fun operation =>
                  mapM (fun v =>
                          clone <- _copy operation ;;
                          set_param_fill parameter_name v clone)
                       values)
                operations ;;
      Ok (List.concat clones)
  end.

Definition operation_has_optional_params (operation : Operation) : bool :=
  existsb (fun kp => negb (required (snd kp))) (params operation).

(** [del d[k]] *)
Definition py_del (k : string) (d : dict) : result dict :=
  if dict_has k d then Ok (dict_del k d) else Raise KeyError.

(** One pass of a repair over all the parameters of the operation: the
    loop [for parameter_name, parameter in self.operation.params.iteritems()]
    with a body that updates [parameter.param_spec] in place. *)
Definition for_each_param_spec (body : dict -> result dict)
  (operation : Operation) : result Operation :=
  ps <- mapM (fun kp =>
                spec <- body (param_spec (snd kp)) ;;
                Ok (fst kp, set_param_spec (snd kp) spec))
             (params operation) ;;
  Ok (set_params operation ps).

Definition fix_string_format_body (spec : dict) : result dict :=
  let param_format := get_or_none "format" spec in
  let param_type := get_or_none "type" spec in
  if (eq_str param_format "string" && eq_str param_type "string")%bool
  then py_del "format" spec
  else Ok spec.

Definition _fix_string_format (operation : Operation) : result Operation :=
  for_each_param_spec fix_string_format_body operation.

Definition invalid_formats : list string :=
  ["int32"; "int64"; "float"; "double"; EmptyString].

Definition fix_string_with_invalid_format_body (spec : dict) : result dict :=
  let param_format := get_or_none "format" spec in
  let param_type := get_or_none "type" spec in
  if (in_strs param_format invalid_formats && eq_str param_type "string")%bool
  then py_del "format" spec
  else Ok spec.

Definition _fix_string_with_invalid_format (operation : Operation)
  : result Operation :=
  for_each_param_spec fix_string_with_invalid_format_body operation.

Definition fix_formats : list string := ["double"; "float"; "int32"; "int64"].

Section Repairs.
Context {C : Collaborators}.

Definition fix_bad_default_for_number_type_body (spec : dict) : result dict :=
  let param_format := get_or_none "format" spec in
  let param_default := get_or_none "default" spec in
  if negb (in_strs param_format fix_formats) then Ok spec
  else match param_default with
       | VStr s =>
           if isdigit s then Ok spec
           else Ok (dict_set "default" (VInt 0) spec)
       | _ => Ok spec
       end.

Definition _fix_bad_default_for_number_type (operation : Operation)
  : result Operation :=
  for_each_param_spec fix_bad_default_for_number_type_body operation.

Definition _fix_common_spec_issues (operation : Operation) : result Operation :=
  operation <- _fix_string_format operation ;;
  operation <- _fix_string_with_invalid_format operation ;;
  _fix_bad_default_for_number_type operation.

End Repairs.

Definition _get_parameter_type (param_spec : value) : result value :=
  match py_getitem param_spec "format" with
  | Ok parameter_type => Ok parameter_type
  | Raise KeyError =>
      match py_getitem param_spec "type" with
      | Ok parameter_type => Ok parameter_type
      | Raise KeyError => Ok VNone
      | Raise e => Raise e
      end
  | Raise e => Raise e
  end.

Definition _spec_has_default (spec : value) : result bool :=
  default <- py_get spec "default" ;;
  if negb (is_none default) then Ok true
  else
    enum <- py_get spec "enum" ;;
    if negb (is_none enum) then n <- py_len enum ;; Ok (Nat.ltb 0 n)
    else Ok false.

Definition _parameter_has_default (parameter : Param) : result bool :=
  b <- _spec_has_default (VDict (param_spec parameter)) ;;
  if b then Ok true
  else
    let schema := get_or_none "schema" (param_spec parameter) in
    if negb (is_none schema) then _spec_has_default schema
    else Ok false.

Definition _is_header (parameter : Param) : bool :=
  eq_str (get_or_none "in" (param_spec parameter)) "header".

Definition _is_header_with_default (parameter : Param) : result bool :=
  if _is_header parameter then _parameter_has_default parameter
  else Ok false.

Definition _should_skip_setting_param_value (parameter : Param)
  (optional : bool) : result bool :=
  h <- _is_header_with_default parameter ;;
  if h then Ok false
  else if (negb (required parameter) && negb optional)%bool then Ok true
  else Ok false.


Section Synthesis.
Context {C : Collaborators}.

(** The entropy a generator made by [random.Random()] starts from. *)
Variable w : world.

Definition numeric_types : list string :=
  ["integer"; "float"; "double"; "int32"; "int64"].

(** The steps of [_get_param_value_for_type_and_spec] return early; each
    is a function to [option]: [Some v] is [return v], [None] falls
    through to the next step. *)
Definition enum_step (parameter_spec : value) : result (option value) :=
  has_enum <- py_in "enum" parameter_spec ;;
  if has_enum then
    enum <- py_getitem parameter_spec "enum" ;;
    if truthy enum then first <- py_index0 enum ;; Ok (Some first)
    else Ok None
  else Ok None.

Definition range_step (parameter_type parameter_spec : value)
  : result (option value) :=
  if in_strs parameter_type numeric_types then
    has_max <- py_in "maximum" parameter_spec ;;
    _max <- (if has_max then py_getitem parameter_spec "maximum"
             else Ok VNone) ;;
    has_min <- py_in "minimum" parameter_spec ;;
    _min <- (if has_min then py_getitem parameter_spec "minimum"
             else Ok VNone) ;;
    if (negb (is_none _max) || negb (is_none _min))%bool then
      let _max := if negb (is_none _max) then _max else VInt 56 in
      let _min := if negb (is_none _min) then _min else VInt 0 in
      let r := Random w in
      let r := seed r 1 in
      n <- randint r _min _max ;;
      Ok (Some n)
    else Ok None
  else Ok None.

Definition _get_param_value_for_type_and_spec
  (parameter_type parameter_spec : value) : result value :=
  parameter_name <- py_get parameter_spec "name" ;;
  by_enum <- enum_step parameter_spec ;;
  match by_enum with
  | Some v => Ok v
  | None =>
      by_range <- range_step parameter_type parameter_spec ;;
      match by_range with
      | Some v => Ok v
      | None =>
          default_value <- default_value_for parameter_type ;;
          if negb (is_none default_value) then Ok default_value
          else if eq_str parameter_type "string" then
            smart_fill (if is_none parameter_name then VStr "unknown"
                        else parameter_name)
          else if eq_str parameter_type "file" then
            smart_fill_file (if is_none parameter_name then VStr "unknown"
                             else parameter_name) "cat.png"
          else Ok VNone
      end
  end.

(** The synthesiser is recursive through [self._get_param_value]; the
    functions below take that call as [get_param_value]. *)
Section Recursive.
Variable get_param_value : value -> result value.
Variable get_object_definition_impl : value -> result value.

Definition _get_param_value_for_array (param_spec : value) : result value :=
  type <- py_get param_spec "type" ;;
  if negb (eq_str type "array") then Ok VNone
  else
    items <- py_get param_spec "items" ;;
    if is_none items then Ok (VList [])
    else
      has_default <- py_in "default" items ;;
      if has_default then
        d <- py_getitem items "default" ;;
        Ok (VList [d])
      else
        let item_param_spec := items in
        v <- get_param_value item_param_spec ;;
        if negb (is_none v) then Ok (VList [v])
        else Ok (VList []).

Definition _get_param_value_for_primitive (param_spec : value)
  : result value :=
  parameter_type <- _get_parameter_type param_spec ;;
  if is_none parameter_type then Ok VNone
  else
    v <- _get_param_value_for_type_and_spec parameter_type param_spec ;;
    if negb (is_none v) then Ok v
    else
      v <- _get_param_value_for_array param_spec ;;
      if negb (is_none v) then Ok v
      else Ok VNone.

(** One part of an [allOf] merged into [(required, properties)]. *)
Definition merge_part (merged : list value * dict) (part : value)
  : result (list value * dict) :=
  object_definition <- get_object_definition_impl part ;;
  has_required <- py_in "required" object_definition ;;
  required' <-
    (if has_required then
       r <- py_getitem object_definition "required" ;;
       rs <- py_iter r ;;
       Ok (fst merged ++ rs)%list
     else Ok (fst merged)) ;;
  has_properties <- py_in "properties" object_definition ;;
  properties' <-
    (if has_properties then
       p <- py_getitem object_definition "properties" ;;
       kvs <- py_iteritems p ;;
       Ok (fold_left (fun acc kv => dict_set (fst kv) (snd kv) acc)
                     kvs (snd merged))
     else Ok (snd merged)) ;;
  Ok (required', properties').

Definition _merge_all_parts (all_parts : value) : result value :=
  parts <- py_iter all_parts ;;
  merged <- foldM merge_part parts ([], []) ;;
  Ok (VDict [("required", VList (fst merged));
             ("properties", VDict (snd merged));
             ("type", VStr "object")]).

(** [property_data['name'] = property_name] writes into the spec mapping.
    The value returned does not depend on the write having happened
    before: the mapping with the name goes to the recursive call, and a
    later call that finds the name the write left finds the name this one
    would write again.  The model returns the value and does not keep the
    write: here the mappings an operation holds stay as the repair left
    them, while the program has added these names to the nested
    properties of the mappings it synthesised a value from. *)
Definition _create_object (param_spec : value) : result value :=
  type <- py_get param_spec "type" ;;
  if negb (eq_str type "object") then Ok (VDict [])
  else
    properties <- py_getitem param_spec "properties" ;;
    kvs <- py_iteritems properties ;;
    created_object <-
      foldM (fun created_object kv =>
               let property_name := fst kv in
               let property_data := snd kv in
               has_name <- py_in "name" property_data ;;
               property_data <-
                 (if negb has_name then
                    py_setitem property_data "name" (VStr property_name)
                  else Ok property_data) ;;
               v <- get_param_value property_data ;;
               Ok (dict_set property_name v created_object))
            kvs [] ;;
    Ok (VDict created_object).

End Recursive.

(** [self.spec.deref(ref)] is the collaborator [deref]; the comparison of
    [param_spec['type']] with ['object'] at the end has an empty body and
    only its subscript can raise. *)
Fixpoint _get_object_definition_impl (fuel : nat) (param_spec : value)
  : result value :=
  match fuel with
  | O => Raise RecursionLimit
  | S fuel' =>
      has_ref <- py_in "$ref" param_spec ;;
      param_spec <-
        (if has_ref then
           r <- py_getitem param_spec "$ref" ;;
           deref (VDict [("$ref", r)])
         else Ok param_spec) ;;
      has_all_of <- py_in "allOf" param_spec ;;
      param_spec <-
        (if has_all_of then
           all_parts <- py_getitem param_spec "allOf" ;;
           _merge_all_parts (_get_object_definition_impl fuel') all_parts
         else Ok param_spec) ;;
      has_schema <- py_in "schema" param_spec ;;
      param_spec <-
        (if has_schema then
           schema <- py_getitem param_spec "schema" ;;
           schema_has_ref <- py_in "$ref" schema ;;
           if schema_has_ref then
             r <- py_getitem schema "$ref" ;;
             deref (VDict [("$ref", r)])
           else Ok schema
         else Ok param_spec) ;;
      has_type <- py_in "type" param_spec ;;
      _ <- (if has_type then py_getitem param_spec "type" else Ok VNone) ;;
      Ok param_spec
  end.

Definition _get_object_definition (fuel : nat) (param_spec : value)
  : result value :=
  _get_object_definition_impl fuel param_spec.

Definition _get_param_value_for_model
  (get_param_value : value -> result value) (fuel : nat) (param_spec : value)
  : result value :=
  parameter_definition <- _get_object_definition fuel param_spec ;;
  created_object <- _create_object get_param_value parameter_definition ;;
  if negb (is_none created_object) then Ok created_object
  else Raise NotImplementedError.

Fixpoint _get_param_value (fuel : nat) (param_spec : value) : result value :=
  match fuel with
  | O => Raise RecursionLimit
  | S fuel' =>
      has_schema <- py_in "schema" param_spec ;;
      param_spec <- (if has_schema then py_getitem param_spec "schema"
                     else Ok param_spec) ;;
      v <- _get_param_value_for_primitive (_get_param_value fuel') param_spec ;;
      if negb (is_none v) then Ok v
      else
        v <- _get_param_value_for_model (_get_param_value fuel') fuel'
               param_spec ;;
        if negb (is_none v) then Ok v
        else Ok (VInt 42)
  end.

End Synthesis.

(** [_try_to_set_param_value] returns its boolean and the parameter with the
    [fill] it assigned; [get_param_value] is [self._get_param_value]. *)
Definition _try_to_set_param_value (get_param_value : value -> result value)
  (parameter : Param) : result (bool * Param) :=
  if negb (is_none (default parameter)) then
    Ok (true, set_fill parameter (default parameter))
  else
    let param_spec := VDict (param_spec parameter) in
    v <- get_param_value param_spec ;;
    if negb (is_none v) then Ok (true, set_fill parameter v)
    else Ok (false, parameter).

(** The body of the first loop of [set_operation_params]. *)
Definition fill_param (get_param_value : value -> result value)
  (optional : bool) (kp : string * Param) : result (string * Param) :=
  let parameter := set_fill (snd kp) VNone in
  skip <- _should_skip_setting_param_value parameter optional ;;
  if skip then Ok (fst kp, parameter)
  else
    r <- _try_to_set_param_value get_param_value parameter ;;
    Ok (fst kp, snd r).

(** The body of the second loop of [set_operation_params]. *)
Definition override_param (optional : bool)
  (custom_parameter_values : ParameterValues.t) (operation : Operation)
  (operations : list Operation) (kp : string * Param)
  : result (list Operation) :=
  let parameter_name := fst kp in
  let parameter := snd kp in
  skip <- _should_skip_setting_param_value parameter optional ;;
  if skip then Ok operations
  else
    let values := ParameterValues.get custom_parameter_values
                    (path_name operation) (name parameter) in
    match values with
    | [] => Ok operations
    | _ => _set_custom_parameter_values operations parameter_name values
    end.

Section Expansion.
Context {C : Collaborators}.
Variable w : world.

(** The copy of the repaired operation with every eligible parameter
    filled: the state of [operation] when the first loop is over. *)
Definition filled_operation (fuel : nat) (optional : bool)
  (self_operation : Operation) : result Operation :=
  self_operation <- _fix_common_spec_issues self_operation ;;
  operation <- _copy self_operation ;;
  ps <- mapM (fill_param (_get_param_value w fuel) optional)
             (params operation) ;;
  Ok (set_params operation ps).

Definition set_operation_params (fuel : nat) (optional : bool)
  (custom_parameter_values : ParameterValues.t) (self_operation : Operation)
  : result (list Operation) :=
  operation <- filled_operation fuel optional self_operation ;;
  let operations := [operation] in
  if ParameterValues.is_empty custom_parameter_values then Ok operations
  else
    foldM (override_param optional custom_parameter_values operation)
          (params operation) operations.

End Expansion.

End ParameterHandler.

Import ParameterHandler.

(** ** A concrete environment

    Used to run the handler on examples: a generator whose state is an
    integer, a form filler that tags the name it receives, and a
    specification with three definitions. *)

Definition example_definitions : dict :=
  [("#/definitions/Named",
    VDict [("required", VList [VStr "a"])]);
   ("#/definitions/Tagged",
    VDict [("required", VList [VStr "b"]);
           ("properties", VDict [("x", VDict [("type", VStr "integer")])])]);
   ("#/definitions/Pet",
    VDict [("type", VStr "object");
           ("properties",
            VDict [("tag", VDict [("type", VStr "string")]);
                   ("age", VDict [("type", VStr "integer");
                                  ("format", VStr "int32")])])])].

Definition example_deref (ref : value) : result value :=
  match ref with
  | VDict [(_, VStr pointer)] =>
      match dict_get pointer example_definitions with
      | Some target => Ok target
      | None => Raise SwaggerError
      end
  | _ => Raise SwaggerError
  end.

Definition example_randint (r : Z) (a b : value) : result value :=
  match a, b with
  | VInt lo, VInt hi =>
      if lo <=? hi then Ok (VInt (lo + (r * 7919) mod (hi - lo + 1)))
      else Raise ValueError
  | _, _ => Raise ValueError
  end.

Definition example_smart_fill (v : value) : result value :=
  match v with
  | VStr s => Ok (VStr ("value-for-" ++ s))
  | _ => Raise AttributeError
  end.

Definition example_smart_fill_file (v : value) (filename : string)
  : result value :=
  match v with
  | VStr s => Ok (VFile s filename)
  | _ => Raise AttributeError
  end.

Definition example_env : Collaborators :=
  {| world := Z;
     rng := Z;
     Random := fun entropy => entropy;
     seed := fun _ a => a;
     randint := example_randint;
     smart_fill := example_smart_fill;
     smart_fill_file := example_smart_fill_file;
     deref := example_deref;
     isdigit := bytes_isdigit |}.

(** ** Notions of the specification *)

Definition keys {V : Type} (d : list (string * V)) : list string := map fst d.

(** The fill of the parameter stored under [k]. *)
Definition fill_at (k : string) (operation : Operation) : option value :=
  match dict_get k (params operation) with
  | Some parameter => fill parameter
  | None => None
  end.

(** What each repair leaves of a spec mapping, and the three in a row. *)
Definition without_string_format (spec : dict) : dict :=
  if (eq_str (get_or_none "format" spec) "string"
      && eq_str (get_or_none "type" spec) "string")%bool
  then dict_del "format" spec else spec.

Definition without_invalid_format (spec : dict) : dict :=
  if (in_strs (get_or_none "format" spec) invalid_formats
      && eq_str (get_or_none "type" spec) "string")%bool
  then dict_del "format" spec else spec.

Section RepairedSpecs.
Context {C : Collaborators}.

Definition with_numeric_default (spec : dict) : dict :=
  if in_strs (get_or_none "format" spec) fix_formats then
    match get_or_none "default" spec with
    | VStr s => if isdigit s then spec else dict_set "default" (VInt 0) spec
    | _ => spec
    end
  else spec.

Definition repaired (spec : dict) : dict :=
  with_numeric_default (without_invalid_format (without_string_format spec)).

Definition with_repaired_spec (kp : string * Param) : string * Param :=
  (fst kp, set_param_spec (snd kp) (repaired (param_spec (snd kp)))).

End RepairedSpecs.


(** What a part of an [allOf] contributes: its [required] names and its
    [properties]. *)
Definition required_of (definition : dict) : list value :=
  match dict_get "required" definition with
  | Some (VList l) => l
  | _ => []
  end.

Definition properties_of (definition : dict) : dict :=
  match dict_get "properties" definition with
  | Some (VDict p) => p
  | _ => []
  end.

(** Last writer wins: the last entry for [k] among the properties of all
    the parts, taken in order. *)
Definition last_writer (k : string) (definitions : list dict) : option value :=
  dict_get k (rev (List.concat (map properties_of definitions))).

(** A schema object: [required], when present, is a list and [properties],
    when present, a mapping. *)
Definition schema_object (definition : dict) : Prop :=
  (forall v, dict_get "required" definition = Some v -> exists l, v = VList l) /\
  (forall v, dict_get "properties" definition = Some v -> exists p, v = VDict p).





(** The operation with the fill of the parameter [k] replaced by [v]. *)
Definition with_fill (k : string) (v : value) (operation : Operation)
  : Operation :=
  match dict_get k (params operation) with
  | Some parameter =>
      set_params operation
        (dict_set k (set_fill parameter v) (params operation))
  | None => operation
  end.

(** The override list of every parameter of the operation, in declared
    order: the values the caller gave for (path, name), and none for a
    parameter that is skipped. *)
Definition override_values (optional : bool)
  (custom_parameter_values : ParameterValues.t) (path : string)
  (parameter : Param) : list value :=
  match _should_skip_setting_param_value parameter optional with
  | Ok false => ParameterValues.get custom_parameter_values path (name parameter)
  | _ => []
  end.

Definition overrides (optional : bool)
  (custom_parameter_values : ParameterValues.t) (operation : Operation)
  : list (string * list value) :=
  map (fun kp => (fst kp,
                  override_values optional custom_parameter_values
                    (path_name operation) (snd kp)))
      (params operation).

(** The expansion as the specification describes it: a fold that replaces
    the running sequence by its product with the override list of each
    overridden parameter, existing operations first, then values. *)
Definition product_step (operations : list Operation)
  (override : string * list value) : list Operation :=
  match snd override with
  | [] => operations
  | values =>
      flat_map (fun operation =>
                  map (fun v => with_fill (fst override) v operation) values)
               operations
  end.

Definition cartesian_product (ovs : list (string * list value))
  (operations : list Operation) : list Operation :=
  fold_left product_step ovs operations.

(** The overridden parameters and the product of the sizes of their lists. *)
Definition overridden (ovs : list (string * list value))
  : list (string * list value) :=
  filter (fun kv => match snd kv with [] => false | _ => true end) ovs.

Definition product_of_sizes (ovs : list (string * list value)) : nat :=
  fold_right Nat.mul 1%nat (map (fun kv => List.length (snd kv)) (overridden ovs)).

(** An operation with two string parameters and the two override lists of
    the cartesian example. *)
Definition example_parameter (n : string) : Param :=
  {| name := n;
     required := true;
     param_spec := [("name", VStr n); ("in", VStr "query");
                    ("type", VStr "string")];
     fill := None |}.

Definition example_operation : Operation :=
  {| path_name := "/pets";
     http_method := "get";
     params := [("p1", example_parameter "p1");
                ("p2", example_parameter "p2");
                ("p3", example_parameter "p3")] |}.

Definition example_overrides : ParameterValues.t :=
  ParameterValues.set
    (ParameterValues.set ParameterValues.init
       "/pets" "p1" [VStr "a"; VStr "b"])
    "/pets" "p2" [VInt 1; VInt 2].

(** The example operation once the first loop filled it: no parameter has
    a default, so each fill is what the form filler gives for the name. *)
Definition example_filled : Operation :=
  {| path_name := "/pets";
     http_method := "get";
     params :=
       map (fun kp => (fst kp,
                       set_fill (snd kp) (VStr ("value-for-" ++ fst kp))))
           (params example_operation) |}.

(** An optional header with a default, an optional header without one and
    an optional query parameter with a default. *)
Definition example_header (n : string) (spec : dict) : Param :=
  {| name := n;
     required := false;
     param_spec := ("name", VStr n) :: ("in", VStr "header") :: spec;
     fill := None |}.

Definition example_headers : Operation :=
  {| path_name := "/pets";
     http_method := "get";
     params :=
       [("X-Version",
         example_header "X-Version"
           [("type", VStr "string"); ("enum", VList [VStr "v1"; VStr "v2"])]);
        ("X-Trace", example_header "X-Trace" [("type", VStr "string")]);
        ("limit",
         {| name := "limit";
            required := false;
            param_spec := [("name", VStr "limit"); ("in", VStr "query");
                           ("type", VStr "integer"); ("default", VInt 10)];
            fill := None |})] |}.


(** ** Loading parameter values

    [ParameterValues.load_from_string]: the text is parsed by [yaml.load],
    a collaborator that answers the parsed content or the message of its
    [YAMLError]; the records of the content are then stored one by one.
    The store is updated in place, so a load that raises leaves what it
    stored so far: the outcome is the store together with the exception,
    if any.  [format_s v] is ['%s' % v], the text [key] builds from a path
    or a name; it is the string itself for a string. *)

Inductive load_error : Type :=
| ParameterValueParsingError (message : string)
| PythonError (e : exn).

Definition outcome : Type := (ParameterValues.t * option load_error)%type.

(** A step that may raise a Python exception, then the rest. *)
Definition attempt {A : Type} (self : ParameterValues.t) (r : result A)
  (k : A -> outcome) : outcome :=
  match r with
  | Ok a => k a
  | Raise e => (self, Some (PythonError e))
  end.

(** [for x in xs: body] on the store, stopping at the first exception. *)
Fixpoint for_each_load {A : Type}
  (body : ParameterValues.t -> A -> outcome) (xs : list A)
  (self : ParameterValues.t) : outcome :=
  match xs with
  | [] => (self, None)
  | x :: xs' =>
      match body self x with
      | (self', None) => for_each_load body xs' self'
      | raised => raised
      end
  end.

Section Loading.
Variable yaml_load : string -> value + string.
Variable format_s : value -> string.

Definition load_parameter (item : value) (self : ParameterValues.t)
  (parameter : value) : outcome :=
  attempt self (py_in "name" parameter) (fun has_name =>
  if negb has_name then
    (self, Some (ParameterValueParsingError "parameter does not have name"))
  else
  attempt self (py_in "values" parameter) (fun has_values =>
  if negb has_values then
    (self, Some (ParameterValueParsingError "parameter does not have values"))
  else
  attempt self (py_getitem parameter "values") (fun values =>
  match values with
  | VList _ =>
      attempt self (py_getitem item "path") (fun path =>
      attempt self (py_getitem parameter "name") (fun name =>
      attempt self (py_getitem parameter "values") (fun values =>
      match values with
      | VList vs =>
          (ParameterValues.set self (format_s path) (format_s name) vs, None)
      | _ => (self, Some (PythonError ValueError))
      end)))
  | _ => (self, Some (ParameterValueParsingError "values is not a list"))
  end))).

Definition load_item (self : ParameterValues.t) (item : value) : outcome :=
  attempt self (py_in "path" item) (fun has_path =>
  if negb has_path then
    (self, Some (ParameterValueParsingError "item does not have path"))
  else
  attempt self (py_in "parameters" item) (fun has_parameters =>
  if negb has_parameters then
    (self, Some (ParameterValueParsingError "item does not have parameters"))
  else
  attempt self (py_getitem item "parameters") (fun parameters =>
  attempt self (py_iter parameters) (fun ps =>
  for_each_load (load_parameter item) ps self)))).

Definition load_content (self : ParameterValues.t) (content : value)
  : outcome :=
  match content with
  | VList items => for_each_load load_item items self
  | _ => (self, Some (ParameterValueParsingError "root is not a list"))
  end.

Definition load_from_string (self : ParameterValues.t) (text : string)
  : outcome :=
  match yaml_load text with
  | inl content => load_content self content
  | inr message => (self, Some (ParameterValueParsingError message))
  end.

End Loading.

(** A record of the override file as the loader expects it: a mapping with
    a name and a list of values, and a mapping with a path and a list of
    such parameters. *)
Definition parameter_record (v : value) (r : string * list value) : Prop :=
  exists d,
    v = VDict d /\
    dict_get "name" d = Some (VStr (fst r)) /\
    dict_get "values" d = Some (VList (snd r)).

Definition item_record (v : value)
  (r : string * list (string * list value)) : Prop :=
  exists d l,
    v = VDict d /\
    dict_get "path" d = Some (VStr (fst r)) /\
    dict_get "parameters" d = Some (VList l) /\
    Forall2 parameter_record l (snd r).

(** The store after the records were set one after the other. *)
Definition store_parameters (path : string) (self : ParameterValues.t)
  (ps : list (string * list value)) : ParameterValues.t :=
  fold_left (fun s nv => ParameterValues.set s path (fst nv) (snd nv)) ps self.

Definition store_items (self : ParameterValues.t)
  (items : list (string * list (string * list value))) : ParameterValues.t :=
  fold_left (fun s r => store_parameters (fst r) s (snd r)) items self.

(** The separator of [ParameterValues.key] occurs in the string. *)
Fixpoint has_separator (s : string) : bool :=
  match s with
  | EmptyString => false
  | String c s' => (Ascii.eqb c "|" || has_separator s')%bool
  end.

(** The spec of a property as [_create_object] passes it on: with the name
    of the property, unless it has a name already. *)
Definition named_property (property_name : string) (property_data : dict)
  : dict :=
  if dict_has "name" property_data then property_data
  else dict_set "name" (VStr property_name) property_data.

(** ** More examples

    An override text with one record, a specification with a definition
    that refers to itself and one that is a string, and an operation whose
    parameters need each of the repairs. *)

Definition example_content : value :=
  VList [VDict [("path", VStr "/pets");
                ("parameters",
                 VList [VDict [("name", VStr "p1");
                               ("values", VList [VStr "a"; VStr "b"])];
                        VDict [("name", VStr "p2");
                               ("values", VList [VInt 1; VInt 2])]])]].

Definition example_yaml_load (text : string) : value + string :=
  if String.eqb text "overrides" then inl example_content
  else inr "could not find expected ':'".

Definition example_format_s (v : value) : string :=
  match v with
  | VStr s => s
  | _ => "None"
  end.

Definition more_definitions : dict :=
  [("#/definitions/Node",
    VDict [("type", VStr "object");
           ("properties",
            VDict [("next", VDict [("$ref", VStr "#/definitions/Node")])])]);
   ("#/definitions/Name", VDict [("type", VStr "string")])].

Definition more_deref (ref : value) : result value :=
  match ref with
  | VDict [(_, VStr pointer)] =>
      match dict_get pointer more_definitions with
      | Some target => Ok target
      | None => Raise SwaggerError
      end
  | _ => Raise SwaggerError
  end.

Definition more_env : Collaborators :=
  {| world := Z;
     rng := Z;
     Random := fun entropy => entropy;
     seed := fun _ a => a;
     randint := example_randint;
     smart_fill := example_smart_fill;
     smart_fill_file := example_smart_fill_file;
     deref := more_deref;
     isdigit := bytes_isdigit |}.

Definition example_query (n : string) (spec : dict) : Param :=
  {| name := n;
     required := false;
     param_spec := ("name", VStr n) :: ("in", VStr "query") :: spec;
     fill := None |}.

Definition example_unrepaired : Operation :=
  {| path_name := "/users";
     http_method := "get";
     params :=
       [("sort",
         example_query "sort"
           [("type", VStr "string"); ("format", VStr "string");
            ("default", VStr "name,user_id")]);
        ("fields",
         example_query "fields"
           [("type", VStr "string"); ("format", VStr "int64");
            ("default", VStr EmptyString)]);
        ("count",
         example_query "count"
           [("type", VStr "integer"); ("format", VStr "int32");
            ("default", VStr "many")])] |}.

Definition example_repaired : Operation :=
  {| path_name := "/users";
     http_method := "get";
     params :=
       [("sort",
         example_query "sort"
           [("type", VStr "string"); ("default", VStr "name,user_id")]);
        ("fields",
         example_query "fields"
           [("type", VStr "string"); ("default", VStr EmptyString)]);
        ("count",
         example_query "count"
           [("type", VStr "integer"); ("format", VStr "int32");
            ("default", VInt 0)])] |}.

(** An operation whose parameters are all required. *)
Definition example_required : Operation :=
  {| path_name := "/pets";
     http_method := "get";
     params := [("p1", example_parameter "p1");
                ("p2", example_parameter "p2")] |}.

(** ** Results and loops *)

Lemma bind_Ok {A B : Type} (m : result A) (k : A -> result B) (b : B) :
  bind m k = Ok b -> exists a, m = Ok a /\ k a = Ok b.
Proof.
  destruct m as [a|e]; simpl; intros H.
  - exists a. split; [reflexivity | exact H].
  - discriminate.
Qed.

Lemma mapM_pure {A B : Type} (f : A -> result B) (g : A -> B) (xs : list A) :
  (forall x, In x xs -> f x = Ok (g x)) -> mapM f xs = Ok (map g xs).
Proof.
  induction xs as [|x xs IH]; intros H; simpl.
  - reflexivity.
  - rewrite (H x (or_introl eq_refl)). simpl.
    rewrite IH by (intros y Hy; apply H; right; exact Hy).
    reflexivity.
Qed.

(** ** Dictionaries *)

Lemma dict_get_del_same {V : Type} (k : string) (d : list (string * V)) :
  dict_get k (dict_del k d) = None.
Proof.
  induction d as [|[k' v] d IH]; simpl.
  - reflexivity.
  - destruct (String.eqb k k') eqn:E; simpl.
    + exact IH.
    + rewrite E. exact IH.
Qed.

Lemma dict_get_del_other {V : Type} (k k' : string) (d : list (string * V)) :
  String.eqb k k' = false -> dict_get k (dict_del k' d) = dict_get k d.
Proof.
  intros Hk. induction d as [|[k0 v] d IH]; simpl.
  - reflexivity.
  - destruct (String.eqb k' k0) eqn:E.
    + apply String.eqb_eq in E. subst k0. rewrite Hk. exact IH.
    + simpl. rewrite IH. reflexivity.
Qed.

Lemma dict_get_set_same {V : Type} (k : string) (v : V) (d : list (string * V)) :
  dict_get k (dict_set k v d) = Some v.
Proof.
  induction d as [|[k' v'] d IH]; simpl.
  - rewrite String.eqb_refl. reflexivity.
  - destruct (String.eqb k k') eqn:E; simpl.
    + rewrite String.eqb_refl. reflexivity.
    + rewrite E. exact IH.
Qed.

Lemma dict_get_set_other {V : Type} (k k' : string) (v : V)
  (d : list (string * V)) :
  String.eqb k k' = false -> dict_get k (dict_set k' v d) = dict_get k d.
Proof.
  intros Hk. induction d as [|[k0 v0] d IH]; simpl.
  - rewrite Hk. reflexivity.
  - destruct (String.eqb k' k0) eqn:E; simpl.
    + apply String.eqb_eq in E. subst k0. rewrite Hk. reflexivity.
    + rewrite IH. reflexivity.
Qed.

Lemma get_or_none_del_same (k : string) (d : dict) :
  get_or_none k (dict_del k d) = VNone.
Proof. unfold get_or_none. rewrite dict_get_del_same. reflexivity. Qed.

Lemma get_or_none_del_other (k k' : string) (d : dict) :
  String.eqb k k' = false -> get_or_none k (dict_del k' d) = get_or_none k d.
Proof.
  intros H. unfold get_or_none. rewrite dict_get_del_other by exact H.
  reflexivity.
Qed.

Lemma get_or_none_set_same (k : string) (v : value) (d : dict) :
  get_or_none k (dict_set k v d) = v.
Proof. unfold get_or_none. rewrite dict_get_set_same. reflexivity. Qed.

Lemma get_or_none_set_other (k k' : string) (v : value) (d : dict) :
  String.eqb k k' = false -> get_or_none k (dict_set k' v d) = get_or_none k d.
Proof.
  intros H. unfold get_or_none. rewrite dict_get_set_other by exact H.
  reflexivity.
Qed.

(** ** The repairs *)

Section RepairFacts.
Context {C : Collaborators}.

Lemma py_del_present (k : string) (d : dict) :
  is_none (get_or_none k d) = false -> py_del k d = Ok (dict_del k d).
Proof.
  unfold py_del, dict_has, get_or_none.
  destruct (dict_get k d); simpl; [reflexivity | discriminate].
Qed.

Lemma eq_str_not_none (v : value) (s : string) :
  eq_str v s = true -> is_none v = false.
Proof. destruct v; simpl; intros H; try discriminate; reflexivity. Qed.

Lemma in_strs_not_none (v : value) (l : list string) :
  in_strs v l = true -> is_none v = false.
Proof.
  unfold in_strs. intros H. apply existsb_exists in H.
  destruct H as [s [_ H]]. exact (eq_str_not_none _ _ H).
Qed.

Lemma fix_string_format_body_ok (spec : dict) :
  fix_string_format_body spec = Ok (without_string_format spec).
Proof.
  unfold fix_string_format_body, without_string_format.
  destruct (eq_str (get_or_none "format" spec) "string") eqn:F; simpl;
    [|reflexivity].
  destruct (eq_str (get_or_none "type" spec) "string"); [|reflexivity].
  apply py_del_present. exact (eq_str_not_none _ _ F).
Qed.

Lemma fix_string_with_invalid_format_body_ok (spec : dict) :
  fix_string_with_invalid_format_body spec = Ok (without_invalid_format spec).
Proof.
  unfold fix_string_with_invalid_format_body, without_invalid_format.
  destruct (in_strs (get_or_none "format" spec) invalid_formats) eqn:F; simpl;
    [|reflexivity].
  destruct (eq_str (get_or_none "type" spec) "string"); [|reflexivity].
  apply py_del_present. exact (in_strs_not_none _ _ F).
Qed.

Lemma fix_bad_default_for_number_type_body_ok (spec : dict) :
  fix_bad_default_for_number_type_body spec = Ok (with_numeric_default spec).
Proof.
  unfold fix_bad_default_for_number_type_body, with_numeric_default.
  destruct (in_strs (get_or_none "format" spec) fix_formats); simpl;
    [|reflexivity].
  destruct (get_or_none "default" spec); try reflexivity.
  destruct (isdigit s); reflexivity.
Qed.

Lemma for_each_param_spec_pure (body : dict -> result dict) (g : dict -> dict)
  (operation : Operation) :
  (forall spec, body spec = Ok (g spec)) ->
  for_each_param_spec body operation =
  Ok (set_params operation
        (map (fun kp => (fst kp, set_param_spec (snd kp) (g (param_spec (snd kp)))))
             (params operation))).
Proof.
  intros H. unfold for_each_param_spec.
  rewrite (mapM_pure _
             (fun kp => (fst kp, set_param_spec (snd kp) (g (param_spec (snd kp)))))).
  - reflexivity.
  - intros kp _. rewrite H. reflexivity.
Qed.

Lemma _fix_common_spec_issues_repaired (operation : Operation) :
  _fix_common_spec_issues operation =
  Ok (set_params operation (map with_repaired_spec (params operation))).
Proof.
  unfold _fix_common_spec_issues, _fix_string_format,
    _fix_string_with_invalid_format, _fix_bad_default_for_number_type.
  rewrite (for_each_param_spec_pure _ _ _ fix_string_format_body_ok). simpl.
  rewrite (for_each_param_spec_pure _ _ _ fix_string_with_invalid_format_body_ok).
  simpl.
  rewrite (for_each_param_spec_pure _ _ _ fix_bad_default_for_number_type_body_ok).
  simpl. rewrite !map_map. reflexivity.
Qed.

(** A repair that did its work has nothing left to do. *)
Lemma without_string_format_done (spec : dict) :
  (eq_str (get_or_none "format" (without_string_format spec)) "string"
   && eq_str (get_or_none "type" (without_string_format spec)) "string")%bool
  = false.
Proof.
  unfold without_string_format.
  destruct (eq_str (get_or_none "format" spec) "string"
            && eq_str (get_or_none "type" spec) "string")%bool eqn:E.
  - rewrite get_or_none_del_same. reflexivity.
  - exact E.
Qed.

Lemma without_invalid_format_done (spec : dict) :
  (in_strs (get_or_none "format" (without_invalid_format spec)) invalid_formats
   && eq_str (get_or_none "type" (without_invalid_format spec)) "string")%bool
  = false.
Proof.
  unfold without_invalid_format.
  destruct (in_strs (get_or_none "format" spec) invalid_formats
            && eq_str (get_or_none "type" spec) "string")%bool eqn:E.
  - rewrite get_or_none_del_same. reflexivity.
  - exact E.
Qed.

(** The later repairs do not bring back what an earlier one removed. *)
Lemma without_invalid_format_keeps (spec : dict) :
  (eq_str (get_or_none "format" spec) "string"
   && eq_str (get_or_none "type" spec) "string")%bool = false ->
  (eq_str (get_or_none "format" (without_invalid_format spec)) "string"
   && eq_str (get_or_none "type" (without_invalid_format spec)) "string")%bool
  = false.
Proof.
  intros H. unfold without_invalid_format.
  destruct (in_strs (get_or_none "format" spec) invalid_formats
            && eq_str (get_or_none "type" spec) "string")%bool.
  - rewrite get_or_none_del_same. reflexivity.
  - exact H.
Qed.

Lemma with_numeric_default_format (spec : dict) :
  get_or_none "format" (with_numeric_default spec) = get_or_none "format" spec.
Proof.
  unfold with_numeric_default.
  destruct (in_strs (get_or_none "format" spec) fix_formats); [|reflexivity].
  destruct (get_or_none "default" spec); try reflexivity.
  destruct (isdigit s); [reflexivity|].
  apply get_or_none_set_other. reflexivity.
Qed.

Lemma with_numeric_default_type (spec : dict) :
  get_or_none "type" (with_numeric_default spec) = get_or_none "type" spec.
Proof.
  unfold with_numeric_default.
  destruct (in_strs (get_or_none "format" spec) fix_formats); [|reflexivity].
  destruct (get_or_none "default" spec); try reflexivity.
  destruct (isdigit s); [reflexivity|].
  apply get_or_none_set_other. reflexivity.
Qed.

Lemma with_numeric_default_idem (spec : dict) :
  with_numeric_default (with_numeric_default spec) = with_numeric_default spec.
Proof.
  assert (Hfix : forall s0 : dict,
             with_numeric_default s0 = s0 \/
             with_numeric_default s0 = dict_set "default" (VInt 0) s0 /\
             in_strs (get_or_none "format" s0) fix_formats = true).
  { intros s0. unfold with_numeric_default.
    destruct (in_strs (get_or_none "format" s0) fix_formats); [|left; reflexivity].
    destruct (get_or_none "default" s0); try (left; reflexivity).
    destruct (isdigit s); [left; reflexivity | right; split; reflexivity]. }
  destruct (Hfix spec) as [E | [E F]]; rewrite E.
  - exact E.
  - unfold with_numeric_default.
    rewrite get_or_none_set_other by reflexivity. rewrite F.
    rewrite get_or_none_set_same. reflexivity.
Qed.

Lemma without_string_format_fixed (spec : dict) :
  (eq_str (get_or_none "format" spec) "string"
   && eq_str (get_or_none "type" spec) "string")%bool = false ->
  without_string_format spec = spec.
Proof. intros H. unfold without_string_format. rewrite H. reflexivity. Qed.

Lemma without_invalid_format_fixed (spec : dict) :
  (in_strs (get_or_none "format" spec) invalid_formats
   && eq_str (get_or_none "type" spec) "string")%bool = false ->
  without_invalid_format spec = spec.
Proof. intros H. unfold without_invalid_format. rewrite H. reflexivity. Qed.

Lemma repaired_idem (spec : dict) : repaired (repaired spec) = repaired spec.
Proof.
  unfold repaired.
  set (s1 := without_string_format spec).
  set (s2 := without_invalid_format s1).
  rewrite (without_string_format_fixed (with_numeric_default s2)).
  - rewrite (without_invalid_format_fixed (with_numeric_default s2)).
    + apply with_numeric_default_idem.
    + rewrite with_numeric_default_format, with_numeric_default_type.
      apply without_invalid_format_done.
  - rewrite with_numeric_default_format, with_numeric_default_type.
    apply without_invalid_format_keeps. apply without_string_format_done.
Qed.

Lemma with_repaired_spec_idem (kp : string * Param) :
  with_repaired_spec (with_repaired_spec kp) = with_repaired_spec kp.
Proof.
  unfold with_repaired_spec, set_param_spec. simpl.
  rewrite repaired_idem. reflexivity.
Qed.

(** What the three repairs together do to the entries of a mapping. *)
Lemma formats_dropped (spec : dict) :
  without_invalid_format (without_string_format spec) =
  if (eq_str (get_or_none "type" spec) "string"
      && (eq_str (get_or_none "format" spec) "string"
          || in_strs (get_or_none "format" spec) invalid_formats))%bool
  then dict_del "format" spec
  else spec.
Proof.
  unfold without_string_format.
  destruct (eq_str (get_or_none "type" spec) "string") eqn:T;
    destruct (eq_str (get_or_none "format" spec) "string") eqn:F;
    cbn [andb orb].
  - unfold without_invalid_format. rewrite get_or_none_del_same. reflexivity.
  - unfold without_invalid_format. rewrite T, andb_true_r.
    destruct (in_strs (get_or_none "format" spec) invalid_formats);
      reflexivity.
  - unfold without_invalid_format. rewrite T, andb_false_r. reflexivity.
  - unfold without_invalid_format. rewrite T, andb_false_r. reflexivity.
Qed.

Lemma fix_formats_are_invalid (v : value) :
  in_strs v fix_formats = true -> in_strs v invalid_formats = true.
Proof.
  unfold in_strs, fix_formats, invalid_formats. cbn [existsb].
  destruct (eq_str v "double"), (eq_str v "float"), (eq_str v "int32"),
    (eq_str v "int64"); cbn [orb]; intros H; try reflexivity;
    try discriminate; rewrite ?orb_true_r; reflexivity.
Qed.

Lemma with_numeric_default_other (spec : dict) (k : string) :
  String.eqb k "default" = false ->
  dict_get k (with_numeric_default spec) = dict_get k spec.
Proof.
  intros Hk. unfold with_numeric_default.
  destruct (in_strs (get_or_none "format" spec) fix_formats); [|reflexivity].
  destruct (get_or_none "default" spec); try reflexivity.
  destruct (isdigit s); [reflexivity|].
  apply dict_get_set_other. exact Hk.
Qed.

Lemma repaired_other_keys (spec : dict) (k : string) :
  String.eqb k "format" = false -> String.eqb k "default" = false ->
  dict_get k (repaired spec) = dict_get k spec.
Proof.
  intros Hf Hd. unfold repaired.
  rewrite (with_numeric_default_other _ _ Hd), formats_dropped.
  destruct (eq_str (get_or_none "type" spec) "string"
            && (eq_str (get_or_none "format" spec) "string"
                || in_strs (get_or_none "format" spec) invalid_formats))%bool.
  - apply dict_get_del_other. exact Hf.
  - reflexivity.
Qed.

Lemma repaired_format (spec : dict) :
  dict_get "format" (repaired spec) =
  if (eq_str (get_or_none "type" spec) "string"
      && (eq_str (get_or_none "format" spec) "string"
          || in_strs (get_or_none "format" spec) invalid_formats))%bool
  then None
  else dict_get "format" spec.
Proof.
  unfold repaired.
  rewrite (with_numeric_default_other _ "format" eq_refl), formats_dropped.
  destruct (eq_str (get_or_none "type" spec) "string"
            && (eq_str (get_or_none "format" spec) "string"
                || in_strs (get_or_none "format" spec) invalid_formats))%bool.
  - apply dict_get_del_same.
  - reflexivity.
Qed.

Lemma repaired_default (spec : dict) :
  get_or_none "default" (repaired spec) =
  match get_or_none "default" spec with
  | VStr s =>
      if (in_strs (get_or_none "format" spec) fix_formats
          && negb (eq_str (get_or_none "type" spec) "string")
          && negb (isdigit s))%bool
      then VInt 0
      else VStr s
  | v => v
  end.
Proof.
  unfold repaired. rewrite formats_dropped.
  destruct (eq_str (get_or_none "type" spec) "string") eqn:T; cbn [andb negb].
  - rewrite andb_false_r. cbn [andb].
    assert (Hnone : forall s0 : dict,
               in_strs (get_or_none "format" s0) fix_formats = false ->
               with_numeric_default s0 = s0).
    { intros s0 H. unfold with_numeric_default. rewrite H. reflexivity. }
    destruct (eq_str (get_or_none "format" spec) "string"
              || in_strs (get_or_none "format" spec) invalid_formats)%bool
      eqn:E.
    + rewrite Hnone.
      * rewrite get_or_none_del_other by reflexivity.
        destruct (get_or_none "default" spec); reflexivity.
      * rewrite get_or_none_del_same. reflexivity.
    + rewrite Hnone.
      * destruct (get_or_none "default" spec); reflexivity.
      * apply orb_false_iff in E. destruct E as [_ E].
        destruct (in_strs (get_or_none "format" spec) fix_formats) eqn:Fx;
          [|reflexivity].
        rewrite (fix_formats_are_invalid _ Fx) in E. discriminate.
  - rewrite andb_true_r. unfold with_numeric_default.
    destruct (in_strs (get_or_none "format" spec) fix_formats).
    + destruct (get_or_none "default" spec) eqn:D; rewrite ?D; try reflexivity.
      cbn [andb]. destruct (isdigit s); cbn [negb].
      * exact D.
      * apply get_or_none_set_same.
    + destruct (get_or_none "default" spec); reflexivity.
Qed.

(** C9. The repair pass of [_fix_common_spec_issues] never raises: it
    returns the operation with the spec of every parameter repaired.
    Running it on the operation it returned returns that operation again:
    applying the repairs twice is the same as applying them once. *)
Theorem fix_common_spec_issues_idempotent (operation : Operation) :
  exists once,
    _fix_common_spec_issues operation = Ok once /\
    once = set_params operation (map with_repaired_spec (params operation)) /\
    _fix_common_spec_issues once = Ok once.
Proof.
  exists (set_params operation (map with_repaired_spec (params operation))).
  split; [|split].
  - apply _fix_common_spec_issues_repaired.
  - reflexivity.
  - rewrite _fix_common_spec_issues_repaired. unfold set_params. simpl.
    rewrite map_map.
    rewrite (map_ext _ with_repaired_spec with_repaired_spec_idem).
    reflexivity.
Qed.

End RepairFacts.

(** ** The synthesiser *)

Section SynthesisFacts.
Context {C : Collaborators}.

Lemma py_get_dict (d : dict) (k : string) :
  py_get (VDict d) k = Ok (get_or_none k d).
Proof. unfold py_get, get_or_none. destruct (dict_get k d); reflexivity. Qed.

Lemma py_in_present (d : dict) (k : string) (v : value) :
  dict_get k d = Some v -> py_in k (VDict d) = Ok true.
Proof. intros H. unfold py_in, dict_has. rewrite H. reflexivity. Qed.

Lemma py_in_absent (d : dict) (k : string) :
  dict_get k d = None -> py_in k (VDict d) = Ok false.
Proof. intros H. unfold py_in, dict_has. rewrite H. reflexivity. Qed.

Lemma py_getitem_present (d : dict) (k : string) (v : value) :
  dict_get k d = Some v -> py_getitem (VDict d) k = Ok v.
Proof. intros H. unfold py_getitem. rewrite H. reflexivity. Qed.

Lemma _get_parameter_type_format (d : dict) (f : value) :
  dict_get "format" d = Some f -> _get_parameter_type (VDict d) = Ok f.
Proof.
  intros H. unfold _get_parameter_type.
  rewrite (py_getitem_present _ _ _ H). reflexivity.
Qed.

Lemma _get_parameter_type_type (d : dict) (t : value) :
  dict_get "format" d = None -> dict_get "type" d = Some t ->
  _get_parameter_type (VDict d) = Ok t.
Proof.
  intros Hf Ht. unfold _get_parameter_type, py_getitem.
  rewrite Hf, Ht. reflexivity.
Qed.

Lemma _get_parameter_type_none (d : dict) :
  dict_get "format" d = None -> dict_get "type" d = None ->
  _get_parameter_type (VDict d) = Ok VNone.
Proof.
  intros Hf Ht. unfold _get_parameter_type, py_getitem.
  rewrite Hf, Ht. reflexivity.
Qed.


Lemma enum_step_absent (d : dict) :
  dict_get "enum" d = None -> enum_step (VDict d) = Ok None.
Proof.
  intros H. unfold enum_step. rewrite (py_in_absent _ _ H). reflexivity.
Qed.


(** Unfolding one level of the recursion. *)
Lemma _get_param_value_S (w : world) (fuel : nat) (param_spec : value) :
  _get_param_value w (S fuel) param_spec =
  (has_schema <- py_in "schema" param_spec ;;
   param_spec <- (if has_schema then py_getitem param_spec "schema"
                  else Ok param_spec) ;;
   v <- _get_param_value_for_primitive w (_get_param_value w fuel) param_spec ;;
   if negb (is_none v) then Ok v
   else
     v <- _get_param_value_for_model (_get_param_value w fuel) fuel param_spec ;;
     if negb (is_none v) then Ok v
     else Ok (VInt 42)).
Proof. reflexivity. Qed.

Lemma _get_param_value_no_schema (w : world) (fuel : nat) (d : dict) :
  dict_get "schema" d = None ->
  _get_param_value w (S fuel) (VDict d) =
  (v <- _get_param_value_for_primitive w (_get_param_value w fuel) (VDict d) ;;
   if negb (is_none v) then Ok v
   else
     v <- _get_param_value_for_model (_get_param_value w fuel) fuel (VDict d) ;;
     if negb (is_none v) then Ok v
     else Ok (VInt 42)).
Proof.
  intros H. rewrite _get_param_value_S.
  rewrite (py_in_absent _ _ H). reflexivity.
Qed.


(** C10. When [format] is present, [_get_parameter_type] answers it and
    never looks at [type]: setting [type] to anything changes neither the
    classification nor what the type-and-spec step returns for it.  So
    [{type: array, format: int32}] is synthesised as the 42 of the value
    table, not as a sequence. *)
Theorem format_overrides_type :
  (forall (d : dict) (f : value),
      dict_get "format" d = Some f -> _get_parameter_type (VDict d) = Ok f) /\
  (forall (d : dict) (f t : value),
      dict_get "format" d = Some f ->
      _get_parameter_type (VDict (dict_set "type" t d)) = Ok f) /\
  (forall (w : world) (parameter_type : value) (d : dict) (t : value),
      _get_param_value_for_type_and_spec w parameter_type
        (VDict (dict_set "type" t d)) =
      _get_param_value_for_type_and_spec w parameter_type (VDict d)) /\
  (forall (w : world) (fuel : nat),
      _get_param_value w (S fuel)
        (VDict [("type", VStr "array"); ("format", VStr "int32")]) =
      Ok (VInt 42)).
Proof.
  split; [|split; [|split]].
  - exact _get_parameter_type_format.
  - intros d f t H. apply _get_parameter_type_format.
    rewrite dict_get_set_other by reflexivity. exact H.
  - intros w pt d t.
    unfold _get_param_value_for_type_and_spec, enum_step, range_step.
    rewrite !py_get_dict. unfold py_in, py_getitem, dict_has, get_or_none.
    rewrite !dict_get_set_other by reflexivity. reflexivity.
  - intros w fuel. reflexivity.
Qed.


(** Whatever the recursive call does, [_create_object] answers a dict and
    so does [_get_param_value_for_model]: its [NotImplementedError] and the
    last line of [_get_param_value] are never reached. *)
Lemma _create_object_dict (get_param_value : value -> result value)
  (param_spec v : value) :
  _create_object get_param_value param_spec = Ok v -> exists o, v = VDict o.
Proof.
  unfold _create_object. intros H.
  apply bind_Ok in H. destruct H as [type [_ H]].
  destruct (negb (eq_str type "object")).
  - injection H as <-. eexists. reflexivity.
  - apply bind_Ok in H. destruct H as [properties [_ H]].
    apply bind_Ok in H. destruct H as [kvs [_ H]].
    apply bind_Ok in H. destruct H as [created [_ H]].
    injection H as <-. eexists. reflexivity.
Qed.

Lemma _get_param_value_for_model_dict (get_param_value : value -> result value)
  (fuel : nat) (param_spec v : value) :
  _get_param_value_for_model get_param_value fuel param_spec = Ok v ->
  exists o, v = VDict o.
Proof.
  unfold _get_param_value_for_model. intros H.
  apply bind_Ok in H. destruct H as [definition [_ H]].
  apply bind_Ok in H. destruct H as [created [Hc H]].
  apply _create_object_dict in Hc. destruct Hc as [o ->].
  simpl in H. injection H as <-. exists o. reflexivity.
Qed.

Lemma _get_param_value_for_primitive_value (w : world)
  (get_param_value : value -> result value) (param_spec v : value) :
  _get_param_value_for_primitive w get_param_value param_spec = Ok v ->
  is_none v = false ->
  exists parameter_type,
    _get_parameter_type param_spec = Ok parameter_type /\
    is_none parameter_type = false.
Proof.
  unfold _get_param_value_for_primitive. intros H Hv.
  apply bind_Ok in H. destruct H as [pt [Hpt H]].
  exists pt. split; [exact Hpt|].
  destruct (is_none pt); [|reflexivity].
  injection H as <-. discriminate.
Qed.

Lemma _get_param_value_not_none (w : world) (fuel : nat) (param_spec v : value) :
  _get_param_value w fuel param_spec = Ok v -> is_none v = false.
Proof.
  destruct fuel as [|fuel]; [discriminate|].
  rewrite _get_param_value_S. intros H.
  apply bind_Ok in H. destruct H as [has_schema [_ H]].
  apply bind_Ok in H. destruct H as [spec [_ H]].
  apply bind_Ok in H. destruct H as [v1 [_ H]].
  destruct (is_none v1) eqn:E1; simpl in H.
  - apply bind_Ok in H. destruct H as [v2 [Hm H]].
    apply _get_param_value_for_model_dict in Hm. destruct Hm as [o ->].
    simpl in H. injection H as <-. reflexivity.
  - injection H as <-. exact E1.
Qed.

(** The type-and-spec step has nothing to say about an array. *)
Lemma type_and_spec_array (w : world) (d : dict) :
  enum_step (VDict d) = Ok None ->
  _get_param_value_for_type_and_spec w (VStr "array") (VDict d) = Ok VNone.
Proof.
  intros H. unfold _get_param_value_for_type_and_spec.
  rewrite py_get_dict. cbn [bind]. rewrite H. reflexivity.
Qed.

Lemma _get_param_value_for_array_list
  (get_param_value : value -> result value) (param_spec v : value) :
  _get_param_value_for_array get_param_value param_spec = Ok v ->
  v = VNone \/ exists l, v = VList l /\ (List.length l <= 1)%nat.
Proof.
  unfold _get_param_value_for_array. intros H.
  apply bind_Ok in H. destruct H as [type [_ H]].
  destruct (negb (eq_str type "array")).
  { injection H as <-. left. reflexivity. }
  apply bind_Ok in H. destruct H as [items [_ H]].
  destruct (is_none items).
  { injection H as <-. right. exists []. split; [reflexivity | simpl; lia]. }
  apply bind_Ok in H. destruct H as [has_default [_ H]].
  destruct has_default.
  { apply bind_Ok in H. destruct H as [dv [_ H]]. injection H as <-.
    right. exists [dv]. split; [reflexivity | simpl; lia]. }
  apply bind_Ok in H. destruct H as [item [_ H]].
  destruct (negb (is_none item)); injection H as <-; right.
  - exists [item]. split; [reflexivity | simpl; lia].
  - exists []. split; [reflexivity | simpl; lia].
Qed.

Lemma _get_param_value_for_array_typed
  (get_param_value : value -> result value) (d : dict) (v : value) :
  dict_get "type" d = Some (VStr "array") ->
  _get_param_value_for_array get_param_value (VDict d) = Ok v ->
  exists l, v = VList l /\ (List.length l <= 1)%nat.
Proof.
  intros Ht Hv.
  destruct (_get_param_value_for_array_list _ _ _ Hv) as [-> | H];
    [|exact H].
  unfold _get_param_value_for_array in Hv. rewrite !py_get_dict in Hv.
  unfold get_or_none in Hv. rewrite Ht in Hv.
  cbn [bind eq_str String.eqb Ascii.eqb Bool.eqb negb] in Hv.
  destruct (dict_get "items" d) as [items|]; [|discriminate].
  destruct (is_none items); [discriminate|].
  apply bind_Ok in Hv. destruct Hv as [hd [_ Hv]].
  destruct hd.
  - apply bind_Ok in Hv. destruct Hv as [dv [_ Hv]]. discriminate.
  - apply bind_Ok in Hv. destruct Hv as [item [_ Hv]].
    destruct (negb (is_none item)); discriminate.
Qed.

Lemma _get_param_value_array (w : world) (fuel : nat) (d : dict) :
  dict_get "schema" d = None ->
  dict_get "format" d = None ->
  dict_get "type" d = Some (VStr "array") ->
  enum_step (VDict d) = Ok None ->
  _get_param_value w (S fuel) (VDict d) =
  _get_param_value_for_array (_get_param_value w fuel) (VDict d).
Proof.
  intros Hs Hf Ht He.
  rewrite (_get_param_value_no_schema _ _ _ Hs).
  unfold _get_param_value_for_primitive.
  rewrite (_get_parameter_type_type _ _ Hf Ht). cbn [bind is_none].
  rewrite (type_and_spec_array _ _ He). cbn [bind is_none negb].
  destruct (_get_param_value_for_array (_get_param_value w fuel) (VDict d))
    as [v|e] eqn:E; [|reflexivity].
  cbn [bind].
  destruct (_get_param_value_for_array_typed _ _ _ Ht E) as [l [-> _]].
  reflexivity.
Qed.

(** C4. For a spec of type array, [_get_param_value_for_array] answers the
    empty sequence when [items] is absent, the one-element sequence of the
    default that [items] declares, and otherwise the one-element sequence
    of the value synthesised for [items]; its answer never has more than
    one element.  The whole synthesis goes through this function for a spec
    that is classified as an array, and gives the three array laws. *)
Theorem array_value_laws :
  (forall (get_param_value : value -> result value) (d : dict),
      dict_get "type" d = Some (VStr "array") ->
      (get_or_none "items" d = VNone ->
       _get_param_value_for_array get_param_value (VDict d) = Ok (VList [])) /\
      (forall (items : dict) (dv : value),
          dict_get "items" d = Some (VDict items) ->
          dict_get "default" items = Some dv ->
          _get_param_value_for_array get_param_value (VDict d) =
          Ok (VList [dv])) /\
      (forall (items : dict) (v : value),
          dict_get "items" d = Some (VDict items) ->
          dict_get "default" items = None ->
          get_param_value (VDict items) = Ok v ->
          v <> VNone ->
          _get_param_value_for_array get_param_value (VDict d) =
          Ok (VList [v])) /\
      (forall v : value,
          _get_param_value_for_array get_param_value (VDict d) = Ok v ->
          exists l, v = VList l /\ (List.length l <= 1)%nat)) /\
  (forall (w : world) (fuel : nat) (d : dict),
      dict_get "schema" d = None ->
      dict_get "format" d = None ->
      dict_get "type" d = Some (VStr "array") ->
      enum_step (VDict d) = Ok None ->
      _get_param_value w (S fuel) (VDict d) =
      _get_param_value_for_array (_get_param_value w fuel) (VDict d) /\
      (forall (items : dict) (v : value),
          dict_get "items" d = Some (VDict items) ->
          dict_get "default" items = None ->
          _get_param_value w fuel (VDict items) = Ok v ->
          _get_param_value w (S fuel) (VDict d) = Ok (VList [v]))) /\
  (forall (w : world) (fuel : nat),
      _get_param_value w (S fuel)
        (VDict [("type", VStr "array");
                ("items", VDict [("type", VStr "string");
                                 ("default", VStr "x")])]) =
      Ok (VList [VStr "x"]) /\
      _get_param_value w (S fuel) (VDict [("type", VStr "array")]) =
      Ok (VList []) /\
      _get_param_value w (S (S fuel))
        (VDict [("type", VStr "array");
                ("items", VDict [("type", VStr "integer")])]) =
      Ok (VList [VInt 42])).
Proof.
  assert (Hitem : forall (get_param_value : value -> result value) (d items : dict)
                         (v : value),
             dict_get "type" d = Some (VStr "array") ->
             dict_get "items" d = Some (VDict items) ->
             dict_get "default" items = None ->
             get_param_value (VDict items) = Ok v ->
             is_none v = false ->
             _get_param_value_for_array get_param_value (VDict d) =
             Ok (VList [v])).
  { intros rec d items v Ht Hi Hd Hv Hn.
    unfold _get_param_value_for_array. rewrite !py_get_dict.
    unfold get_or_none. rewrite Ht, Hi.
    cbn [bind eq_str String.eqb Ascii.eqb Bool.eqb negb is_none].
    rewrite (py_in_absent _ _ Hd). cbn [bind].
    rewrite Hv. cbn [bind]. rewrite Hn. reflexivity. }
  split; [|split].
  - intros rec d Ht. split; [|split; [|split]].
    + intros Hi. unfold _get_param_value_for_array. rewrite !py_get_dict.
      rewrite Hi. unfold get_or_none. rewrite Ht. reflexivity.
    + intros items dv Hi Hd.
      unfold _get_param_value_for_array. rewrite !py_get_dict.
      unfold get_or_none. rewrite Ht, Hi.
      cbn [bind eq_str String.eqb Ascii.eqb Bool.eqb negb is_none].
      rewrite (py_in_present _ _ _ Hd). cbn [bind].
      rewrite (py_getitem_present _ _ _ Hd). reflexivity.
    + intros items v Hi Hd Hv Hn. apply (Hitem rec d items v); try assumption.
      destruct v; try reflexivity. contradiction.
    + intros v Hv. exact (_get_param_value_for_array_typed _ _ _ Ht Hv).
  - intros w fuel d Hs Hf Ht He. split.
    + apply _get_param_value_array; assumption.
    + intros items v Hi Hd Hv.
      rewrite (_get_param_value_array _ _ _ Hs Hf Ht He).
      apply (Hitem _ d items v); try assumption.
      exact (_get_param_value_not_none _ _ _ _ Hv).
  - intros w fuel. split; [|split]; reflexivity.
Qed.

(** C2. The spec says that a spec without type, format or properties is
    given 42.  The code never gets to its [return 42]: an empty spec, bare
    or inside a [schema] wrapper, is given the empty dict, because
    [_get_param_value_for_model] never answers [None]. *)
Theorem untyped_spec_gets_empty_dict :
  (forall (w : world) (fuel : nat),
      _get_param_value w (S (S fuel)) (VDict []) = Ok (VDict [])) /\
  (forall (w : world) (fuel : nat),
      _get_param_value w (S (S fuel))
        (VDict [("name", VStr "body"); ("in", VStr "body");
                ("schema", VDict [])]) =
      Ok (VDict [])) /\
  (forall (get_param_value : value -> result value) (fuel : nat)
          (param_spec : value),
      match _get_param_value_for_model get_param_value fuel param_spec with
      | Ok v => is_none v = false
      | Raise _ => True
      end).
Proof.
  split; [|split].
  - intros w fuel. reflexivity.
  - intros w fuel. reflexivity.
  - intros rec fuel spec.
    destruct (_get_param_value_for_model rec fuel spec) as [v|e] eqn:H;
      [|exact I].
    apply _get_param_value_for_model_dict in H. destruct H as [o ->].
    reflexivity.
Qed.

(** *** The generator *)

Lemma foldM_ext {A B : Type} (f g : B -> A -> result B) (xs : list A) :
  (forall acc x, f acc x = g acc x) ->
  forall acc, foldM f xs acc = foldM g xs acc.
Proof.
  intros H. induction xs as [|x xs IH]; intros acc; simpl.
  - reflexivity.
  - rewrite H. destruct (g acc x); simpl; [apply IH | reflexivity].
Qed.

Ltac same_steps :=
  repeat match goal with
         | |- bind ?m _ = bind ?m _ =>
             destruct m; cbn [bind]; [|reflexivity]
         | |- (if ?b then _ else _) = (if ?b then _ else _) => destruct b
         | |- Ok _ = Ok _ => reflexivity
         | |- Raise _ = Raise _ => reflexivity
         end.

Lemma range_step_world (w1 w2 : world) (parameter_type parameter_spec : value) :
  (forall (r1 r2 : rng) (a : Z), seed r1 a = seed r2 a) ->
  range_step w1 parameter_type parameter_spec =
  range_step w2 parameter_type parameter_spec.
Proof.
  intros Hseed. unfold range_step.
  rewrite (Hseed (Random w1) (Random w2) 1). reflexivity.
Qed.

Lemma type_and_spec_world (w1 w2 : world) (parameter_type parameter_spec : value) :
  (forall (r1 r2 : rng) (a : Z), seed r1 a = seed r2 a) ->
  _get_param_value_for_type_and_spec w1 parameter_type parameter_spec =
  _get_param_value_for_type_and_spec w2 parameter_type parameter_spec.
Proof.
  intros Hseed. unfold _get_param_value_for_type_and_spec.
  rewrite (range_step_world w1 w2 _ _ Hseed). reflexivity.
Qed.

Lemma _get_param_value_for_array_ext (f g : value -> result value)
  (param_spec : value) :
  (forall s, f s = g s) ->
  _get_param_value_for_array f param_spec =
  _get_param_value_for_array g param_spec.
Proof.
  intros H. unfold _get_param_value_for_array.
  same_steps. rewrite H. reflexivity.
Qed.

Lemma _create_object_ext (f g : value -> result value) (param_spec : value) :
  (forall s, f s = g s) ->
  _create_object f param_spec = _create_object g param_spec.
Proof.
  intros H. unfold _create_object. same_steps.
  erewrite foldM_ext; [reflexivity|].
  intros acc kv. cbn beta. same_steps. rewrite H. reflexivity.
Qed.

Lemma _get_param_value_for_model_ext (f g : value -> result value)
  (fuel : nat) (param_spec : value) :
  (forall s, f s = g s) ->
  _get_param_value_for_model f fuel param_spec =
  _get_param_value_for_model g fuel param_spec.
Proof.
  intros H. unfold _get_param_value_for_model. same_steps.
  rewrite (_create_object_ext f g _ H). reflexivity.
Qed.

Lemma _get_param_value_for_primitive_world (w1 w2 : world)
  (f g : value -> result value) (param_spec : value) :
  (forall (r1 r2 : rng) (a : Z), seed r1 a = seed r2 a) ->
  (forall s, f s = g s) ->
  _get_param_value_for_primitive w1 f param_spec =
  _get_param_value_for_primitive w2 g param_spec.
Proof.
  intros Hseed H. unfold _get_param_value_for_primitive.
  same_steps.
  rewrite (type_and_spec_world w1 w2 _ _ Hseed).
  same_steps.
  rewrite (_get_param_value_for_array_ext f g _ H). reflexivity.
Qed.

Lemma _get_param_value_world (w1 w2 : world) :
  (forall (r1 r2 : rng) (a : Z), seed r1 a = seed r2 a) ->
  forall (fuel : nat) (param_spec : value),
    _get_param_value w1 fuel param_spec = _get_param_value w2 fuel param_spec.
Proof.
  intros Hseed. induction fuel as [|fuel IH]; intros param_spec.
  - reflexivity.
  - rewrite !_get_param_value_S. same_steps.
    rewrite (_get_param_value_for_primitive_world w1 w2 _ _ _ Hseed IH).
    same_steps.
    rewrite (_get_param_value_for_model_ext _ _ _ _ IH). reflexivity.
Qed.

Lemma range_step_numeric (w : world) (parameter_type : value) (d : dict) :
  in_strs parameter_type numeric_types = true ->
  range_step w parameter_type (VDict d) =
  if (negb (is_none (get_or_none "maximum" d))
      || negb (is_none (get_or_none "minimum" d)))%bool
  then
    n <- randint (seed (Random w) 1)
           (if is_none (get_or_none "minimum" d) then VInt 0
            else get_or_none "minimum" d)
           (if is_none (get_or_none "maximum" d) then VInt 56
            else get_or_none "maximum" d) ;;
    Ok (Some n)
  else Ok None.
Proof.
  intros Hnum. unfold range_step. rewrite Hnum.
  unfold py_in, py_getitem, dict_has, get_or_none.
  destruct (dict_get "maximum" d) as [mx|];
    destruct (dict_get "minimum" d) as [mn|]; cbn [bind];
    try destruct (is_none mx); try destruct (is_none mn); reflexivity.
Qed.

Lemma type_and_spec_ranged (w : world) (parameter_type : value) (d : dict) :
  in_strs parameter_type numeric_types = true ->
  enum_step (VDict d) = Ok None ->
  get_or_none "maximum" d <> VNone \/ get_or_none "minimum" d <> VNone ->
  _get_param_value_for_type_and_spec w parameter_type (VDict d) =
  randint (seed (Random w) 1)
    (if is_none (get_or_none "minimum" d) then VInt 0
     else get_or_none "minimum" d)
    (if is_none (get_or_none "maximum" d) then VInt 56
     else get_or_none "maximum" d).
Proof.
  intros Hnum Henum Hbound.
  unfold _get_param_value_for_type_and_spec.
  rewrite py_get_dict. cbn [bind]. rewrite Henum. cbn [bind].
  rewrite (range_step_numeric w _ _ Hnum).
  assert (Hb : (negb (is_none (get_or_none "maximum" d))
                || negb (is_none (get_or_none "minimum" d)))%bool = true).
  { destruct Hbound as [H | H].
    - destruct (get_or_none "maximum" d); try reflexivity. contradiction.
    - destruct (get_or_none "minimum" d); try (apply orb_true_r).
      contradiction. }
  rewrite Hb.
  destruct (randint _ _ _); reflexivity.
Qed.

(** C7. Synthesis does not depend on the entropy the generator starts
    from: seeding resets the generator, so two runs on the same spec give
    the same value (or raise the same exception) whatever the environment.
    On the ranged numeric path the answer is the first [randint] of a
    generator seeded with 1, between [minimum], or 0, and [maximum], or 56;
    a generator that draws within its bounds gives a value within them. *)
Theorem synthesis_is_deterministic :
  (forall (r1 r2 : rng) (a : Z), seed r1 a = seed r2 a) ->
  (forall (w1 w2 : world) (fuel : nat) (param_spec : value),
      _get_param_value w1 fuel param_spec =
      _get_param_value w2 fuel param_spec) /\
  (forall (w : world) (parameter_type : value) (d : dict),
      in_strs parameter_type numeric_types = true ->
      enum_step (VDict d) = Ok None ->
      get_or_none "maximum" d <> VNone \/ get_or_none "minimum" d <> VNone ->
      _get_param_value_for_type_and_spec w parameter_type (VDict d) =
      randint (seed (Random w) 1)
        (if is_none (get_or_none "minimum" d) then VInt 0
         else get_or_none "minimum" d)
        (if is_none (get_or_none "maximum" d) then VInt 56
         else get_or_none "maximum" d)) /\
  ((forall (r : rng) (lo hi : Z) (v : value),
       randint r (VInt lo) (VInt hi) = Ok v ->
       exists n, v = VInt n /\ lo <= n <= hi) ->
   forall (w : world) (parameter_type : value) (d : dict) (lo hi : Z)
          (v : value),
     in_strs parameter_type numeric_types = true ->
     enum_step (VDict d) = Ok None ->
     dict_get "minimum" d = Some (VInt lo) ->
     dict_get "maximum" d = Some (VInt hi) ->
     _get_param_value_for_type_and_spec w parameter_type (VDict d) = Ok v ->
     exists n, v = VInt n /\ lo <= n <= hi).
Proof.
  intros Hseed. split; [|split].
  - intros w1 w2. exact (_get_param_value_world w1 w2 Hseed).
  - exact type_and_spec_ranged.
  - intros Hrange w pt d lo hi v Hnum Henum Hmin Hmax Hv.
    rewrite (type_and_spec_ranged w pt d Hnum Henum) in Hv.
    + unfold get_or_none in Hv. rewrite Hmin, Hmax in Hv. simpl in Hv.
      exact (Hrange _ _ _ _ Hv).
    + left. unfold get_or_none. rewrite Hmax. discriminate.
Qed.

End SynthesisFacts.

(** ** Merging the parts of an allOf *)

Lemma dict_get_app {V : Type} (k : string) (a b : list (string * V)) :
  dict_get k (a ++ b)%list =
  match dict_get k a with
  | Some v => Some v
  | None => dict_get k b
  end.
Proof.
  induction a as [|[k' v'] a IH]; simpl.
  - reflexivity.
  - destruct (String.eqb k k'); [reflexivity | exact IH].
Qed.

Lemma dict_get_set {V : Type} (k k' : string) (v : V) (d : list (string * V)) :
  dict_get k (dict_set k' v d) =
  if String.eqb k k' then Some v else dict_get k d.
Proof.
  destruct (String.eqb k k') eqn:E.
  - apply String.eqb_eq in E. subst k'. apply dict_get_set_same.
  - apply dict_get_set_other. exact E.
Qed.

Lemma dict_get_fold_set (k : string) (kvs acc : dict) :
  dict_get k (fold_left (fun acc kv => dict_set (fst kv) (snd kv) acc) kvs acc) =
  match dict_get k (rev kvs) with
  | Some v => Some v
  | None => dict_get k acc
  end.
Proof.
  revert acc. induction kvs as [|[k1 v1] kvs IH]; intros acc; simpl.
  - reflexivity.
  - rewrite IH. rewrite dict_get_app. simpl.
    destruct (dict_get k (rev kvs)); [reflexivity|].
    rewrite dict_get_set. destruct (String.eqb k k1); reflexivity.
Qed.

Lemma fold_set_app (a b acc : dict) :
  fold_left (fun acc kv => dict_set (fst kv) (snd kv) acc) (a ++ b)%list acc =
  fold_left (fun acc kv => dict_set (fst kv) (snd kv) acc) b
    (fold_left (fun acc kv => dict_set (fst kv) (snd kv) acc) a acc).
Proof. apply fold_left_app. Qed.

Section MergeFacts.
Variable get_object_definition_impl : value -> result value.

Lemma merge_part_schema_object (merged : list value * dict) (part : value)
  (definition : dict) :
  get_object_definition_impl part = Ok (VDict definition) ->
  schema_object definition ->
  merge_part get_object_definition_impl merged part =
  Ok ((fst merged ++ required_of definition)%list,
      fold_left (fun acc kv => dict_set (fst kv) (snd kv) acc)
        (properties_of definition) (snd merged)).
Proof.
  intros Himpl [Hreq Hprop]. unfold merge_part. rewrite Himpl. cbn [bind].
  unfold required_of, properties_of, py_in, py_getitem, dict_has.
  destruct (dict_get "required" definition) as [r|] eqn:Er.
  - destruct (Hreq r eq_refl) as [l ->]. cbn [bind py_iter].
    destruct (dict_get "properties" definition) as [p|] eqn:Ep.
    + destruct (Hprop p eq_refl) as [props ->]. reflexivity.
    + cbn [bind]. reflexivity.
  - cbn [bind]. rewrite app_nil_r.
    destruct (dict_get "properties" definition) as [p|] eqn:Ep.
    + destruct (Hprop p eq_refl) as [props ->]. reflexivity.
    + reflexivity.
Qed.

Lemma foldM_merge_part (parts : list value) (definitions : list dict) :
  Forall2 (fun part definition =>
             get_object_definition_impl part = Ok (VDict definition))
          parts definitions ->
  Forall schema_object definitions ->
  forall merged,
    foldM (merge_part get_object_definition_impl) parts merged =
    Ok ((fst merged ++ List.concat (map required_of definitions))%list,
        fold_left (fun acc kv => dict_set (fst kv) (snd kv) acc)
          (List.concat (map properties_of definitions)) (snd merged)).
Proof.
  induction 1 as [|part definition parts definitions Hpart _ IH];
    intros Hwf merged.
  - simpl. rewrite app_nil_r. destruct merged; reflexivity.
  - inversion Hwf as [|? ? Hd Hds]; subst. simpl.
    rewrite (merge_part_schema_object merged part definition Hpart Hd).
    cbn [bind]. rewrite (IH Hds). cbn [fst snd].
    rewrite app_assoc, fold_set_app. reflexivity.
Qed.

Lemma _merge_all_parts_schema_objects (parts : list value)
  (definitions : list dict) :
  Forall2 (fun part definition =>
             get_object_definition_impl part = Ok (VDict definition))
          parts definitions ->
  Forall schema_object definitions ->
  exists properties,
    _merge_all_parts get_object_definition_impl (VList parts) =
    Ok (VDict [("required", VList (List.concat (map required_of definitions)));
               ("properties", VDict properties);
               ("type", VStr "object")]) /\
    forall k, dict_get k properties = last_writer k definitions.
Proof.
  intros Hparts Hwf.
  exists (fold_left (fun acc kv => dict_set (fst kv) (snd kv) acc)
            (List.concat (map properties_of definitions)) []).
  split.
  - unfold _merge_all_parts. cbn [py_iter bind].
    rewrite (foldM_merge_part parts definitions Hparts Hwf). reflexivity.
  - intros k. rewrite dict_get_fold_set. unfold last_writer.
    destruct (dict_get k (rev (List.concat (map properties_of definitions))));
      reflexivity.
Qed.

End MergeFacts.

Section ResolutionFacts.
Context {C : Collaborators}.

(** C6. Resolving an [allOf] composite merges the resolved parts, in
    order, into one definition: its [required] is the concatenation of the
    [required] lists of the parts, its [properties] hold for every name the
    entry of the last part that has it, and its [type] is [object].  The
    two-part composite of the spec merges to [required == [a, b]] and
    [properties == {x: ...}]. *)
Theorem all_of_parts_are_merged :
  (forall (fuel : nat) (spec : dict) (parts : list value)
          (definitions : list dict),
      dict_get "$ref" spec = None ->
      dict_get "allOf" spec = Some (VList parts) ->
      Forall2 (fun part definition =>
                 _get_object_definition_impl fuel part = Ok (VDict definition))
              parts definitions ->
      Forall schema_object definitions ->
      exists properties,
        _get_object_definition_impl (S fuel) (VDict spec) =
        Ok (VDict [("required",
                    VList (List.concat (map required_of definitions)));
                   ("properties", VDict properties);
                   ("type", VStr "object")]) /\
        forall k, dict_get k properties = last_writer k definitions) /\
  (forall (fuel : nat) (x : value),
      _get_object_definition_impl (S (S fuel))
        (VDict [("allOf",
                 VList [VDict [("required", VList [VStr "a"])];
                        VDict [("required", VList [VStr "b"]);
                               ("properties", VDict [("x", x)])]])]) =
      Ok (VDict [("required", VList [VStr "a"; VStr "b"]);
                 ("properties", VDict [("x", x)]);
                 ("type", VStr "object")])).
Proof.
  split.
  - intros fuel spec parts definitions Href Hall Hparts Hwf.
    destruct (_merge_all_parts_schema_objects
                (_get_object_definition_impl fuel) parts definitions Hparts Hwf)
      as [properties [Hmerge Hlookup]].
    exists properties. split; [|exact Hlookup].
    cbn [_get_object_definition_impl].
    rewrite (py_in_absent _ _ Href). cbn [bind].
    rewrite (py_in_present _ _ _ Hall). cbn [bind].
    rewrite (py_getitem_present _ _ _ Hall). cbn [bind].
    rewrite Hmerge. reflexivity.
  - intros fuel x. reflexivity.
Qed.

End ResolutionFacts.

(** ** Keys, fills and copies *)

Lemma mapM_In {A B : Type} (f : A -> result B) (xs : list A) (ys : list B) :
  mapM f xs = Ok ys ->
  forall y, In y ys -> exists x, In x xs /\ f x = Ok y.
Proof.
  revert ys. induction xs as [|x xs IH]; intros ys H y Hy; simpl in H.
  - injection H as <-. contradiction.
  - apply bind_Ok in H. destruct H as [y0 [Hx H]].
    apply bind_Ok in H. destruct H as [ys0 [Hxs H]].
    injection H as <-. destruct Hy as [<- | Hy].
    + exists x. split; [left; reflexivity | exact Hx].
    + destruct (IH ys0 Hxs y Hy) as [x' [Hin Hf]].
      exists x'. split; [right; exact Hin | exact Hf].
Qed.


Lemma mapM_keys {A B : Type} (f : string * A -> result (string * B))
  (xs : list (string * A)) (ys : list (string * B)) :
  (forall x y, f x = Ok y -> fst y = fst x) ->
  mapM f xs = Ok ys -> keys ys = keys xs.
Proof.
  intros Hf. revert ys. induction xs as [|x xs IH]; intros ys H; simpl in H.
  - injection H as <-. reflexivity.
  - apply bind_Ok in H. destruct H as [y0 [Hx H]].
    apply bind_Ok in H. destruct H as [ys0 [Hxs H]].
    injection H as <-. unfold keys in *. simpl.
    rewrite (Hf _ _ Hx), (IH _ Hxs). reflexivity.
Qed.

Lemma dict_get_not_in_keys {V : Type} (k : string) (d : list (string * V)) :
  ~ In k (keys d) -> dict_get k d = None.
Proof.
  induction d as [|[k' v] d IH]; simpl; intros H.
  - reflexivity.
  - destruct (String.eqb k k') eqn:E.
    + apply String.eqb_eq in E. subst k'. exfalso. apply H. left. reflexivity.
    + apply IH. intros Hin. apply H. right. exact Hin.
Qed.

Lemma dict_get_in_keys {V : Type} (k : string) (d : list (string * V)) :
  In k (keys d) -> exists v, dict_get k d = Some v.
Proof.
  induction d as [|[k' v] d IH]; simpl; intros H.
  - contradiction.
  - destruct (String.eqb k k') eqn:E.
    + exists v. reflexivity.
    + destruct H as [H | H].
      * subst k'. rewrite String.eqb_refl in E. discriminate.
      * exact (IH H).
Qed.

Lemma dict_get_Some_in_keys {V : Type} (k : string) (v : V)
  (d : list (string * V)) :
  dict_get k d = Some v -> In k (keys d).
Proof.
  induction d as [|[k' v'] d IH]; simpl; intros H.
  - discriminate.
  - destruct (String.eqb k k') eqn:E.
    + apply String.eqb_eq in E. left. symmetry. exact E.
    + right. exact (IH H).
Qed.


Lemma keys_dict_set_present {V : Type} (k : string) (v x : V)
  (d : list (string * V)) :
  dict_get k d = Some x -> keys (dict_set k v d) = keys d.
Proof.
  induction d as [|[k' v'] d IH]; simpl; intros H.
  - discriminate.
  - destruct (String.eqb k k') eqn:E.
    + apply String.eqb_eq in E. subst k'. reflexivity.
    + unfold keys in *. simpl. rewrite (IH H). reflexivity.
Qed.

Lemma dict_set_app_first {V : Type} (k : string) (v x : V)
  (a b : list (string * V)) :
  ~ In k (keys a) ->
  dict_set k v (a ++ (k, x) :: b)%list = (a ++ (k, v) :: b)%list.
Proof.
  induction a as [|[k' v'] a IH]; simpl; intros H.
  - rewrite String.eqb_refl. reflexivity.
  - destruct (String.eqb k k') eqn:E.
    + apply String.eqb_eq in E. subst k'. exfalso. apply H. left. reflexivity.
    + rewrite IH; [reflexivity|]. intros Hin. apply H. right. exact Hin.
Qed.

Lemma dict_get_app_first {V : Type} (k : string) (x : V)
  (a b : list (string * V)) :
  ~ In k (keys a) -> dict_get k (a ++ (k, x) :: b)%list = Some x.
Proof.
  intros H. rewrite dict_get_app, (dict_get_not_in_keys _ _ H). simpl.
  rewrite String.eqb_refl. reflexivity.
Qed.

Lemma set_params_same (operation : Operation) :
  set_params operation (params operation) = operation.
Proof. destruct operation. reflexivity. Qed.

Lemma set_params_twice (operation : Operation) (ps qs : list (string * Param)) :
  set_params (set_params operation ps) qs = set_params operation qs.
Proof. reflexivity. Qed.

Lemma refill (parameter : Param) (f : value) :
  fill parameter = Some f -> set_fill (no_fill parameter) f = parameter.
Proof. destruct parameter. simpl. intros ->. reflexivity. Qed.

Lemma no_fill_unset (parameter : Param) :
  fill parameter = None -> no_fill parameter = parameter.
Proof. destruct parameter. simpl. intros ->. reflexivity. Qed.

(** With one parameter per name, the copy of an operation is the operation:
    built again from the spec, with every fill carried over. *)
Lemma _copy_loop (operation : Operation) (todo done : list (string * Param)) :
  NoDup (keys (done ++ todo)%list) ->
  foldM (fun clone kp =>
           match fill (snd kp) with
           | Some f => set_param_fill (fst kp) (deepcopy f) clone
           | None => Ok clone
           end)
        todo
        (set_params operation
           (done ++ map (fun kp => (fst kp, no_fill (snd kp))) todo)%list) =
  Ok (set_params operation (done ++ todo)%list).
Proof.
  revert done. induction todo as [|[k p] todo IH]; intros done Hnd.
  - simpl. reflexivity.
  - assert (Hk : ~ In k (keys done)).
    { unfold keys in *. rewrite map_app in Hnd. simpl in Hnd.
      apply NoDup_remove_2 in Hnd. intros Hin. apply Hnd.
      apply in_or_app. left. exact Hin. }
    assert (Hnd' : NoDup (keys ((done ++ [(k, p)]) ++ todo)%list)).
    { rewrite <- app_assoc. exact Hnd. }
    specialize (IH (done ++ [(k, p)])%list Hnd').
    rewrite <- !app_assoc in IH. simpl in IH.
    cbn [foldM map fst snd].
    destruct (fill p) as [f|] eqn:Ef.
    + unfold set_param_fill, deepcopy. cbn [params set_params].
      rewrite (dict_get_app_first _ _ _ _ Hk). cbn [bind].
      rewrite (dict_set_app_first _ _ _ _ _ Hk).
      rewrite (refill _ _ Ef). rewrite set_params_twice.
      exact IH.
    + cbn [bind]. rewrite (no_fill_unset _ Ef).
      exact IH.
Qed.

Lemma _copy_same (operation : Operation) :
  NoDup (keys (params operation)) -> _copy operation = Ok operation.
Proof.
  intros Hnd. unfold _copy, from_spec.
  assert (H := _copy_loop operation (params operation) [] Hnd).
  simpl in H. rewrite set_params_same in H. exact H.
Qed.

Lemma set_param_fill_present (k : string) (v : value) (operation : Operation) :
  In k (keys (params operation)) ->
  set_param_fill k v operation = Ok (with_fill k v operation).
Proof.
  intros H. destruct (dict_get_in_keys _ _ H) as [p Hp].
  unfold set_param_fill, with_fill. rewrite Hp. reflexivity.
Qed.

Lemma with_fill_keys (k : string) (v : value) (operation : Operation) :
  keys (params (with_fill k v operation)) = keys (params operation).
Proof.
  unfold with_fill. destruct (dict_get k (params operation)) as [p|] eqn:E.
  - simpl. exact (keys_dict_set_present _ _ _ _ E).
  - reflexivity.
Qed.

Lemma fill_at_with_fill_same (k : string) (v : value) (operation : Operation) :
  In k (keys (params operation)) ->
  fill_at k (with_fill k v operation) = Some v.
Proof.
  intros H. destruct (dict_get_in_keys _ _ H) as [p Hp].
  unfold fill_at, with_fill. rewrite Hp. simpl.
  rewrite dict_get_set_same. reflexivity.
Qed.

Lemma fill_at_with_fill_other (k k' : string) (v : value)
  (operation : Operation) :
  k' <> k -> fill_at k' (with_fill k v operation) = fill_at k' operation.
Proof.
  intros H. unfold fill_at, with_fill.
  destruct (dict_get k (params operation)) as [p|]; [|reflexivity].
  simpl. rewrite dict_get_set_other; [reflexivity|].
  apply String.eqb_neq. exact H.
Qed.

(** ** Skipping and filling one parameter *)





(** What the first loop leaves of one parameter. *)
Lemma fill_param_result (get_param_value : value -> result value)
  (optional : bool) (kp kp' : string * Param) :
  fill_param get_param_value optional kp = Ok kp' ->
  fst kp' = fst kp /\
  name (snd kp') = name (snd kp) /\
  required (snd kp') = required (snd kp) /\
  default (snd kp') = default (snd kp) /\
  param_spec (snd kp') = param_spec (snd kp) /\
  exists skip,
    _should_skip_setting_param_value (snd kp') optional = Ok skip /\
    (skip = true -> fill (snd kp') = Some VNone) /\
    (skip = false ->
     (is_none (default (snd kp')) = false ->
      fill (snd kp') = Some (default (snd kp'))) /\
     (is_none (default (snd kp')) = true ->
      exists v,
        get_param_value (VDict (param_spec (snd kp'))) = Ok v /\
        fill (snd kp') = Some v)).
Proof.
  unfold fill_param. intros H.
  apply bind_Ok in H. destruct H as [skip [Hskip H]].
  destruct skip.
  - injection H as <-. cbn [fst snd].
    repeat split. exists true. split; [exact Hskip|]. split.
    + reflexivity.
    + discriminate.
  - apply bind_Ok in H. destruct H as [r [Hset H]].
    injection H as <-. cbn [fst snd].
    unfold _try_to_set_param_value in Hset. unfold default in *.
    cbn [param_spec set_fill] in Hset.
    destruct (is_none (get_or_none "default" (param_spec (snd kp)))) eqn:Ed; cbn [negb] in Hset.
    + apply bind_Ok in Hset. destruct Hset as [v [Hv Hset]].
      destruct (is_none v) eqn:Ev; cbn [negb] in Hset; injection Hset as <-;
        cbn [snd].
      * repeat split. exists false. split; [exact Hskip|]. split;
          [discriminate|]. intros _. cbn [param_spec set_fill]. split.
        -- rewrite Ed. discriminate.
        -- intros _. exists v. split; [exact Hv|].
           destruct v; try discriminate. reflexivity.
      * repeat split. exists false. split; [exact Hskip|]. split;
          [discriminate|]. intros _. cbn [param_spec set_fill]. split.
        -- rewrite Ed. discriminate.
        -- intros _. exists v. split; [exact Hv | reflexivity].
    + injection Hset as <-. cbn [snd].
      repeat split. exists false. split; [exact Hskip|]. split;
        [discriminate|]. intros _. cbn [param_spec set_fill]. split.
      * intros _. reflexivity.
      * rewrite Ed. discriminate.
Qed.

Section ExpansionFacts.
Context {C : Collaborators}.
Variable w : world.

Lemma filled_operation_params (fuel : nat) (optional : bool)
  (self_operation operation : Operation) :
  filled_operation w fuel optional self_operation = Ok operation ->
  path_name operation = path_name self_operation /\
  exists source,
    keys source = keys (params self_operation) /\
    mapM (fill_param (_get_param_value w fuel) optional) source =
    Ok (params operation).
Proof.
  unfold filled_operation. intros H.
  apply bind_Ok in H. destruct H as [fixed [Hfix H]].
  apply bind_Ok in H. destruct H as [clone [Hcopy H]].
  apply bind_Ok in H. destruct H as [ps [Hps H]].
  injection H as <-.
  rewrite _fix_common_spec_issues_repaired in Hfix. injection Hfix as <-.
  unfold _copy in Hcopy.
  assert (Hloop : forall (l : list (string * Param)) (c c' : Operation),
             foldM (fun clone kp =>
                      match fill (snd kp) with
                      | Some f => set_param_fill (fst kp) (deepcopy f) clone
                      | None => Ok clone
                      end) l c = Ok c' ->
             path_name c' = path_name c /\
             keys (params c') = keys (params c)).
  { induction l as [|[k p] l IH]; intros c c' Hl; simpl in Hl.
    - injection Hl as <-. split; reflexivity.
    - apply bind_Ok in Hl. destruct Hl as [c1 [H1 Hl]].
      destruct (IH _ _ Hl) as [Hp Hk]. rewrite Hp, Hk.
      destruct (fill p).
      + unfold set_param_fill in H1.
        destruct (dict_get k (params c)) as [q|] eqn:Eq; [|discriminate].
        injection H1 as <-. simpl. split; [reflexivity|].
        exact (keys_dict_set_present _ _ _ _ Eq).
      + injection H1 as <-. split; reflexivity. }
  destruct (Hloop _ _ _ Hcopy) as [Hpath Hkeys].
  split.
  - simpl. rewrite Hpath. reflexivity.
  - exists (params clone). split; [|exact Hps].
    rewrite Hkeys. unfold from_spec, keys. simpl.
    rewrite !map_map. reflexivity.
Qed.

Lemma filled_operation_keys (fuel : nat) (optional : bool)
  (self_operation operation : Operation) :
  filled_operation w fuel optional self_operation = Ok operation ->
  keys (params operation) = keys (params self_operation).
Proof.
  intros H. destruct (filled_operation_params _ _ _ _ H) as [_ [source [Hk Hm]]].
  rewrite <- Hk. apply (mapM_keys _ _ _ (fun x y Hxy =>
    proj1 (fill_param_result _ _ _ _ Hxy)) Hm).
Qed.

(** Every parameter of the filled operation was either skipped, and its
    fill is [None], or given its default or a synthesised value. *)
Lemma filled_operation_parameter (fuel : nat) (optional : bool)
  (self_operation operation : Operation) (k : string) (parameter : Param) :
  filled_operation w fuel optional self_operation = Ok operation ->
  In (k, parameter) (params operation) ->
  exists skip,
    _should_skip_setting_param_value parameter optional = Ok skip /\
    (skip = true -> fill parameter = Some VNone) /\
    (skip = false ->
     (is_none (default parameter) = false ->
      fill parameter = Some (default parameter)) /\
     (is_none (default parameter) = true ->
      exists v,
        _get_param_value w fuel (VDict (param_spec parameter)) = Ok v /\
        is_none v = false /\
        fill parameter = Some v)).
Proof.
  intros H Hin.
  destruct (filled_operation_params _ _ _ _ H) as [_ [source [_ Hm]]].
  destruct (mapM_In _ _ _ Hm _ Hin) as [kp [_ Hkp]].
  destruct (fill_param_result _ _ _ _ Hkp)
    as [_ [_ [_ [_ [_ [skip [Hskip [Hs Hf]]]]]]]].
  cbn [snd] in *.
  exists skip. split; [exact Hskip|]. split; [exact Hs|].
  intros E. destruct (Hf E) as [Hd Hv]. split; [exact Hd|].
  intros Ed. destruct (Hv Ed) as [v [Hget Hfill]].
  exists v. split; [exact Hget|]. split; [|exact Hfill].
  exact (_get_param_value_not_none _ _ _ _ Hget).
Qed.

(** With one parameter per key the copy is the repaired operation itself,
    and the first loop runs over its parameters. *)
Lemma filled_operation_loop (fuel : nat) (optional : bool)
  (self_operation : Operation) :
  NoDup (keys (params self_operation)) ->
  filled_operation w fuel optional self_operation =
  (ps <- mapM (fill_param (_get_param_value w fuel) optional)
              (map with_repaired_spec (params self_operation)) ;;
   Ok (set_params self_operation ps)).
Proof.
  intros Hnd. unfold filled_operation.
  rewrite _fix_common_spec_issues_repaired. cbn [bind].
  rewrite _copy_same.
  - cbn [bind params set_params].
    destruct (mapM (fill_param (_get_param_value w fuel) optional)
                (map with_repaired_spec (params self_operation)));
      reflexivity.
  - cbn [params set_params]. unfold keys. rewrite map_map. exact Hnd.
Qed.




(** ** Expansion over the caller's values *)

Lemma _set_custom_parameter_values_product (operations : list Operation)
  (k : string) (values : list value) :
  (forall operation, In operation operations ->
                     In k (keys (params operation)) /\
                     NoDup (keys (params operation))) ->
  _set_custom_parameter_values operations k values =
  Ok (product_step operations (k, values)).
Proof.
  intros Hops. unfold _set_custom_parameter_values, product_step. cbn [fst snd].
  destruct values as [|v [|v' values]].
  - reflexivity.
  - rewrite (mapM_pure _ (with_fill k v)).
    + f_equal.
    + intros o Ho. apply set_param_fill_present. apply (Hops o Ho).
  - rewrite (mapM_pure _
               (fun o => map (fun x => with_fill k x o) (v :: v' :: values))).
    + cbn [bind]. rewrite flat_map_concat_map. reflexivity.
    + intros o Ho. destruct (Hops o Ho) as [Hk Hnd].
      apply mapM_pure. intros x _.
      rewrite (_copy_same o Hnd). cbn [bind].
      apply set_param_fill_present. exact Hk.
Qed.

Lemma product_step_keys (K : list string) (operations : list Operation)
  (override : string * list value) :
  (forall operation, In operation operations -> keys (params operation) = K) ->
  forall operation, In operation (product_step operations override) ->
                    keys (params operation) = K.
Proof.
  intros Hops o Ho. unfold product_step in Ho.
  destruct (snd override) as [|v values] eqn:E.
  - apply Hops. exact Ho.
  - apply in_flat_map in Ho. destruct Ho as [o0 [Ho0 Ho]].
    apply in_map_iff in Ho. destruct Ho as [x [<- _]].
    rewrite with_fill_keys. apply Hops. exact Ho0.
Qed.

Lemma override_loop (optional : bool)
  (custom_parameter_values : ParameterValues.t) (operation : Operation)
  (K : list string) (l : list (string * Param)) :
  NoDup K ->
  (forall kp, In kp l ->
              In (fst kp) K /\
              exists skip,
                _should_skip_setting_param_value (snd kp) optional = Ok skip) ->
  forall operations,
    (forall o, In o operations -> keys (params o) = K) ->
    foldM (override_param optional custom_parameter_values operation)
          l operations =
    Ok (cartesian_product
          (map (fun kp =>
                  (fst kp,
                   override_values optional custom_parameter_values
                     (path_name operation) (snd kp))) l)
          operations).
Proof.
  intros HK. induction l as [|kp l IH]; intros Hl operations Hops.
  - reflexivity.
  - destruct (Hl kp (or_introl eq_refl)) as [Hk [skip Hskip]].
    assert (Hstep :
              override_param optional custom_parameter_values operation
                operations kp =
              Ok (product_step operations
                    (fst kp,
                     override_values optional custom_parameter_values
                       (path_name operation) (snd kp)))).
    { unfold override_param, override_values. rewrite Hskip. cbn [bind].
      destruct skip; [reflexivity|].
      destruct (ParameterValues.get custom_parameter_values
                  (path_name operation) (name (snd kp))) as [|v values] eqn:E.
      - reflexivity.
      - apply _set_custom_parameter_values_product.
        intros o Ho. rewrite (Hops o Ho). split; assumption. }
    cbn [foldM map]. rewrite Hstep. cbn [bind].
    unfold cartesian_product. cbn [fold_left].
    apply IH.
    + intros kp' Hkp'. apply Hl. right. exact Hkp'.
    + apply product_step_keys. exact Hops.
Qed.

Lemma get_of_empty (custom_parameter_values : ParameterValues.t)
  (path n : string) :
  ParameterValues.is_empty custom_parameter_values = true ->
  ParameterValues.get custom_parameter_values path n = [].
Proof.
  unfold ParameterValues.is_empty, ParameterValues.get.
  destruct (ParameterValues._values custom_parameter_values);
    [reflexivity | discriminate].
Qed.

Lemma cartesian_product_nothing (ovs : list (string * list value))
  (operations : list Operation) :
  (forall kv, In kv ovs -> snd kv = []) ->
  cartesian_product ovs operations = operations.
Proof.
  unfold cartesian_product. revert operations.
  induction ovs as [|kv ovs IH]; intros operations H; simpl.
  - reflexivity.
  - unfold product_step at 2. rewrite (H kv (or_introl eq_refl)).
    apply IH. intros kv' Hkv'. apply H. right. exact Hkv'.
Qed.

(** The code computes the fold of the specification. *)
Lemma set_operation_params_product (fuel : nat) (optional : bool)
  (custom_parameter_values : ParameterValues.t)
  (self_operation operation : Operation) :
  NoDup (keys (params self_operation)) ->
  filled_operation w fuel optional self_operation = Ok operation ->
  set_operation_params w fuel optional custom_parameter_values self_operation =
  Ok (cartesian_product (overrides optional custom_parameter_values operation)
        [operation]).
Proof.
  intros Hnd H. unfold set_operation_params. rewrite H. cbn [bind].
  destruct (ParameterValues.is_empty custom_parameter_values) eqn:E.
  - rewrite cartesian_product_nothing; [reflexivity|].
    intros kv Hkv. unfold overrides in Hkv. apply in_map_iff in Hkv.
    destruct Hkv as [kp [<- _]]. cbn [snd]. unfold override_values.
    destruct (_should_skip_setting_param_value (snd kp) optional) as [[|]|];
      try reflexivity.
    apply get_of_empty. exact E.
  - apply (override_loop optional custom_parameter_values operation
             (keys (params operation))).
    + rewrite (filled_operation_keys _ _ _ _ H). exact Hnd.
    + intros [k p] Hkp. split.
      * change (In (fst (k, p)) (map fst (params operation))).
        apply in_map. exact Hkp.
      * destruct (filled_operation_parameter _ _ _ _ _ _ H Hkp)
          as [skip [Hskip _]].
        exists skip. exact Hskip.
    + intros o [<- | []]. reflexivity.
Qed.

(** *** The fold is the cartesian product *)

Lemma flat_map_length_const {A B : Type} (f : A -> list B) (n : nat)
  (l : list A) :
  (forall x, List.length (f x) = n) ->
  List.length (flat_map f l) = (List.length l * n)%nat.
Proof.
  intros H. induction l as [|x l IH]; simpl.
  - reflexivity.
  - rewrite length_app, H, IH. reflexivity.
Qed.

Lemma product_step_length (operations : list Operation)
  (override : string * list value) :
  List.length (product_step operations override) =
  (List.length operations *
   match snd override with
   | [] => 1
   | values => List.length values
   end)%nat.
Proof.
  unfold product_step. destruct (snd override) as [|v values].
  - lia.
  - apply flat_map_length_const. intros o. apply length_map.
Qed.

Lemma cartesian_product_length (ovs : list (string * list value))
  (operations : list Operation) :
  List.length (cartesian_product ovs operations) =
  (List.length operations * product_of_sizes ovs)%nat.
Proof.
  unfold cartesian_product, product_of_sizes, overridden.
  revert operations. induction ovs as [|[k vs] ovs IH]; intros operations.
  - simpl. lia.
  - cbn [fold_left]. rewrite IH, product_step_length. cbn [snd filter].
    destruct vs as [|v vs].
    + lia.
    + cbn [map fold_right snd]. lia.
Qed.

Lemma overridden_keys (ovs : list (string * list value)) (k : string) :
  In k (keys (overridden ovs)) -> In k (keys ovs).
Proof.
  unfold keys, overridden. intros H.
  apply in_map_iff in H. destruct H as [kv [<- Hkv]].
  apply filter_In in Hkv. apply in_map. exact (proj1 Hkv).
Qed.

(** Every operation of the product comes from one of the running sequence,
    with a value of its list for every overridden parameter and the fill
    it had for every other one. *)
Lemma cartesian_product_sound (ovs : list (string * list value)) :
  NoDup (keys ovs) ->
  forall operations,
    (forall o k, In o operations -> In k (keys ovs) ->
                 In k (keys (params o))) ->
    forall o', In o' (cartesian_product ovs operations) ->
    exists o,
      In o operations /\
      (forall k vs, In (k, vs) (overridden ovs) ->
                    exists v, In v vs /\ fill_at k o' = Some v) /\
      (forall k, ~ In k (keys (overridden ovs)) ->
                 fill_at k o' = fill_at k o).
Proof.
  induction ovs as [|[k1 vs1] ovs IH]; intros Hnd operations Hkeys o' Ho'.
  - exists o'. split; [exact Ho'|]. split.
    + intros k vs [].
    + reflexivity.
  - inversion Hnd as [|? ? Hk1 Hnd']; subst.
    unfold cartesian_product in Ho'. cbn [fold_left] in Ho'.
    destruct vs1 as [|v1 vs1].
    + apply (IH Hnd' operations); [|exact Ho'].
      intros o k Ho Hk. apply Hkeys; [exact Ho | right; exact Hk].
    + assert (Hkeys1 : forall o k,
                 In o (product_step operations (k1, v1 :: vs1)) ->
                 In k (keys ovs) -> In k (keys (params o))).
      { intros o k Ho Hk. unfold product_step in Ho. cbn [snd fst] in Ho.
        apply in_flat_map in Ho. destruct Ho as [o0 [Ho0 Ho]].
        apply in_map_iff in Ho. destruct Ho as [x [<- _]].
        rewrite with_fill_keys. apply Hkeys; [exact Ho0 | right; exact Hk]. }
      destruct (IH Hnd' _ Hkeys1 o' Ho') as [o1 [Ho1 [Hov Hrest]]].
      unfold product_step in Ho1. cbn [snd fst] in Ho1.
      apply in_flat_map in Ho1. destruct Ho1 as [o [Ho Ho1]].
      apply in_map_iff in Ho1. destruct Ho1 as [x [<- Hx]].
      assert (Hk1' : ~ In k1 (keys (overridden ovs))).
      { intros Hin. apply Hk1. exact (overridden_keys _ _ Hin). }
      exists o. split; [exact Ho|]. split.
      * intros k vs Hin. cbn [overridden filter snd] in Hin.
        destruct Hin as [Heq | Hin].
        -- injection Heq as <- <-. exists x. split; [exact Hx|].
           rewrite (Hrest k1 Hk1'). apply fill_at_with_fill_same.
           apply Hkeys; [exact Ho | left; reflexivity].
        -- exact (Hov k vs Hin).
      * intros k Hk. cbn [overridden filter snd keys map fst] in Hk.
        assert (Hne : k <> k1).
        { intros ->. apply Hk. left. reflexivity. }
        assert (Hk' : ~ In k (keys (overridden ovs))).
        { intros Hin. apply Hk. right. exact Hin. }
        rewrite (Hrest k Hk'). apply fill_at_with_fill_other. exact Hne.
Qed.

(** Every choice of one value per overridden parameter is taken by an
    operation of the product. *)
Lemma cartesian_product_covers (ovs : list (string * list value))
  (choice : string -> value) :
  NoDup (keys ovs) ->
  (forall k vs, In (k, vs) (overridden ovs) -> In (choice k) vs) ->
  forall operations,
    (forall o k, In o operations -> In k (keys ovs) ->
                 In k (keys (params o))) ->
    forall o, In o operations ->
    exists o',
      In o' (cartesian_product ovs operations) /\
      (forall k vs, In (k, vs) (overridden ovs) ->
                    fill_at k o' = Some (choice k)) /\
      (forall k, ~ In k (keys (overridden ovs)) ->
                 fill_at k o' = fill_at k o).
Proof.
  induction ovs as [|[k1 vs1] ovs IH]; intros Hnd Hchoice operations Hkeys o Ho.
  - exists o. split; [exact Ho|]. split.
    + intros k vs [].
    + reflexivity.
  - inversion Hnd as [|? ? Hk1 Hnd']; subst.
    unfold cartesian_product. cbn [fold_left].
    destruct vs1 as [|v1 vs1].
    + apply (IH Hnd'); [exact Hchoice | | exact Ho].
      intros o0 k Ho0 Hk. apply Hkeys; [exact Ho0 | right; exact Hk].
    + assert (Hkeys1 : forall o0 k,
                 In o0 (product_step operations (k1, v1 :: vs1)) ->
                 In k (keys ovs) -> In k (keys (params o0))).
      { intros o0 k Ho0 Hk. unfold product_step in Ho0. cbn [snd fst] in Ho0.
        apply in_flat_map in Ho0. destruct Ho0 as [o1 [Ho1 Ho0]].
        apply in_map_iff in Ho0. destruct Ho0 as [x [<- _]].
        rewrite with_fill_keys. apply Hkeys; [exact Ho1 | right; exact Hk]. }
      assert (Hchoice1 : In (choice k1) (v1 :: vs1)).
      { apply (Hchoice k1). left. reflexivity. }
      assert (Ho1 : In (with_fill k1 (choice k1) o)
                       (product_step operations (k1, v1 :: vs1))).
      { unfold product_step. cbn [snd fst]. apply in_flat_map.
        exists o. split; [exact Ho|].
        apply (in_map (fun x => with_fill k1 x o)). exact Hchoice1. }
      assert (Hchoice' : forall k vs, In (k, vs) (overridden ovs) ->
                                      In (choice k) vs).
      { intros k vs Hin. apply Hchoice. right. exact Hin. }
      destruct (IH Hnd' Hchoice' _ Hkeys1 _ Ho1) as [o' [Ho' [Hov Hrest]]].
      assert (Hk1' : ~ In k1 (keys (overridden ovs))).
      { intros Hin. apply Hk1. exact (overridden_keys _ _ Hin). }
      exists o'. split; [exact Ho'|]. split.
      * intros k vs Hin. cbn [overridden filter snd] in Hin.
        destruct Hin as [Heq | Hin].
        -- injection Heq as <- <-.
           rewrite (Hrest k1 Hk1'). apply fill_at_with_fill_same.
           apply Hkeys; [exact Ho | left; reflexivity].
        -- exact (Hov k vs Hin).
      * intros k Hk. cbn [overridden filter snd keys map fst] in Hk.
        assert (Hne : k <> k1).
        { intros ->. apply Hk. left. reflexivity. }
        assert (Hk' : ~ In k (keys (overridden ovs))).
        { intros Hin. apply Hk. right. exact Hin. }
        rewrite (Hrest k Hk'). apply fill_at_with_fill_other. exact Hne.
Qed.

Lemma overrides_keys (optional : bool)
  (custom_parameter_values : ParameterValues.t) (operation : Operation) :
  keys (overrides optional custom_parameter_values operation) =
  keys (params operation).
Proof. unfold overrides, keys. rewrite map_map. reflexivity. Qed.

(** C1. The expansion of an operation is the cartesian product over the
    overridden parameters, taken in declared order.  When the first loop
    filled the operation, [set_operation_params] returns the fold of the
    specification; the number of operations is the product of the sizes of
    the override lists of the overridden parameters; every choice of one
    value per overridden parameter is taken by one of them; each of them
    has a value of its list at every overridden parameter and the baseline
    fill at every other one.  With [a, b] for p1 and [1, 2] for p2 the
    expansion is the four operations (a,1), (a,2), (b,1), (b,2). *)
Theorem expansion_is_cartesian_product :
  (forall (fuel : nat) (optional : bool)
          (custom_parameter_values : ParameterValues.t)
          (self_operation operation : Operation),
      NoDup (keys (params self_operation)) ->
      filled_operation w fuel optional self_operation = Ok operation ->
      exists operations,
        set_operation_params w fuel optional custom_parameter_values
          self_operation = Ok operations /\
        operations =
        cartesian_product
          (overrides optional custom_parameter_values operation) [operation] /\
        List.length operations =
        product_of_sizes
          (overrides optional custom_parameter_values operation) /\
        (forall choice : string -> value,
            (forall k vs,
                In (k, vs)
                   (overridden
                      (overrides optional custom_parameter_values operation)) ->
                In (choice k) vs) ->
            exists o,
              In o operations /\
              forall k vs,
                In (k, vs)
                   (overridden
                      (overrides optional custom_parameter_values operation)) ->
                fill_at k o = Some (choice k)) /\
        (forall o,
            In o operations ->
            (forall k vs,
                In (k, vs)
                   (overridden
                      (overrides optional custom_parameter_values operation)) ->
                exists v, In v vs /\ fill_at k o = Some v) /\
            (forall k,
                ~ In k (keys (overridden
                                (overrides optional custom_parameter_values
                                   operation))) ->
                fill_at k o = fill_at k operation))) /\
  (exists operations,
      set_operation_params (C := example_env) 0 3 false example_overrides
        example_operation = Ok operations /\
      map (fun o => (fill_at "p1" o, fill_at "p2" o, fill_at "p3" o))
          operations =
      [(Some (VStr "a"), Some (VInt 1), Some (VStr "value-for-p3"));
       (Some (VStr "a"), Some (VInt 2), Some (VStr "value-for-p3"));
       (Some (VStr "b"), Some (VInt 1), Some (VStr "value-for-p3"));
       (Some (VStr "b"), Some (VInt 2), Some (VStr "value-for-p3"))]).
Proof.
  split.
  - intros fuel optional cpv op operation Hnd H.
    set (ovs := overrides optional cpv operation).
    assert (Hnd' : NoDup (keys ovs)).
    { unfold ovs. rewrite overrides_keys.
      rewrite (filled_operation_keys _ _ _ _ H). exact Hnd. }
    assert (Hkeys : forall o k, In o [operation] -> In k (keys ovs) ->
                                In k (keys (params o))).
    { intros o k [<- | []] Hk. unfold ovs in Hk.
      rewrite overrides_keys in Hk. exact Hk. }
    exists (cartesian_product ovs [operation]).
    split; [exact (set_operation_params_product _ _ cpv _ _ Hnd H)|].
    split; [reflexivity|].
    split; [rewrite cartesian_product_length; simpl; lia|].
    split.
    + intros choice Hchoice.
      destruct (cartesian_product_covers ovs choice Hnd' Hchoice
                  [operation] Hkeys operation (or_introl eq_refl))
        as [o' [Ho' [Hov _]]].
      exists o'. split; [exact Ho' | exact Hov].
    + intros o Ho.
      destruct (cartesian_product_sound ovs Hnd' [operation] Hkeys o Ho)
        as [o0 [[<- | []] [Hov Hrest]]].
      split; [exact Hov | exact Hrest].
  - eexists. split; [vm_compute; reflexivity | vm_compute; reflexivity].
Qed.

End ExpansionFacts.

(** ** The theorems at work on the examples *)

Lemma expansion_is_cartesian_product_witness :
  exists operations,
    set_operation_params (C := example_env) 0 3 false example_overrides
      example_operation = Ok operations /\
    List.length operations = 4%nat /\
    (exists o, In o operations /\
               fill_at "p1" o = Some (VStr "b") /\
               fill_at "p2" o = Some (VInt 1)) /\
    (forall o, In o operations ->
               fill_at "p3" o = Some (VStr "value-for-p3")).
Proof.
  destruct (@expansion_is_cartesian_product example_env 0) as [H _].
  assert (Hnd : NoDup (keys (params example_operation))).
  { unfold keys. simpl. repeat constructor; simpl; intuition discriminate. }
  assert (Hf : filled_operation (C := example_env) 0 3 false example_operation
               = Ok example_filled).
  { vm_compute. reflexivity. }
  destruct (H 3%nat false example_overrides example_operation example_filled
              Hnd Hf) as [operations [Hrun [_ [Hlen [Hcover Hsound]]]]].
  exists operations. split; [exact Hrun|]. split; [|split].
  - rewrite Hlen. vm_compute. reflexivity.
  - destruct (Hcover (fun k => if String.eqb k "p1" then VStr "b" else VInt 1))
      as [o [Ho Hfill]].
    + intros k vs Hin. vm_compute in Hin.
      destruct Hin as [Hin | [Hin | []]]; injection Hin as <- <-;
        vm_compute; intuition.
    + exists o. split; [exact Ho|]. split.
      * apply (Hfill "p1" [VStr "a"; VStr "b"]). vm_compute. intuition.
      * apply (Hfill "p2" [VInt 1; VInt 2]). vm_compute. intuition.
  - intros o Ho. destruct (Hsound o Ho) as [_ Hrest].
    rewrite (Hrest "p3").
    + vm_compute. reflexivity.
    + vm_compute. intuition discriminate.
Defined.


Lemma array_value_laws_witness :
  _get_param_value_for_array (_get_param_value (C := example_env) 0 2)
    (VDict [("type", VStr "array")]) = Ok (VList []) /\
  _get_param_value_for_array (_get_param_value (C := example_env) 0 2)
    (VDict [("type", VStr "array");
            ("items", VDict [("type", VStr "string");
                             ("default", VStr "x")])]) =
  Ok (VList [VStr "x"]) /\
  _get_param_value (C := example_env) 0 3
    (VDict [("type", VStr "array");
            ("items", VDict [("$ref", VStr "#/definitions/Pet")])]) =
  Ok (VList [VDict [("tag", VStr "value-for-tag"); ("age", VInt 42)]]).
Proof.
  destruct (@array_value_laws example_env) as [H1 [H2 _]].
  split; [|split].
  - destruct (H1 (_get_param_value (C := example_env) 0 2)
                [("type", VStr "array")] eq_refl) as [Hempty _].
    apply Hempty. reflexivity.
  - destruct (H1 (_get_param_value (C := example_env) 0 2)
                [("type", VStr "array");
                 ("items", VDict [("type", VStr "string");
                                  ("default", VStr "x")])] eq_refl)
      as [_ [Hdefault _]].
    apply (Hdefault [("type", VStr "string"); ("default", VStr "x")]);
      reflexivity.
  - destruct (H2 0 2%nat
                [("type", VStr "array");
                 ("items", VDict [("$ref", VStr "#/definitions/Pet")])]
                eq_refl eq_refl eq_refl eq_refl) as [_ Hitem].
    apply (Hitem [("$ref", VStr "#/definitions/Pet")]
                 (VDict [("tag", VStr "value-for-tag"); ("age", VInt 42)]));
      vm_compute; reflexivity.
Defined.


(** C5 as the specification states it does not hold: a spec with an
    [enum] and neither format nor type is taken for a model and given the
    empty dict, and so is a typed spec whose first entry is null, since a
    null value is read as no value. *)
Lemma enum_is_not_always_used :
  get_or_none "enum" [("enum", VList [VStr "a"; VStr "b"])] =
  VList [VStr "a"; VStr "b"] /\
  _get_param_value (C := example_env) 0 3
    (VDict [("enum", VList [VStr "a"; VStr "b"])]) = Ok (VDict []) /\
  VDict [] <> VStr "a" /\
  _get_param_value (C := example_env) 0 3
    (VDict [("type", VStr "integer"); ("enum", VList [VNone; VInt 5])]) =
  Ok (VDict []) /\
  VDict [] <> VNone.
Proof.
  repeat split; try reflexivity; discriminate.
Qed.

Lemma all_of_parts_are_merged_witness :
  exists properties,
    _get_object_definition_impl (C := example_env) 2
      (VDict [("allOf",
               VList [VDict [("$ref", VStr "#/definitions/Named")];
                      VDict [("$ref", VStr "#/definitions/Tagged")]])]) =
    Ok (VDict [("required", VList [VStr "a"; VStr "b"]);
               ("properties", VDict properties);
               ("type", VStr "object")]) /\
    dict_get "x" properties = Some (VDict [("type", VStr "integer")]).
Proof.
  destruct (@all_of_parts_are_merged example_env) as [H _].
  destruct (H 1%nat
              [("allOf",
                VList [VDict [("$ref", VStr "#/definitions/Named")];
                       VDict [("$ref", VStr "#/definitions/Tagged")]])]
              [VDict [("$ref", VStr "#/definitions/Named")];
               VDict [("$ref", VStr "#/definitions/Tagged")]]
              [[("required", VList [VStr "a"])];
               [("required", VList [VStr "b"]);
                ("properties",
                 VDict [("x", VDict [("type", VStr "integer")])])]])
    as [properties [Hmerge Hlookup]].
  - reflexivity.
  - reflexivity.
  - repeat constructor.
  - repeat constructor; intros v Hv; vm_compute in Hv;
      try discriminate; injection Hv as <-; eexists; reflexivity.
  - exists properties. split; [exact Hmerge|].
    rewrite Hlookup. reflexivity.
Defined.

Lemma synthesis_is_deterministic_witness :
  _get_param_value (C := example_env) 0 3
    (VDict [("type", VStr "integer");
            ("minimum", VInt 10); ("maximum", VInt 20)]) =
  _get_param_value (C := example_env) 12345 3
    (VDict [("type", VStr "integer");
            ("minimum", VInt 10); ("maximum", VInt 20)]) /\
  _get_param_value_for_type_and_spec (C := example_env) 12345 (VStr "integer")
    (VDict [("type", VStr "integer"); ("maximum", VInt 20)]) =
  example_randint 1 (VInt 0) (VInt 20) /\
  (exists n,
      _get_param_value_for_type_and_spec (C := example_env) 0 (VStr "int32")
        (VDict [("format", VStr "int32");
                ("minimum", VInt 10); ("maximum", VInt 20)]) = Ok (VInt n) /\
      10 <= n <= 20).
Proof.
  destruct (@synthesis_is_deterministic example_env (fun _ _ _ => eq_refl))
    as [H1 [H2 H3]].
  split; [|split].
  - apply H1.
  - apply (H2 12345 (VStr "integer")
              [("type", VStr "integer"); ("maximum", VInt 20)]).
    + reflexivity.
    + reflexivity.
    + left. discriminate.
  - assert (Hrange : forall (r : Z) (lo hi : Z) (v : value),
               example_randint r (VInt lo) (VInt hi) = Ok v ->
               exists n, v = VInt n /\ lo <= n <= hi).
    { intros r lo hi v. unfold example_randint.
      destruct (lo <=? hi) eqn:E; [|discriminate].
      intros Hv. injection Hv as <-. eexists. split; [reflexivity|].
      apply Z.leb_le in E.
      pose proof (Z.mod_pos_bound (r * 7919) (hi - lo + 1)). lia. }
    destruct (H3 Hrange 0 (VStr "int32")
                [("format", VStr "int32");
                 ("minimum", VInt 10); ("maximum", VInt 20)]
                10 20 (VInt 20))
      as [n [Hn Hb]].
    + reflexivity.
    + reflexivity.
    + reflexivity.
    + reflexivity.
    + vm_compute. reflexivity.
    + exists n. split; [|exact Hb]. rewrite <- Hn. vm_compute. reflexivity.
Defined.


(** C8 as the specification states it does not hold of the author's
    default: the parameter [count] is declared with the default ['many']
    and the format [int32], the repair replaces the default by 0 and the
    fill is 0; and the optional parameter [limit], declared with the
    default 10, is skipped when optional parameters are off and has no
    fill. *)
Lemma author_default_is_not_always_the_fill :
  (exists parameter,
      dict_get "count" (params example_unrepaired) = Some parameter /\
      default parameter = VStr "many") /\
  (exists operation,
      filled_operation (C := example_env) 0 3 true example_unrepaired =
      Ok operation /\
      fill_at "count" operation = Some (VInt 0)) /\
  (exists parameter,
      dict_get "limit" (params example_headers) = Some parameter /\
      default parameter = VInt 10) /\
  (exists operation,
      filled_operation (C := example_env) 0 3 false example_headers =
      Ok operation /\
      fill_at "limit" operation = Some VNone).
Proof.
  split; [|split; [|split]].
  - eexists. split; reflexivity.
  - eexists. split; [vm_compute; reflexivity | reflexivity].
  - eexists. split; reflexivity.
  - eexists. split; [vm_compute; reflexivity | reflexivity].
Qed.

Lemma format_overrides_type_witness :
  _get_parameter_type
    (VDict [("type", VStr "array"); ("format", VStr "int32")]) =
  Ok (VStr "int32") /\
  _get_parameter_type
    (VDict (dict_set "type" (VStr "boolean")
              [("type", VStr "array"); ("format", VStr "int32")])) =
  Ok (VStr "int32").
Proof.
  destruct (@format_overrides_type example_env) as [H1 [H2 _]].
  split.
  - apply H1. reflexivity.
  - apply H2. reflexivity.
Defined.

(** ** Loading parameter values *)

Lemma for_each_load_app {A : Type}
  (body : ParameterValues.t -> A -> outcome) (a b : list A)
  (self : ParameterValues.t) :
  for_each_load body (a ++ b)%list self =
  match for_each_load body a self with
  | (self', None) => for_each_load body b self'
  | raised => raised
  end.
Proof.
  revert self. induction a as [|x a IH]; intros self; simpl.
  - reflexivity.
  - destruct (body self x) as [self' [e|]]; [reflexivity | apply IH].
Qed.

Section LoadingFacts.
Variable yaml_load : string -> value + string.
Variable format_s : value -> string.
Hypothesis format_s_string : forall s, format_s (VStr s) = s.

Lemma load_parameter_record (item : dict) (path : string)
  (self : ParameterValues.t) (v : value) (r : string * list value) :
  dict_get "path" item = Some (VStr path) ->
  parameter_record v r ->
  load_parameter format_s (VDict item) self v =
  (ParameterValues.set self path (fst r) (snd r), None).
Proof.
  intros Hpath [d [-> [Hname Hvalues]]].
  unfold load_parameter, attempt, py_in, py_getitem, dict_has.
  rewrite Hname, Hvalues, Hpath. cbn [negb].
  rewrite !format_s_string. reflexivity.
Qed.

Lemma load_parameters_records (item : dict) (path : string)
  (l : list value) (ps : list (string * list value)) :
  dict_get "path" item = Some (VStr path) ->
  Forall2 parameter_record l ps ->
  forall self,
    for_each_load (load_parameter format_s (VDict item)) l self =
    (store_parameters path self ps, None).
Proof.
  intros Hpath. induction 1 as [|v r l ps Hv _ IH]; intros self.
  - reflexivity.
  - cbn [for_each_load]. rewrite (load_parameter_record _ _ _ _ _ Hpath Hv).
    rewrite IH. reflexivity.
Qed.

Lemma load_item_record (self : ParameterValues.t) (v : value)
  (r : string * list (string * list value)) :
  item_record v r ->
  load_item format_s self v = (store_parameters (fst r) self (snd r), None).
Proof.
  intros [d [l [-> [Hpath [Hparams Hl]]]]].
  unfold load_item, attempt, py_in, py_getitem, dict_has.
  rewrite Hpath, Hparams. cbn [negb py_iter].
  apply (load_parameters_records d (fst r) l (snd r) Hpath Hl).
Qed.

Lemma load_items_records (content : list value)
  (items : list (string * list (string * list value))) :
  Forall2 item_record content items ->
  forall self,
    for_each_load (load_item format_s) content self =
    (store_items self items, None).
Proof.
  induction 1 as [|v r content items Hv _ IH]; intros self.
  - reflexivity.
  - cbn [for_each_load]. rewrite (load_item_record _ _ _ Hv).
    rewrite IH. reflexivity.
Qed.

(** X1. A text that parses to a list of well-formed records loads without
    an exception, and the store is the one obtained by setting every
    (path, name, values) in the order of the text: a later record for the
    same path and name replaces an earlier one, and the values of the last
    record of the text are what [get] returns for its path and name. *)
Theorem load_from_string_stores_records (self : ParameterValues.t)
  (text : string) (content : list value)
  (items : list (string * list (string * list value))) :
  yaml_load text = inl (VList content) ->
  Forall2 item_record content items ->
  load_from_string yaml_load format_s self text =
  (store_items self items, None) /\
  (forall before path ps n vs,
      items = (before ++ [(path, ps ++ [(n, vs)])])%list ->
      ParameterValues.get (store_items self items) path n = vs).
Proof.
  intros Hyaml Hitems. split.
  - unfold load_from_string. rewrite Hyaml. cbn [load_content].
    apply load_items_records. exact Hitems.
  - intros before path ps n vs ->.
    unfold store_items, store_parameters.
    rewrite fold_left_app. cbn [fold_left fst snd].
    rewrite fold_left_app. cbn [fold_left fst snd].
    unfold ParameterValues.get, ParameterValues.set. cbn [ParameterValues._values].
    rewrite dict_get_set_same. reflexivity.
Qed.

(** X2. A load is not atomic.  When the text does not parse, or its root
    is not a list, the store is left as it was; when a record lacks its
    path or its parameters, the loader raises its parsing error and the
    store keeps every record that came before. *)
Theorem load_rejects_malformed_item (self : ParameterValues.t) :
  (forall text message,
      yaml_load text = inr message ->
      load_from_string yaml_load format_s self text =
      (self, Some (ParameterValueParsingError message))) /\
  (forall d,
      load_content format_s self (VDict d) =
      (self, Some (ParameterValueParsingError "root is not a list"))) /\
  (forall good items bad rest,
      Forall2 item_record good items ->
      dict_get "path" bad = None ->
      load_content format_s self (VList (good ++ VDict bad :: rest)) =
      (store_items self items,
       Some (ParameterValueParsingError "item does not have path"))) /\
  (forall good items bad path rest,
      Forall2 item_record good items ->
      dict_get "path" bad = Some path ->
      dict_get "parameters" bad = None ->
      load_content format_s self (VList (good ++ VDict bad :: rest)) =
      (store_items self items,
       Some (ParameterValueParsingError "item does not have parameters"))).
Proof.
  split; [|split; [|split]].
  - intros text message H. unfold load_from_string. rewrite H. reflexivity.
  - intros d. reflexivity.
  - intros good items bad rest Hgood Hpath. cbn [load_content].
    rewrite for_each_load_app, (load_items_records _ _ Hgood).
    cbn [for_each_load]. unfold load_item, attempt, py_in, dict_has.
    rewrite Hpath. reflexivity.
  - intros good items bad path rest Hgood Hpath Hparams. cbn [load_content].
    rewrite for_each_load_app, (load_items_records _ _ Hgood).
    cbn [for_each_load]. unfold load_item, attempt, py_in, dict_has.
    rewrite Hpath, Hparams. reflexivity.
Qed.

(** X3. Inside a record, a parameter without a name, without values, or
    with values that are not a list raises the parsing error for it; the
    parameters of the record that came before it stay in the store. *)
Theorem load_rejects_malformed_parameter (self : ParameterValues.t)
  (item : dict) (path : string) (good : list value)
  (ps : list (string * list value)) (bad : dict) (rest after : list value) :
  dict_get "path" item = Some (VStr path) ->
  dict_get "parameters" item = Some (VList (good ++ VDict bad :: rest)) ->
  Forall2 parameter_record good ps ->
  (dict_get "name" bad = None ->
   load_content format_s self (VList (VDict item :: after)) =
   (store_parameters path self ps,
    Some (ParameterValueParsingError "parameter does not have name"))) /\
  (forall n,
      dict_get "name" bad = Some n ->
      dict_get "values" bad = None ->
      load_content format_s self (VList (VDict item :: after)) =
      (store_parameters path self ps,
       Some (ParameterValueParsingError "parameter does not have values"))) /\
  (forall n v,
      dict_get "name" bad = Some n ->
      dict_get "values" bad = Some v ->
      (forall vs, v <> VList vs) ->
      load_content format_s self (VList (VDict item :: after)) =
      (store_parameters path self ps,
       Some (ParameterValueParsingError "values is not a list"))).
Proof.
  intros Hpath Hparams Hgood.
  assert (Hitem : forall e,
             load_parameter format_s (VDict item)
               (store_parameters path self ps) (VDict bad) =
             (store_parameters path self ps, Some e) ->
             load_content format_s self (VList (VDict item :: after)) =
             (store_parameters path self ps, Some e)).
  { intros e Hbad. cbn [load_content for_each_load].
    unfold load_item, attempt, py_in, py_getitem, dict_has.
    rewrite Hpath, Hparams. cbn [negb py_iter].
    rewrite for_each_load_app.
    rewrite (load_parameters_records item path good ps Hpath Hgood).
    cbn [for_each_load]. rewrite Hbad. reflexivity. }
  split; [|split].
  - intros Hname. apply Hitem.
    unfold load_parameter, attempt, py_in, dict_has. rewrite Hname.
    reflexivity.
  - intros n Hname Hvalues. apply Hitem.
    unfold load_parameter, attempt, py_in, dict_has. rewrite Hname, Hvalues.
    reflexivity.
  - intros n v Hname Hvalues Hv. apply Hitem.
    unfold load_parameter, attempt, py_in, py_getitem, dict_has.
    rewrite Hname, Hvalues. cbn [negb].
    destruct v; try reflexivity. exfalso. exact (Hv l eq_refl).
Qed.

(** X4. A record that is a number, a boolean or null is not reported as a
    parsing error: the membership test on it raises [TypeError], which the
    loader lets through, after the records before it were stored. *)
Theorem load_leaks_type_error (self : ParameterValues.t)
  (good : list value) (items : list (string * list (string * list value)))
  (bad : value) (rest : list value) :
  Forall2 item_record good items ->
  (bad = VNone \/ (exists b, bad = VBool b) \/ (exists z, bad = VInt z)) ->
  load_content format_s self (VList (good ++ bad :: rest)) =
  (store_items self items, Some (PythonError TypeError)).
Proof.
  intros Hgood Hbad. cbn [load_content].
  rewrite for_each_load_app, (load_items_records _ _ Hgood).
  cbn [for_each_load].
  destruct Hbad as [-> | [[b ->] | [z ->]]]; reflexivity.
Qed.

End LoadingFacts.

(** ** The store of parameter values *)

Lemma key_injective (path path' n n' : string) :
  has_separator path = false ->
  has_separator path' = false ->
  ParameterValues.key path n = ParameterValues.key path' n' ->
  path = path' /\ n = n'.
Proof.
  unfold ParameterValues.key.
  revert path'. induction path as [|c path IH]; intros path' Hp Hp' H.
  - destruct path' as [|c' path'].
    + simpl in H. injection H as H. split; [reflexivity | exact H].
    + simpl in H. injection H as Hc _. subst c'.
      simpl in Hp'. discriminate.
  - destruct path' as [|c' path'].
    + simpl in H. injection H as Hc _. subst c.
      simpl in Hp. discriminate.
    + simpl in H. injection H as Hc H. subst c'.
      simpl in Hp, Hp'.
      apply orb_false_iff in Hp. apply orb_false_iff in Hp'.
      destruct (IH path' (proj2 Hp) (proj2 Hp') H) as [-> ->].
      split; reflexivity.
Qed.

(** X5. What was set for a path and a name is what [get] returns for them,
    and a store is never empty once something was set, even an empty list.
    When paths do not contain the separator ['|'], setting the values of
    one (path, name) leaves the values of every other pair as they were. *)
Theorem get_after_set (self : ParameterValues.t) (path n : string)
  (values : list value) :
  ParameterValues.get (ParameterValues.set self path n values) path n = values /\
  ParameterValues.is_empty (ParameterValues.set self path n values) = false /\
  (forall path' n',
      has_separator path = false ->
      has_separator path' = false ->
      (path', n') <> (path, n) ->
      ParameterValues.get (ParameterValues.set self path n values) path' n' =
      ParameterValues.get self path' n').
Proof.
  split; [|split].
  - unfold ParameterValues.get, ParameterValues.set. simpl.
    rewrite dict_get_set_same. reflexivity.
  - unfold ParameterValues.is_empty, ParameterValues.set. simpl.
    destruct (ParameterValues._values self) as [|[k v] d]; simpl.
    + reflexivity.
    + destruct (String.eqb (ParameterValues.key path n) k); reflexivity.
  - intros path' n' Hp Hp' Hne.
    unfold ParameterValues.get, ParameterValues.set. simpl.
    rewrite dict_get_set_other; [reflexivity|].
    apply String.eqb_neq. intros Hk.
    destruct (key_injective _ _ _ _ Hp' Hp Hk) as [-> ->].
    apply Hne. reflexivity.
Qed.

(** X6. The key of the store is the path, the separator and the name put
    together, so a path that contains the separator collides: the values
    set for the path [a|b] and the name [c] are returned for the path [a]
    and the name [b|c]. *)
Theorem key_collision (self : ParameterValues.t) (a b c : string)
  (values : list value) :
  ParameterValues.get
    (ParameterValues.set self (a ++ "|" ++ b) c values) a (b ++ "|" ++ c) =
  values.
Proof.
  assert (Hk : ParameterValues.key (a ++ "|" ++ b) c =
               ParameterValues.key a (b ++ "|" ++ c)).
  { unfold ParameterValues.key. induction a as [|ch a IH].
    - reflexivity.
    - simpl in *. f_equal. exact IH. }
  unfold ParameterValues.get, ParameterValues.set.
  cbn [ParameterValues._values]. rewrite <- Hk.
  rewrite dict_get_set_same. reflexivity.
Qed.

(** ** What the repairs change *)

Section RepairsMore.
Context {C : Collaborators}.

Lemma repaired_parameter (operation once : Operation) (k : string)
  (parameter' : Param) :
  _fix_common_spec_issues operation = Ok once ->
  In (k, parameter') (params once) ->
  exists parameter,
    In (k, parameter) (params operation) /\
    parameter' = set_param_spec parameter (repaired (param_spec parameter)).
Proof.
  rewrite _fix_common_spec_issues_repaired. intros H Hin.
  injection H as <-. cbn [params set_params] in Hin.
  apply in_map_iff in Hin. destruct Hin as [[k0 p] [Heq Hin]].
  unfold with_repaired_spec in Heq. cbn [fst snd] in Heq.
  injection Heq as <- <-. exists p. split; [exact Hin | reflexivity].
Qed.

(** X7. After the repair pass no parameter of type string has the format
    [string], a numeric format or the empty format, and no parameter with
    a numeric format has a default that is a string [isdigit] refuses. *)
Theorem repaired_specs_are_regular (operation once : Operation)
  (k : string) (parameter : Param) :
  _fix_common_spec_issues operation = Ok once ->
  In (k, parameter) (params once) ->
  (eq_str (get_or_none "type" (param_spec parameter)) "string" = true ->
   eq_str (get_or_none "format" (param_spec parameter)) "string" = false /\
   in_strs (get_or_none "format" (param_spec parameter)) invalid_formats
   = false) /\
  (in_strs (get_or_none "format" (param_spec parameter)) fix_formats = true ->
   forall s, get_or_none "default" (param_spec parameter) = VStr s ->
             isdigit s = true).
Proof.
  intros Hfix Hin.
  destruct (repaired_parameter _ _ _ _ Hfix Hin) as [p [_ ->]].
  cbn [param_spec set_param_spec].
  set (spec := param_spec p).
  assert (Hty : get_or_none "type" (repaired spec) = get_or_none "type" spec).
  { unfold get_or_none. rewrite repaired_other_keys; reflexivity. }
  assert (Hfmt : get_or_none "format" (repaired spec) =
                 if (eq_str (get_or_none "type" spec) "string"
                     && (eq_str (get_or_none "format" spec) "string"
                         || in_strs (get_or_none "format" spec)
                              invalid_formats))%bool
                 then VNone else get_or_none "format" spec).
  { unfold get_or_none at 1. rewrite repaired_format.
    destruct (eq_str (get_or_none "type" spec) "string"
              && (eq_str (get_or_none "format" spec) "string"
                  || in_strs (get_or_none "format" spec) invalid_formats))%bool;
      reflexivity. }
  split.
  - rewrite Hty, Hfmt. intros T. rewrite T. cbn [andb].
    destruct (eq_str (get_or_none "format" spec) "string"
              || in_strs (get_or_none "format" spec) invalid_formats)%bool
      eqn:E.
    + split; reflexivity.
    + apply orb_false_iff in E. exact E.
  - rewrite Hfmt, repaired_default. intros Hfx s.
    destruct (eq_str (get_or_none "type" spec) "string") eqn:T; cbn [andb] in *.
    + destruct (eq_str (get_or_none "format" spec) "string"
                || in_strs (get_or_none "format" spec) invalid_formats)%bool
        eqn:E; [discriminate|].
      apply orb_false_iff in E. destruct E as [_ E].
      rewrite (fix_formats_are_invalid _ Hfx) in E. discriminate.
    + rewrite Hfx. cbn [andb negb].
      destruct (get_or_none "default" spec); try discriminate.
      destruct (isdigit s0) eqn:D; cbn [negb].
      * intros H. injection H as <-. exact D.
      * discriminate.
Qed.


(** X9. The default of a spec is replaced by 0 exactly when the format is
    numeric, the type is not string and the default is a string that
    [isdigit] refuses.  For a parameter of type string the numeric format
    is removed first, so its default stays as it is, even the empty
    string. *)
Theorem default_is_coerced_for_numbers_only (operation once : Operation)
  (k : string) (parameter' : Param) :
  _fix_common_spec_issues operation = Ok once ->
  In (k, parameter') (params once) ->
  exists parameter,
    In (k, parameter) (params operation) /\
    get_or_none "default" (param_spec parameter') =
    match get_or_none "default" (param_spec parameter) with
    | VStr s =>
        if (in_strs (get_or_none "format" (param_spec parameter)) fix_formats
            && negb (eq_str (get_or_none "type" (param_spec parameter))
                       "string")
            && negb (isdigit s))%bool
        then VInt 0
        else VStr s
    | v => v
    end /\
    (eq_str (get_or_none "type" (param_spec parameter)) "string" = true ->
     get_or_none "default" (param_spec parameter') =
     get_or_none "default" (param_spec parameter)).
Proof.
  intros Hfix Hin.
  destruct (repaired_parameter _ _ _ _ Hfix Hin) as [p [Hp ->]].
  exists p. split; [exact Hp|]. cbn [param_spec set_param_spec].
  rewrite repaired_default. split; [reflexivity|].
  intros T. rewrite T. cbn [negb]. rewrite andb_false_r.
  destruct (get_or_none "default" (param_spec p)); reflexivity.
Qed.

End RepairsMore.

(** ** More on the synthesiser *)

Lemma default_value_not_none (t : string) (v : value) :
  dict_get t DEFAULT_VALUES_BY_TYPE = Some v -> is_none v = false.
Proof.
  unfold DEFAULT_VALUES_BY_TYPE. cbn [dict_get].
  repeat match goal with
         | |- context [if ?b then _ else _] => destruct b
         end;
    intros H; try discriminate; injection H as <-; reflexivity.
Qed.

Lemma dict_set_fresh {V : Type} (k : string) (v : V) (d : list (string * V)) :
  ~ In k (keys d) -> dict_set k v d = (d ++ [(k, v)])%list.
Proof.
  induction d as [|[k' v'] d IH]; simpl; intros H.
  - reflexivity.
  - destruct (String.eqb k k') eqn:E.
    + apply String.eqb_eq in E. subst k'. exfalso. apply H. left. reflexivity.
    + rewrite IH; [reflexivity|]. intros Hin. apply H. right. exact Hin.
Qed.

Section SynthesisMore.
Context {C : Collaborators}.
Variable w : world.

(** X10. The synthesiser never answers [None]: when it returns, it returns
    a value.  So [_try_to_set_param_value] never takes its [return False]:
    whenever it returns, it returns [True] with a fill that is not [None];
    and in the filled operation every parameter that was not skipped has a
    fill that is not [None]. *)
Theorem synthesis_never_gives_none :
  (forall (fuel : nat) (param_spec v : value),
      _get_param_value w fuel param_spec = Ok v -> v <> VNone) /\
  (forall (fuel : nat) (parameter parameter' : Param) (b : bool),
      _try_to_set_param_value (_get_param_value w fuel) parameter =
      Ok (b, parameter') ->
      b = true /\ exists v, fill parameter' = Some v /\ v <> VNone) /\
  (forall (fuel : nat) (optional : bool) (self_operation operation : Operation)
          (k : string) (parameter : Param),
      filled_operation w fuel optional self_operation = Ok operation ->
      In (k, parameter) (params operation) ->
      _should_skip_setting_param_value parameter optional = Ok false ->
      exists v, fill parameter = Some v /\ v <> VNone).
Proof.
  assert (Hnn : forall v, is_none v = false -> v <> VNone).
  { intros v H ->. discriminate. }
  split; [|split].
  - intros fuel spec v H. apply Hnn.
    exact (_get_param_value_not_none _ _ _ _ H).
  - intros fuel p p' b H. unfold _try_to_set_param_value in H.
    destruct (is_none (default p)) eqn:Ed; cbn [negb] in H.
    + apply bind_Ok in H. destruct H as [v [Hv H]].
      rewrite (_get_param_value_not_none _ _ _ _ Hv) in H. cbn [negb] in H.
      injection H as <- <-. split; [reflexivity|].
      exists v. split; [reflexivity|]. apply Hnn.
      exact (_get_param_value_not_none _ _ _ _ Hv).
    + injection H as <- <-. split; [reflexivity|].
      exists (default p). split; [reflexivity | apply Hnn; exact Ed].
  - intros fuel optional op operation k p H Hin Hskip.
    destruct (filled_operation_parameter _ _ _ _ _ _ _ H Hin)
      as [skip [Hskip' [_ Hf]]].
    rewrite Hskip in Hskip'. injection Hskip' as <-.
    destruct (Hf eq_refl) as [Hd Hv].
    destruct (is_none (default p)) eqn:Ed.
    + destruct (Hv eq_refl) as [v [_ [Hn Hfill]]].
      exists v. split; [exact Hfill | apply Hnn; exact Hn].
    + exists (default p). split; [exact (Hd eq_refl) | apply Hnn; exact Ed].
Qed.

Lemma type_and_spec_after_range (parameter_type : value) (d : dict) :
  enum_step (VDict d) = Ok None ->
  range_step w parameter_type (VDict d) = Ok None ->
  _get_param_value_for_type_and_spec w parameter_type (VDict d) =
  (default_value <- default_value_for parameter_type ;;
   if negb (is_none default_value) then Ok default_value
   else if eq_str parameter_type "string" then
     smart_fill (if is_none (get_or_none "name" d) then VStr "unknown"
                 else get_or_none "name" d)
   else if eq_str parameter_type "file" then
     smart_fill_file (if is_none (get_or_none "name" d) then VStr "unknown"
                      else get_or_none "name" d) "cat.png"
   else Ok VNone).
Proof.
  intros He Hr. unfold _get_param_value_for_type_and_spec.
  rewrite py_get_dict. cbn [bind]. rewrite He. cbn [bind]. rewrite Hr.
  reflexivity.
Qed.

Lemma range_step_not_numeric (parameter_type parameter_spec : value) :
  in_strs parameter_type numeric_types = false ->
  range_step w parameter_type parameter_spec = Ok None.
Proof. intros H. unfold range_step. rewrite H. reflexivity. Qed.

Lemma range_step_unbounded (parameter_type : value) (d : dict) :
  get_or_none "maximum" d = VNone -> get_or_none "minimum" d = VNone ->
  range_step w parameter_type (VDict d) = Ok None.
Proof.
  intros Hmax Hmin.
  destruct (in_strs parameter_type numeric_types) eqn:E.
  - rewrite (range_step_numeric w _ _ E), Hmax, Hmin. reflexivity.
  - apply range_step_not_numeric. exact E.
Qed.

Lemma _get_param_value_primitive (fuel : nat) (d : dict)
  (parameter_type v : value) :
  dict_get "schema" d = None ->
  _get_parameter_type (VDict d) = Ok parameter_type ->
  is_none parameter_type = false ->
  _get_param_value_for_type_and_spec w parameter_type (VDict d) = Ok v ->
  is_none v = false ->
  _get_param_value w (S fuel) (VDict d) = Ok v.
Proof.
  intros Hs Hpt Hn Hv Hvn.
  rewrite (_get_param_value_no_schema _ _ _ Hs).
  unfold _get_param_value_for_primitive. rewrite Hpt. cbn [bind].
  rewrite Hn, Hv. cbn [bind]. rewrite Hvn. cbn [negb bind]. rewrite Hvn.
  reflexivity.
Qed.

(** X11. A spec whose format, or else type, is in the value table, with no
    enum entry to take, is given the value of the table: always for
    boolean, date and date-time, and for the numeric types when neither
    [minimum] nor [maximum] is set. *)
Theorem typed_spec_gets_table_value (fuel : nat) (d : dict) (t : string)
  (v : value) :
  dict_get "schema" d = None ->
  _get_parameter_type (VDict d) = Ok (VStr t) ->
  dict_get t DEFAULT_VALUES_BY_TYPE = Some v ->
  enum_step (VDict d) = Ok None ->
  in_strs (VStr t) numeric_types = false \/
  (get_or_none "maximum" d = VNone /\ get_or_none "minimum" d = VNone) ->
  _get_param_value w (S fuel) (VDict d) = Ok v.
Proof.
  intros Hs Hpt Ht He Hr.
  assert (Hrange : range_step w (VStr t) (VDict d) = Ok None).
  { destruct Hr as [Hr | [Hmax Hmin]].
    - apply range_step_not_numeric. exact Hr.
    - apply range_step_unbounded; assumption. }
  apply (_get_param_value_primitive fuel d (VStr t) v Hs Hpt eq_refl).
  - rewrite (type_and_spec_after_range _ _ He Hrange).
    unfold default_value_for, get_or_none. cbn [hashable]. rewrite Ht.
    cbn [bind]. rewrite (default_value_not_none _ _ Ht). reflexivity.
  - exact (default_value_not_none _ _ Ht).
Qed.

(** X12. A spec of type string is given what the form filler answers for
    its name, and for ["unknown"] when it has no name; a spec of type file
    is given the file the form filler makes for that name and [cat.png].
    An exception of the form filler is the exception of the synthesis. *)
Theorem string_and_file_use_the_form_filler (fuel : nat) (d : dict) :
  dict_get "schema" d = None ->
  enum_step (VDict d) = Ok None ->
  (_get_parameter_type (VDict d) = Ok (VStr "string") ->
   (forall v,
       smart_fill (if is_none (get_or_none "name" d) then VStr "unknown"
                   else get_or_none "name" d) = Ok v ->
       v <> VNone ->
       _get_param_value w (S fuel) (VDict d) = Ok v) /\
   (forall e,
       smart_fill (if is_none (get_or_none "name" d) then VStr "unknown"
                   else get_or_none "name" d) = Raise e ->
       _get_param_value w (S fuel) (VDict d) = Raise e)) /\
  (_get_parameter_type (VDict d) = Ok (VStr "file") ->
   forall v,
     smart_fill_file (if is_none (get_or_none "name" d) then VStr "unknown"
                      else get_or_none "name" d) "cat.png" = Ok v ->
     v <> VNone ->
     _get_param_value w (S fuel) (VDict d) = Ok v).
Proof.
  intros Hs He.
  assert (Hnn : forall v, v <> VNone -> is_none v = false).
  { intros v H. destruct v; try reflexivity. contradiction. }
  split.
  - intros Hpt. split.
    + intros v Hv Hn.
      apply (_get_param_value_primitive fuel d (VStr "string") v Hs Hpt eq_refl).
      * rewrite (type_and_spec_after_range _ _ He
                   (range_step_not_numeric (VStr "string") (VDict d) eq_refl)).
        exact Hv.
      * exact (Hnn v Hn).
    + intros e Hv.
      rewrite (_get_param_value_no_schema _ _ _ Hs).
      unfold _get_param_value_for_primitive. rewrite Hpt. cbn [bind is_none].
      rewrite (type_and_spec_after_range _ _ He
                 (range_step_not_numeric (VStr "string") (VDict d) eq_refl)).
      cbn [default_value_for hashable bind]. 
      change (get_or_none "string" DEFAULT_VALUES_BY_TYPE) with VNone.
      cbn [bind is_none negb eq_str]. 
      change (String.eqb "string" "string") with true. cbn iota.
      rewrite Hv. reflexivity.
  - intros Hpt v Hv Hn.
    apply (_get_param_value_primitive fuel d (VStr "file") v Hs Hpt eq_refl).
    + rewrite (type_and_spec_after_range _ _ He
                 (range_step_not_numeric (VStr "file") (VDict d) eq_refl)).
      exact Hv.
    + exact (Hnn v Hn).
Qed.

End SynthesisMore.

(** ** Objects and references *)

Lemma create_object_loop (get_param_value : value -> result value)
  (props : dict) (outs acc : dict) :
  NoDup (keys acc ++ keys props)%list ->
  Forall2 (fun kv out =>
             fst out = fst kv /\
             exists property_data,
               snd kv = VDict property_data /\
               get_param_value (VDict (named_property (fst kv) property_data))
               = Ok (snd out))
          props outs ->
  foldM (fun created_object kv =>
           has_name <- py_in "name" (snd kv) ;;
           property_data <-
             (if negb has_name then
                py_setitem (snd kv) "name" (VStr (fst kv))
              else Ok (snd kv)) ;;
           v <- get_param_value property_data ;;
           Ok (dict_set (fst kv) v created_object))
        props acc =
  Ok (acc ++ outs)%list.
Proof.
  intros Hnd H. revert acc Hnd.
  induction H as [|[k pv] [k' v] props outs [Hk [pd [Hpd Hv]]] _ IH];
    intros acc Hnd.
  - simpl. rewrite app_nil_r. reflexivity.
  - cbn [fst snd] in *. subst k' pv. cbn [foldM fst snd].
    unfold named_property in Hv. unfold py_in, py_setitem. cbn [bind].
    destruct (dict_has "name" pd); cbn [negb bind]; rewrite Hv; cbn [bind].
    + rewrite dict_set_fresh.
      * rewrite IH.
        -- rewrite <- app_assoc. reflexivity.
        -- unfold keys in *. rewrite map_app. simpl.
           rewrite <- app_assoc. simpl. exact Hnd.
      * unfold keys in *. simpl in Hnd. apply NoDup_remove_2 in Hnd.
        intros Hin. apply Hnd. apply in_or_app. left. exact Hin.
    + rewrite dict_set_fresh.
      * rewrite IH.
        -- rewrite <- app_assoc. reflexivity.
        -- unfold keys in *. rewrite map_app. simpl.
           rewrite <- app_assoc. simpl. exact Hnd.
      * unfold keys in *. simpl in Hnd. apply NoDup_remove_2 in Hnd.
        intros Hin. apply Hnd. apply in_or_app. left. exact Hin.
Qed.

(** X13. For a definition of type object, [_create_object] answers a dict
    with one entry per declared property, in the order of the properties:
    the value synthesised for the spec of the property, to which the name
    of the property was added when the spec had no name. *)
Theorem create_object_fills_every_property
  (get_param_value : value -> result value) (d props outs : dict) :
  dict_get "type" d = Some (VStr "object") ->
  dict_get "properties" d = Some (VDict props) ->
  NoDup (keys props) ->
  Forall2 (fun kv out =>
             fst out = fst kv /\
             exists property_data,
               snd kv = VDict property_data /\
               get_param_value (VDict (named_property (fst kv) property_data))
               = Ok (snd out))
          props outs ->
  _create_object get_param_value (VDict d) = Ok (VDict outs).
Proof.
  intros Ht Hp Hnd H. unfold _create_object.
  rewrite py_get_dict. unfold get_or_none. rewrite Ht.
  cbn [bind eq_str String.eqb Ascii.eqb Bool.eqb negb].
  rewrite (py_getitem_present _ _ _ Hp). cbn [bind py_iteritems].
  rewrite (create_object_loop get_param_value props outs [] Hnd H).
  reflexivity.
Qed.

Section ReferencesMore.
Context {C : Collaborators}.
Variable w : world.

Lemma _get_param_value_untyped (fuel : nat) (d : dict) :
  dict_get "schema" d = None ->
  dict_get "format" d = None ->
  dict_get "type" d = None ->
  _get_param_value w (S fuel) (VDict d) =
  _get_param_value_for_model (_get_param_value w fuel) fuel (VDict d).
Proof.
  intros Hs Hf Ht. rewrite (_get_param_value_no_schema _ _ _ Hs).
  unfold _get_param_value_for_primitive.
  rewrite (_get_parameter_type_none _ Hf Ht). cbn [bind is_none negb].
  destruct (_get_param_value_for_model (_get_param_value w fuel) fuel (VDict d))
    as [v|e] eqn:E; [|reflexivity].
  cbn [bind].
  destruct (_get_param_value_for_model_dict _ _ _ _ E) as [o ->].
  reflexivity.
Qed.

Lemma impl_plain (fuel : nat) (d : dict) :
  dict_get "$ref" d = None ->
  dict_get "allOf" d = None ->
  dict_get "schema" d = None ->
  _get_object_definition_impl (S fuel) (VDict d) = Ok (VDict d).
Proof.
  intros Hr Ha Hs. cbn [_get_object_definition_impl].
  rewrite (py_in_absent _ _ Hr). cbn [bind].
  rewrite (py_in_absent _ _ Ha). cbn [bind].
  rewrite (py_in_absent _ _ Hs). cbn [bind].
  unfold py_in, py_getitem, dict_has.
  destruct (dict_get "type" d); reflexivity.
Qed.

Lemma impl_reference (fuel : nat) (d target : dict) (r : value) :
  dict_get "$ref" d = Some r ->
  deref (VDict [("$ref", r)]) = Ok (VDict target) ->
  dict_get "allOf" target = None ->
  dict_get "schema" target = None ->
  _get_object_definition_impl (S fuel) (VDict d) = Ok (VDict target).
Proof.
  intros Hr Hd Ha Hs. cbn [_get_object_definition_impl].
  rewrite (py_in_present _ _ _ Hr). cbn [bind].
  rewrite (py_getitem_present _ _ _ Hr). cbn [bind]. rewrite Hd. cbn [bind].
  rewrite (py_in_absent _ _ Ha). cbn [bind].
  rewrite (py_in_absent _ _ Hs). cbn [bind].
  unfold py_in, py_getitem, dict_has.
  destruct (dict_get "type" target); reflexivity.
Qed.

(** X14. A spec of type object that declares no [properties] cannot be
    synthesised: [_create_object] subscripts the missing key and the
    [KeyError] comes out of [_get_param_value]. *)
Theorem object_without_properties_raises (fuel : nat) (d : dict) :
  dict_get "schema" d = None ->
  dict_get "format" d = None ->
  dict_get "type" d = Some (VStr "object") ->
  enum_step (VDict d) = Ok None ->
  dict_get "$ref" d = None ->
  dict_get "allOf" d = None ->
  dict_get "properties" d = None ->
  _get_param_value w (S (S fuel)) (VDict d) = Raise KeyError.
Proof.
  intros Hs Hf Ht He Hr Ha Hp.
  rewrite (_get_param_value_no_schema _ _ _ Hs).
  unfold _get_param_value_for_primitive.
  rewrite (_get_parameter_type_type _ _ Hf Ht). cbn [bind is_none].
  rewrite (type_and_spec_after_range w (VStr "object") d He
             (range_step_not_numeric w (VStr "object") (VDict d) eq_refl)).
  cbn [default_value_for hashable bind].
  change (get_or_none "object" DEFAULT_VALUES_BY_TYPE) with VNone.
  cbn [bind is_none negb eq_str].
  change (String.eqb "object" "string") with false.
  change (String.eqb "object" "file") with false.
  cbn iota. cbn [bind is_none negb].
  unfold _get_param_value_for_array. rewrite py_get_dict.
  unfold get_or_none at 1. rewrite Ht.
  cbn [bind eq_str]. change (String.eqb "object" "array") with false.
  cbn [negb bind is_none].
  unfold _get_param_value_for_model, _get_object_definition.
  rewrite (impl_plain fuel d Hr Ha Hs). cbn [bind].
  unfold _create_object. rewrite py_get_dict. unfold get_or_none. rewrite Ht.
  cbn [bind eq_str]. change (String.eqb "object" "object") with true.
  cbn [negb]. unfold py_getitem. rewrite Hp. reflexivity.
Qed.

(** X15. A spec that is a reference is always treated as a model.  When
    the definition it names is not of type object, a string definition
    for instance, the value is the empty dict; when the reference cannot
    be resolved, the exception of [deref] is the exception of the
    synthesis. *)
Theorem reference_is_treated_as_model (fuel : nat) (d : dict) (r : value) :
  dict_get "schema" d = None ->
  dict_get "format" d = None ->
  dict_get "type" d = None ->
  dict_get "$ref" d = Some r ->
  (forall target,
      deref (VDict [("$ref", r)]) = Ok (VDict target) ->
      dict_get "allOf" target = None ->
      dict_get "schema" target = None ->
      eq_str (get_or_none "type" target) "object" = false ->
      _get_param_value w (S (S fuel)) (VDict d) = Ok (VDict [])) /\
  (forall e,
      deref (VDict [("$ref", r)]) = Raise e ->
      _get_param_value w (S (S fuel)) (VDict d) = Raise e).
Proof.
  intros Hs Hf Ht Hr. split.
  - intros target Hd Ha Hsc Hty.
    rewrite (_get_param_value_untyped _ _ Hs Hf Ht).
    unfold _get_param_value_for_model, _get_object_definition.
    rewrite (impl_reference fuel d target r Hr Hd Ha Hsc). cbn [bind].
    unfold _create_object. rewrite py_get_dict. cbn [bind]. rewrite Hty.
    reflexivity.
  - intros e Hd.
    rewrite (_get_param_value_untyped _ _ Hs Hf Ht).
    unfold _get_param_value_for_model, _get_object_definition.
    cbn [_get_object_definition_impl].
    rewrite (py_in_present _ _ _ Hr). cbn [bind].
    rewrite (py_getitem_present _ _ _ Hr). cbn [bind]. rewrite Hd.
    reflexivity.
Qed.

(** X16. A definition that refers to itself is never synthesised: when the
    first property of the object a reference names is that reference
    again, the synthesis of the reference runs into the recursion limit,
    however large the limit. *)
Theorem self_reference_exhausts_recursion (r : value) (target : dict)
  (k : string) (property_data : dict) (rest : dict) :
  deref (VDict [("$ref", r)]) = Ok (VDict target) ->
  dict_get "allOf" target = None ->
  dict_get "schema" target = None ->
  dict_get "type" target = Some (VStr "object") ->
  dict_get "properties" target = Some (VDict ((k, VDict property_data) :: rest)) ->
  dict_get "schema" property_data = None ->
  dict_get "format" property_data = None ->
  dict_get "type" property_data = None ->
  dict_get "$ref" property_data = Some r ->
  forall (fuel : nat) (d : dict),
    dict_get "schema" d = None ->
    dict_get "format" d = None ->
    dict_get "type" d = None ->
    dict_get "$ref" d = Some r ->
    _get_param_value w fuel (VDict d) = Raise RecursionLimit.
Proof.
  intros Hd Ha Hsc Hty Hprops Hps Hpf Hpt Hpr.
  induction fuel as [|fuel IH]; intros d Hs Hf Ht Hr.
  - reflexivity.
  - rewrite (_get_param_value_untyped _ _ Hs Hf Ht).
    unfold _get_param_value_for_model, _get_object_definition.
    destruct fuel as [|fuel]; [reflexivity|].
    rewrite (impl_reference fuel d target r Hr Hd Ha Hsc). cbn [bind].
    unfold _create_object. rewrite py_get_dict. unfold get_or_none.
    rewrite Hty. cbn [bind eq_str].
    change (String.eqb "object" "object") with true. cbn [negb].
    rewrite (py_getitem_present _ _ _ Hprops). cbn [bind py_iteritems foldM].
    cbn [fst snd]. unfold py_in at 1. cbn [bind].
    destruct (dict_has "name" property_data) eqn:En; cbn [negb bind].
    + rewrite (IH property_data Hps Hpf Hpt Hpr). reflexivity.
    + unfold py_setitem. cbn [bind].
      rewrite (IH (dict_set "name" (VStr k) property_data)).
      * reflexivity.
      * rewrite dict_get_set_other by reflexivity. exact Hps.
      * rewrite dict_get_set_other by reflexivity. exact Hpf.
      * rewrite dict_get_set_other by reflexivity. exact Hpt.
      * rewrite dict_get_set_other by reflexivity. exact Hpr.
Qed.

End ReferencesMore.

(** ** The recursion limit *)

Lemma foldM_mono {A B : Type} (f g : B -> A -> result B) (xs : list A) :
  (forall acc x r, f acc x = Ok r -> g acc x = Ok r) ->
  forall acc r, foldM f xs acc = Ok r -> foldM g xs acc = Ok r.
Proof.
  intros Hfg. induction xs as [|x xs IH]; intros acc r H; simpl in *.
  - exact H.
  - apply bind_Ok in H. destruct H as [acc' [Hx H]].
    rewrite (Hfg _ _ _ Hx). simpl. exact (IH _ _ H).
Qed.

Lemma merge_part_mono (f g : value -> result value) :
  (forall s v, f s = Ok v -> g s = Ok v) ->
  forall merged part r,
    merge_part f merged part = Ok r -> merge_part g merged part = Ok r.
Proof.
  intros Hfg merged part r H. unfold merge_part in *.
  apply bind_Ok in H. destruct H as [od [Hod H]].
  rewrite (Hfg _ _ Hod). exact H.
Qed.

Lemma _merge_all_parts_mono (f g : value -> result value) :
  (forall s v, f s = Ok v -> g s = Ok v) ->
  forall all_parts r,
    _merge_all_parts f all_parts = Ok r -> _merge_all_parts g all_parts = Ok r.
Proof.
  intros Hfg all_parts r H. unfold _merge_all_parts in *.
  apply bind_Ok in H. destruct H as [parts [Hparts H]].
  rewrite Hparts. cbn [bind].
  apply bind_Ok in H. destruct H as [merged [Hm H]].
  rewrite (foldM_mono _ _ _ (merge_part_mono f g Hfg) _ _ Hm). exact H.
Qed.

Lemma _get_param_value_for_array_mono (f g : value -> result value) :
  (forall s v, f s = Ok v -> g s = Ok v) ->
  forall param_spec r,
    _get_param_value_for_array f param_spec = Ok r ->
    _get_param_value_for_array g param_spec = Ok r.
Proof.
  intros Hfg spec r H. unfold _get_param_value_for_array in *.
  apply bind_Ok in H. destruct H as [type [Ht H]]. rewrite Ht. cbn [bind].
  destruct (negb (eq_str type "array")); [exact H|].
  apply bind_Ok in H. destruct H as [items [Hi H]]. rewrite Hi. cbn [bind].
  destruct (is_none items); [exact H|].
  apply bind_Ok in H. destruct H as [hd [Hhd H]]. rewrite Hhd. cbn [bind].
  destruct hd; [exact H|].
  apply bind_Ok in H. destruct H as [v [Hv H]].
  rewrite (Hfg _ _ Hv). exact H.
Qed.

Lemma _create_object_mono (f g : value -> result value) :
  (forall s v, f s = Ok v -> g s = Ok v) ->
  forall param_spec r,
    _create_object f param_spec = Ok r -> _create_object g param_spec = Ok r.
Proof.
  intros Hfg spec r H. unfold _create_object in *.
  apply bind_Ok in H. destruct H as [type [Ht H]]. rewrite Ht. cbn [bind].
  destruct (negb (eq_str type "object")); [exact H|].
  apply bind_Ok in H. destruct H as [props [Hp H]]. rewrite Hp. cbn [bind].
  apply bind_Ok in H. destruct H as [kvs [Hk H]]. rewrite Hk. cbn [bind].
  apply bind_Ok in H. destruct H as [created [Hc H]].
  erewrite foldM_mono; [exact H | | exact Hc].
  intros acc kv r0 Hstep. cbn beta in *.
  apply bind_Ok in Hstep. destruct Hstep as [hn [Hhn Hstep]].
  rewrite Hhn. cbn [bind].
  apply bind_Ok in Hstep. destruct Hstep as [pd [Hpd Hstep]].
  rewrite Hpd. cbn [bind].
  apply bind_Ok in Hstep. destruct Hstep as [v [Hv Hstep]].
  rewrite (Hfg _ _ Hv). exact Hstep.
Qed.

Section RecursionLimit.
Context {C : Collaborators}.
Variable w : world.

Lemma _get_object_definition_impl_S (fuel : nat) (param_spec : value) :
  _get_object_definition_impl (S fuel) param_spec =
  (has_ref <- py_in "$ref" param_spec ;;
   param_spec <-
     (if has_ref then
        r <- py_getitem param_spec "$ref" ;;
        deref (VDict [("$ref", r)])
      else Ok param_spec) ;;
   has_all_of <- py_in "allOf" param_spec ;;
   param_spec <-
     (if has_all_of then
        all_parts <- py_getitem param_spec "allOf" ;;
        _merge_all_parts (_get_object_definition_impl fuel) all_parts
      else Ok param_spec) ;;
   has_schema <- py_in "schema" param_spec ;;
   param_spec <-
     (if has_schema then
        schema <- py_getitem param_spec "schema" ;;
        schema_has_ref <- py_in "$ref" schema ;;
        if schema_has_ref then
          r <- py_getitem schema "$ref" ;;
          deref (VDict [("$ref", r)])
        else Ok schema
      else Ok param_spec) ;;
   has_type <- py_in "type" param_spec ;;
   _ <- (if has_type then py_getitem param_spec "type" else Ok VNone) ;;
   Ok param_spec).
Proof. reflexivity. Qed.

Lemma _get_object_definition_impl_mono (fuel : nat) :
  forall param_spec v,
    _get_object_definition_impl fuel param_spec = Ok v ->
    _get_object_definition_impl (S fuel) param_spec = Ok v.
Proof.
  induction fuel as [|fuel IH]; intros spec v H; [discriminate|].
  rewrite _get_object_definition_impl_S in H.
  rewrite (_get_object_definition_impl_S (S fuel)).
  apply bind_Ok in H. destruct H as [a1 [H1 H]]. rewrite H1. cbn [bind].
  apply bind_Ok in H. destruct H as [a2 [H2 H]]. rewrite H2. cbn [bind].
  apply bind_Ok in H. destruct H as [a3 [H3 H]]. rewrite H3. cbn [bind].
  apply bind_Ok in H. destruct H as [a4 [H4 H]].
  assert (H4' : (if a3 then
                   all_parts <- py_getitem a2 "allOf" ;;
                   _merge_all_parts (_get_object_definition_impl (S fuel))
                     all_parts
                 else Ok a2) = Ok a4).
  { destruct a3; [|exact H4].
    apply bind_Ok in H4. destruct H4 as [ap [Hap H4]].
    rewrite Hap. cbn [bind].
    exact (_merge_all_parts_mono _ _ IH _ _ H4). }
  rewrite H4'. exact H.
Qed.

Lemma _get_param_value_mono (fuel : nat) :
  forall param_spec v,
    _get_param_value w fuel param_spec = Ok v ->
    _get_param_value w (S fuel) param_spec = Ok v.
Proof.
  induction fuel as [|fuel IH]; intros spec v H; [discriminate|].
  rewrite _get_param_value_S in H. rewrite (_get_param_value_S w (S fuel)).
  apply bind_Ok in H. destruct H as [a1 [H1 H]]. rewrite H1. cbn [bind].
  apply bind_Ok in H. destruct H as [a2 [H2 H]]. rewrite H2. cbn [bind].
  apply bind_Ok in H. destruct H as [v1 [Hp H]].
  assert (Hp' : _get_param_value_for_primitive w
                  (_get_param_value w (S fuel)) a2 = Ok v1).
  { unfold _get_param_value_for_primitive in *.
    apply bind_Ok in Hp. destruct Hp as [pt [Hpt Hp]]. rewrite Hpt. cbn [bind].
    destruct (is_none pt); [exact Hp|].
    apply bind_Ok in Hp. destruct Hp as [v2 [Hv2 Hp]]. rewrite Hv2. cbn [bind].
    destruct (negb (is_none v2)); [exact Hp|].
    apply bind_Ok in Hp. destruct Hp as [v3 [Hv3 Hp]].
    rewrite (_get_param_value_for_array_mono _ _ IH _ _ Hv3). exact Hp. }
  rewrite Hp'. cbn [bind].
  destruct (negb (is_none v1)); [exact H|].
  apply bind_Ok in H. destruct H as [v4 [Hm H]].
  assert (Hm' : _get_param_value_for_model (_get_param_value w (S fuel))
                  (S fuel) a2 = Ok v4).
  { unfold _get_param_value_for_model, _get_object_definition in *.
    apply bind_Ok in Hm. destruct Hm as [def [Hdef Hm]].
    rewrite (_get_object_definition_impl_mono _ _ _ Hdef). cbn [bind].
    apply bind_Ok in Hm. destruct Hm as [created [Hc Hm]].
    rewrite (_create_object_mono _ _ IH _ _ Hc). exact Hm. }
  rewrite Hm'. exact H.
Qed.

(** X17. A value that the synthesis reaches within some recursion depth
    is the value it reaches with any larger limit: the limit decides
    whether the synthesis returns, never what it returns. *)
Theorem value_does_not_depend_on_the_limit (fuel more : nat)
  (param_spec v : value) :
  (fuel <= more)%nat ->
  _get_param_value w fuel param_spec = Ok v ->
  _get_param_value w more param_spec = Ok v.
Proof.
  intros Hle H. induction Hle as [|more _ IH].
  - exact H.
  - apply _get_param_value_mono. exact IH.
Qed.

End RecursionLimit.

(** ** More on skipping and expanding *)

Lemma mapM_ext_in {A B : Type} (f g : A -> result B) (xs : list A) :
  (forall x, In x xs -> f x = g x) -> mapM f xs = mapM g xs.
Proof.
  induction xs as [|x xs IH]; intros H; simpl.
  - reflexivity.
  - rewrite (H x (or_introl eq_refl)).
    rewrite IH by (intros y Hy; apply H; right; exact Hy). reflexivity.
Qed.

Lemma foldM_ext_in {A B : Type} (f g : B -> A -> result B) (xs : list A) :
  (forall acc x, In x xs -> f acc x = g acc x) ->
  forall acc, foldM f xs acc = foldM g xs acc.
Proof.
  induction xs as [|x xs IH]; intros H acc; simpl.
  - reflexivity.
  - rewrite (H acc x (or_introl eq_refl)).
    destruct (g acc x); simpl; [|reflexivity].
    apply IH. intros acc' y Hy. apply H. right. exact Hy.
Qed.

Lemma _should_skip_required (parameter : Param) (optional optional' : bool) :
  required parameter = true ->
  _should_skip_setting_param_value parameter optional =
  _should_skip_setting_param_value parameter optional'.
Proof.
  intros Hr. unfold _should_skip_setting_param_value. rewrite Hr.
  destruct (_is_header_with_default parameter) as [[|]|]; reflexivity.
Qed.

(** X18. A parameter is skipped only when it is not required and the
    optional flag is off.  For a parameter that is not a header the test
    never raises and is exactly that; for a header without default whose
    [enum] is a number or a boolean, [len] raises [TypeError]. *)
Theorem skip_is_for_optional_parameters :
  (forall (parameter : Param) (optional : bool),
      _should_skip_setting_param_value parameter optional = Ok true ->
      required parameter = false /\ optional = false) /\
  (forall (parameter : Param) (optional : bool),
      _is_header parameter = false ->
      _should_skip_setting_param_value parameter optional =
      Ok (negb (required parameter) && negb optional)%bool) /\
  (forall (parameter : Param) (optional : bool),
      _is_header parameter = true ->
      get_or_none "default" (param_spec parameter) = VNone ->
      (exists z, get_or_none "enum" (param_spec parameter) = VInt z) \/
      (exists b, get_or_none "enum" (param_spec parameter) = VBool b) ->
      _should_skip_setting_param_value parameter optional = Raise TypeError).
Proof.
  split; [|split].
  - intros p optional H. unfold _should_skip_setting_param_value in H.
    destruct (_is_header_with_default p) as [[|]|]; cbn [bind] in H;
      try discriminate.
    destruct (required p), optional; cbn in H; try discriminate.
    split; reflexivity.
  - intros p optional Hh.
    unfold _should_skip_setting_param_value, _is_header_with_default.
    rewrite Hh. cbn [bind].
    destruct (negb (required p) && negb optional)%bool; reflexivity.
  - intros p optional Hh Hd He.
    unfold _should_skip_setting_param_value, _is_header_with_default,
      _parameter_has_default, _spec_has_default.
    rewrite Hh, !py_get_dict, Hd. cbn [bind is_none negb].
    destruct He as [[z ->] | [b ->]]; reflexivity.
Qed.



Section ExpansionMore.
Context {C : Collaborators}.
Variable w : world.


(** X19. When the operation has no optional parameter, the optional flag
    changes nothing: the expansion with the flag on is the expansion with
    the flag off, the same operations or the same exception. *)
Theorem optional_flag_is_irrelevant_without_optionals (fuel : nat)
  (custom_parameter_values : ParameterValues.t) (self_operation : Operation) :
  NoDup (keys (params self_operation)) ->
  operation_has_optional_params self_operation = false ->
  set_operation_params w fuel true custom_parameter_values self_operation =
  set_operation_params w fuel false custom_parameter_values self_operation.
Proof.
  intros Hnd Hopt.
  assert (Hreq : forall kp, In kp (params self_operation) ->
                            required (snd kp) = true).
  { intros kp Hin. unfold operation_has_optional_params in Hopt.
    destruct (required (snd kp)) eqn:E; [reflexivity|].
    assert (Hex : existsb (fun kp => negb (required (snd kp)))
                    (params self_operation) = true).
    { apply existsb_exists. exists kp. split; [exact Hin|].
      rewrite E. reflexivity. }
    rewrite Hex in Hopt. discriminate. }
  assert (Hfilled : filled_operation w fuel true self_operation =
                    filled_operation w fuel false self_operation).
  { rewrite !(filled_operation_loop w _ _ _ Hnd).
    rewrite (mapM_ext_in
               (fill_param (_get_param_value w fuel) true)
               (fill_param (_get_param_value w fuel) false)).
    - reflexivity.
    - intros kp Hin. apply in_map_iff in Hin. destruct Hin as [kp0 [<- Hin0]].
      unfold fill_param.
      rewrite (_should_skip_required _ true false); [reflexivity|].
      cbn. exact (Hreq kp0 Hin0). }
  unfold set_operation_params. rewrite Hfilled.
  destruct (filled_operation w fuel false self_operation) as [operation|e] eqn:E;
    [|reflexivity].
  cbn [bind].
  destruct (ParameterValues.is_empty custom_parameter_values); [reflexivity|].
  apply foldM_ext_in. intros acc [k p] Hin. unfold override_param.
  cbn [fst snd].
  rewrite (_should_skip_required p true false); [reflexivity|].
  rewrite (filled_operation_loop w _ _ _ Hnd) in E.
  apply bind_Ok in E. destruct E as [ps [Hps E]]. injection E as <-.
  cbn [params set_params] in Hin.
  destruct (mapM_In _ _ _ Hps _ Hin) as [kp0 [Hin0 Hkp0]].
  destruct (fill_param_result _ _ _ _ Hkp0) as [_ [_ [Hr _]]].
  cbn [snd] in Hr. rewrite Hr.
  apply in_map_iff in Hin0. destruct Hin0 as [kp1 [<- Hin1]].
  cbn. exact (Hreq kp1 Hin1).
Qed.



(** X21. When the store holds no values for the parameters of the
    operation, the expansion is the filled operation alone, whether the
    store is empty or holds values for other paths and names. *)
Theorem expansion_without_values_is_the_baseline (fuel : nat) (optional : bool)
  (custom_parameter_values : ParameterValues.t)
  (self_operation operation : Operation) :
  NoDup (keys (params self_operation)) ->
  filled_operation w fuel optional self_operation = Ok operation ->
  (forall k parameter,
      In (k, parameter) (params operation) ->
      ParameterValues.get custom_parameter_values (path_name operation)
        (name parameter) = []) ->
  set_operation_params w fuel optional custom_parameter_values self_operation =
  Ok [operation].
Proof.
  intros Hnd H Hnone.
  rewrite (set_operation_params_product w _ _ custom_parameter_values _ _ Hnd H).
  rewrite cartesian_product_nothing; [reflexivity|].
  intros kv Hkv. unfold overrides in Hkv. apply in_map_iff in Hkv.
  destruct Hkv as [[k p] [<- Hin]]. cbn [fst snd]. unfold override_values.
  destruct (_should_skip_setting_param_value p optional) as [[|]|];
    try reflexivity.
  exact (Hnone k p Hin).
Qed.

(** X22. Values given one at a time never multiply the operations: when
    no parameter has more than one value, the expansion is one operation,
    with the given value at every overridden parameter and the baseline
    fill at every other one. *)
Theorem single_values_keep_one_operation (fuel : nat) (optional : bool)
  (custom_parameter_values : ParameterValues.t)
  (self_operation operation : Operation) :
  NoDup (keys (params self_operation)) ->
  filled_operation w fuel optional self_operation = Ok operation ->
  (forall k vs,
      In (k, vs) (overrides optional custom_parameter_values operation) ->
      (List.length vs <= 1)%nat) ->
  exists o,
    set_operation_params w fuel optional custom_parameter_values
      self_operation = Ok [o] /\
    (forall k vs,
        In (k, vs)
           (overridden (overrides optional custom_parameter_values operation)) ->
        exists v, vs = [v] /\ fill_at k o = Some v) /\
    (forall k,
        ~ In k (keys (overridden
                        (overrides optional custom_parameter_values
                           operation))) ->
        fill_at k o = fill_at k operation).
Proof.
  intros Hnd H Hone.
  set (ovs := overrides optional custom_parameter_values operation) in *.
  assert (Hsize : product_of_sizes ovs = 1%nat).
  { unfold product_of_sizes, overridden. clearbody ovs.
    induction ovs as [|[k vs] ovs IH]; [reflexivity|].
    cbn [filter snd].
    assert (Hvs := Hone k vs (or_introl eq_refl)).
    assert (IH' := IH (fun k' vs' Hin => Hone k' vs' (or_intror Hin))).
    destruct vs as [|v [|v' vs]].
    - exact IH'.
    - cbn [map fold_right snd List.length]. rewrite IH'. reflexivity.
    - simpl in Hvs. lia. }
  assert (Hnd' : NoDup (keys ovs)).
  { unfold ovs. rewrite overrides_keys.
    rewrite (filled_operation_keys w _ _ _ _ H). exact Hnd. }
  assert (Hkeys : forall o k, In o [operation] -> In k (keys ovs) ->
                              In k (keys (params o))).
  { intros o k [<- | []] Hk. unfold ovs in Hk.
    rewrite overrides_keys in Hk. exact Hk. }
  pose proof (cartesian_product_length ovs [operation]) as Hlen.
  rewrite Hsize in Hlen. cbn in Hlen.
  destruct (cartesian_product ovs [operation]) as [|o [|o' os]] eqn:E;
    try discriminate.
  exists o. split.
  - rewrite (set_operation_params_product w _ _ custom_parameter_values _ _
               Hnd H).
    fold ovs. rewrite E. reflexivity.
  - destruct (cartesian_product_sound ovs Hnd' [operation] Hkeys o)
      as [o0 [[<- | []] [Hov Hrest]]].
    { rewrite E. left. reflexivity. }
    split; [|exact Hrest].
    intros k vs Hin. destruct (Hov k vs Hin) as [v [Hv Hfill]].
    assert (Hvs : (List.length vs <= 1)%nat).
    { apply (Hone k vs). unfold overridden in Hin.
      apply filter_In in Hin. exact (proj1 Hin). }
    destruct vs as [|v0 [|v1 vs]].
    + contradiction.
    + destruct Hv as [<- | []]. exists v0. split; [reflexivity | exact Hfill].
    + simpl in Hvs. lia.
Qed.

End ExpansionMore.

(** X23. [_set_custom_parameter_values] with no value returns the list it
    was given without looking at it.  With values, it needs the parameter
    in every operation: the first operation that does not have it makes
    the assignment raise [KeyError]. *)
Theorem set_custom_values_needs_the_parameter (k : string) :
  (forall operations,
      _set_custom_parameter_values operations k [] = Ok operations) /\
  (forall (good : list Operation) (bad : Operation) (rest : list Operation)
          (v : value) (values : list value),
      (forall o, In o good ->
                 In k (keys (params o)) /\ NoDup (keys (params o))) ->
      NoDup (keys (params bad)) ->
      ~ In k (keys (params bad)) ->
      _set_custom_parameter_values (good ++ bad :: rest) k (v :: values) =
      Raise KeyError).
Proof.
  split; [reflexivity|].
  intros good bad rest v values Hgood Hnd Hk.
  assert (Hbad : forall x, set_param_fill k x bad = Raise KeyError).
  { intros x. unfold set_param_fill.
    rewrite (dict_get_not_in_keys _ _ Hk). reflexivity. }
  assert (HmapM : forall (A B : Type) (f : A -> result B) (a : list A)
                         (b : A) (c : list A) (e : exn),
             (forall x, In x a -> exists y, f x = Ok y) ->
             f b = Raise e ->
             mapM f (a ++ b :: c) = Raise e).
  { intros A B f a b c e Ha Hb. induction a as [|x a IH]; simpl.
    - rewrite Hb. reflexivity.
    - destruct (Ha x (or_introl eq_refl)) as [y Hy]. rewrite Hy. simpl.
      rewrite IH; [reflexivity|]. intros z Hz. apply Ha. right. exact Hz. }
  unfold _set_custom_parameter_values.
  destruct values as [|v' values].
  - apply HmapM; [|apply Hbad].
    intros o Ho. exists (with_fill k v o).
    apply set_param_fill_present. apply (Hgood o Ho).
  - rewrite (HmapM _ _ _ good bad rest KeyError); [reflexivity | |].
    + intros o Ho. destruct (Hgood o Ho) as [Hin Hndo].
      exists (map (fun x => with_fill k x o) (v :: v' :: values)).
      apply mapM_pure. intros x _. rewrite (_copy_same o Hndo). cbn [bind].
      apply set_param_fill_present. exact Hin.
    + cbn [mapM]. rewrite (_copy_same bad Hnd). cbn [bind].
      rewrite Hbad. reflexivity.
Qed.

(** X24. The copy of an operation is the operation: the same path, method
    and parameters, with the fill of every parameter that has one and no
    fill for a parameter that has none. *)
Theorem copy_keeps_every_fill (operation : Operation) :
  NoDup (keys (params operation)) ->
  _copy operation = Ok operation.
Proof. intros Hnd. exact (_copy_same _ Hnd). Qed.

(** ** The further theorems at work on the examples *)

Lemma example_records :
  Forall2 item_record
    [VDict [("path", VStr "/pets");
            ("parameters",
             VList [VDict [("name", VStr "p1");
                           ("values", VList [VStr "a"; VStr "b"])];
                    VDict [("name", VStr "p2");
                           ("values", VList [VInt 1; VInt 2])]])]]
    [("/pets", [("p1", [VStr "a"; VStr "b"]); ("p2", [VInt 1; VInt 2])])].
Proof.
  constructor; [|constructor].
  eexists. eexists. split; [reflexivity|]. split; [reflexivity|].
  split; [reflexivity|].
  constructor; [|constructor; [|constructor]];
    eexists; (split; [reflexivity|]); split; reflexivity.
Defined.

Lemma load_from_string_stores_records_witness :
  load_from_string example_yaml_load example_format_s ParameterValues.init
    "overrides" = (example_overrides, None) /\
  ParameterValues.get example_overrides "/pets" "p2" = [VInt 1; VInt 2].
Proof.
  destruct (load_from_string_stores_records example_yaml_load example_format_s
              (fun s => eq_refl) ParameterValues.init "overrides"
              _ _ eq_refl example_records) as [Hload Hget].
  split.
  - exact Hload.
  - exact (Hget [] "/pets" [("p1", [VStr "a"; VStr "b"])] "p2"
             [VInt 1; VInt 2] eq_refl).
Defined.

Lemma load_rejects_malformed_item_witness :
  load_from_string example_yaml_load example_format_s example_overrides
    "path: [" =
  (example_overrides,
   Some (ParameterValueParsingError "could not find expected ':'")) /\
  load_content example_format_s ParameterValues.init
    (VList [VDict [("path", VStr "/pets");
                   ("parameters",
                    VList [VDict [("name", VStr "p1");
                                  ("values", VList [VStr "a"; VStr "b"])];
                           VDict [("name", VStr "p2");
                                  ("values", VList [VInt 1; VInt 2])]])];
            VDict [("parameters", VList [])]]) =
  (example_overrides,
   Some (ParameterValueParsingError "item does not have path")) /\
  load_content example_format_s ParameterValues.init
    (VList [VDict [("path", VStr "/pets");
                   ("parameters",
                    VList [VDict [("name", VStr "p1");
                                  ("values", VList [VStr "a"; VStr "b"])];
                           VDict [("name", VStr "p2");
                                  ("values", VList [VInt 1; VInt 2])]])];
            VDict [("path", VStr "/users")]]) =
  (example_overrides,
   Some (ParameterValueParsingError "item does not have parameters")).
Proof.
  destruct (load_rejects_malformed_item example_yaml_load example_format_s
              (fun s => eq_refl) example_overrides) as [Hyaml _].
  destruct (load_rejects_malformed_item example_yaml_load example_format_s
              (fun s => eq_refl) ParameterValues.init)
    as [_ [_ [Hpath Hparams]]].
  split; [|split].
  - apply Hyaml. reflexivity.
  - apply (Hpath _ _ [("parameters", VList [])] [] example_records).
    reflexivity.
  - apply (Hparams _ _ [("path", VStr "/users")] (VStr "/users") []
             example_records); reflexivity.
Defined.

Lemma load_rejects_malformed_parameter_witness :
  load_content example_format_s ParameterValues.init
    (VList [VDict [("path", VStr "/pets");
                   ("parameters",
                    VList [VDict [("name", VStr "p1");
                                  ("values", VList [VStr "a"; VStr "b"])];
                           VDict [("name", VStr "p2");
                                  ("values", VStr "1, 2")]])]]) =
  (ParameterValues.set ParameterValues.init "/pets" "p1" [VStr "a"; VStr "b"],
   Some (ParameterValueParsingError "values is not a list")) /\
  load_content example_format_s ParameterValues.init
    (VList [VDict [("path", VStr "/pets");
                   ("parameters",
                    VList [VDict [("values", VList [])]])]]) =
  (ParameterValues.init,
   Some (ParameterValueParsingError "parameter does not have name")) /\
  load_content example_format_s ParameterValues.init
    (VList [VDict [("path", VStr "/pets");
                   ("parameters",
                    VList [VDict [("name", VStr "p1")]])]]) =
  (ParameterValues.init,
   Some (ParameterValueParsingError "parameter does not have values")).
Proof.
  split; [|split].
  - destruct (load_rejects_malformed_parameter example_format_s
                (fun s => eq_refl) ParameterValues.init
                [("path", VStr "/pets");
                 ("parameters",
                  VList [VDict [("name", VStr "p1");
                                ("values", VList [VStr "a"; VStr "b"])];
                         VDict [("name", VStr "p2");
                                ("values", VStr "1, 2")]])]
                "/pets"
                [VDict [("name", VStr "p1");
                        ("values", VList [VStr "a"; VStr "b"])]]
                [("p1", [VStr "a"; VStr "b"])]
                [("name", VStr "p2"); ("values", VStr "1, 2")] [] []
                eq_refl eq_refl) as [_ [_ Hlist]].
    + constructor; [|constructor].
      eexists. split; [reflexivity|]. split; reflexivity.
    + apply (Hlist (VStr "p2") (VStr "1, 2")); try reflexivity.
      intros vs. discriminate.
  - destruct (load_rejects_malformed_parameter example_format_s
                (fun s => eq_refl) ParameterValues.init
                [("path", VStr "/pets");
                 ("parameters", VList [VDict [("values", VList [])]])]
                "/pets" [] [] [("values", VList [])] [] []
                eq_refl eq_refl (Forall2_nil _)) as [Hname _].
    apply Hname. reflexivity.
  - destruct (load_rejects_malformed_parameter example_format_s
                (fun s => eq_refl) ParameterValues.init
                [("path", VStr "/pets");
                 ("parameters", VList [VDict [("name", VStr "p1")]])]
                "/pets" [] [] [("name", VStr "p1")] [] []
                eq_refl eq_refl (Forall2_nil _)) as [_ [Hvalues _]].
    apply (Hvalues (VStr "p1")); reflexivity.
Defined.

Lemma load_leaks_type_error_witness :
  load_content example_format_s ParameterValues.init
    (VList [VDict [("path", VStr "/pets");
                   ("parameters",
                    VList [VDict [("name", VStr "p1");
                                  ("values", VList [VStr "a"; VStr "b"])];
                           VDict [("name", VStr "p2");
                                  ("values", VList [VInt 1; VInt 2])]])];
            VInt 5]) =
  (example_overrides, Some (PythonError TypeError)).
Proof.
  apply (load_leaks_type_error example_format_s (fun s => eq_refl)
           ParameterValues.init _ _ (VInt 5) [] example_records).
  right. right. exists 5. reflexivity.
Defined.

Lemma get_after_set_witness :
  ParameterValues.get
    (ParameterValues.set example_overrides "/users" "id" [VInt 7])
    "/pets" "p1" = [VStr "a"; VStr "b"] /\
  ParameterValues.is_empty
    (ParameterValues.set ParameterValues.init "/users" "id" []) = false.
Proof.
  destruct (get_after_set example_overrides "/users" "id" [VInt 7])
    as [_ [_ Hother]].
  destruct (get_after_set ParameterValues.init "/users" "id" [])
    as [_ [Hempty _]].
  split; [|exact Hempty].
  rewrite (Hother "/pets" "p1"); try reflexivity. discriminate.
Defined.

Lemma example_repair :
  _fix_common_spec_issues (C := example_env) example_unrepaired =
  Ok example_repaired.
Proof. vm_compute. reflexivity. Defined.

Lemma repaired_specs_are_regular_witness :
  in_strs (get_or_none "format"
             (param_spec
                (example_query "fields"
                   [("type", VStr "string"); ("default", VStr EmptyString)])))
    invalid_formats = false.
Proof.
  destruct (@repaired_specs_are_regular example_env example_unrepaired
              example_repaired
              "fields"
              (example_query "fields"
                 [("type", VStr "string"); ("default", VStr EmptyString)])
              example_repair) as [Hstring _].
  { right. left. reflexivity. }
  exact (proj2 (Hstring eq_refl)).
Defined.


Lemma default_is_coerced_for_numbers_only_witness :
  exists parameter,
    In ("fields", parameter) (params example_unrepaired) /\
    get_or_none "default" (param_spec parameter) = VStr EmptyString.
Proof.
  destruct (@default_is_coerced_for_numbers_only example_env
              example_unrepaired example_repaired "fields"
              (example_query "fields"
                 [("type", VStr "string"); ("default", VStr EmptyString)])
              example_repair) as [p [Hin [Hdefault _]]].
  { right. left. reflexivity. }
  exists p. split; [exact Hin|].
  destruct Hin as [Heq | [Heq | [Heq | []]]]; try discriminate.
  injection Heq as <-. reflexivity.
Defined.

Lemma synthesis_never_gives_none_witness :
  VDict [("tag", VStr "value-for-tag"); ("age", VInt 42)] <> VNone /\
  (exists v, fill_at "p1" example_filled = Some v /\ v <> VNone).
Proof.
  destruct (@synthesis_never_gives_none example_env 0) as [Hvalue [_ Hfilled]].
  split.
  - apply (Hvalue 3%nat (VDict [("$ref", VStr "#/definitions/Pet")])).
    vm_compute. reflexivity.
  - apply (Hfilled 3%nat false example_operation example_filled "p1"
             (set_fill (example_parameter "p1") (VStr "value-for-p1"))).
    + vm_compute. reflexivity.
    + left. reflexivity.
    + reflexivity.
Defined.

Lemma typed_spec_gets_table_value_witness :
  _get_param_value (C := example_env) 0 1
    (VDict [("type", VStr "string"); ("format", VStr "date-time");
            ("minimum", VInt 3)]) =
  Ok (VDateTime 2017 6 30 23 59 45).
Proof.
  apply (@typed_spec_gets_table_value example_env 0 0%nat
           [("type", VStr "string"); ("format", VStr "date-time");
            ("minimum", VInt 3)] "date-time").
  - reflexivity.
  - reflexivity.
  - reflexivity.
  - reflexivity.
  - left. reflexivity.
Defined.

Lemma string_and_file_use_the_form_filler_witness :
  _get_param_value (C := example_env) 0 1
    (VDict [("type", VStr "string")]) = Ok (VStr "value-for-unknown") /\
  _get_param_value (C := example_env) 0 1
    (VDict [("name", VStr "avatar"); ("type", VStr "file")]) =
  Ok (VFile "avatar" "cat.png").
Proof.
  split.
  - destruct (@string_and_file_use_the_form_filler example_env 0 0%nat
                [("type", VStr "string")] eq_refl eq_refl) as [Hstring _].
    destruct (Hstring eq_refl) as [Hvalue _].
    apply Hvalue; [reflexivity | discriminate].
  - destruct (@string_and_file_use_the_form_filler example_env 0 0%nat
                [("name", VStr "avatar"); ("type", VStr "file")]
                eq_refl eq_refl) as [_ Hfile].
    apply (Hfile eq_refl); [reflexivity | discriminate].
Defined.

Lemma create_object_fills_every_property_witness :
  _create_object (_get_param_value (C := example_env) 0 1)
    (VDict [("type", VStr "object");
            ("properties",
             VDict [("tag", VDict [("type", VStr "string")]);
                    ("age", VDict [("type", VStr "integer");
                                   ("format", VStr "int32")])])]) =
  Ok (VDict [("tag", VStr "value-for-tag"); ("age", VInt 42)]).
Proof.
  apply (create_object_fills_every_property
           (_get_param_value (C := example_env) 0 1)
           [("type", VStr "object");
            ("properties",
             VDict [("tag", VDict [("type", VStr "string")]);
                    ("age", VDict [("type", VStr "integer");
                                   ("format", VStr "int32")])])]
           [("tag", VDict [("type", VStr "string")]);
            ("age", VDict [("type", VStr "integer");
                           ("format", VStr "int32")])]).
  - reflexivity.
  - reflexivity.
  - unfold keys. simpl. repeat constructor; simpl; intuition discriminate.
  - constructor; [|constructor; [|constructor]].
    + split; [reflexivity|]. eexists. split; reflexivity.
    + split; [reflexivity|]. eexists. split; reflexivity.
Defined.

Lemma object_without_properties_raises_witness :
  _get_param_value (C := example_env) 0 2
    (VDict [("name", VStr "body"); ("type", VStr "object")]) = Raise KeyError.
Proof.
  apply (@object_without_properties_raises example_env 0 0%nat
           [("name", VStr "body"); ("type", VStr "object")]);
    reflexivity.
Defined.

Lemma reference_is_treated_as_model_witness :
  _get_param_value (C := more_env) 0 2
    (VDict [("$ref", VStr "#/definitions/Name")]) = Ok (VDict []) /\
  _get_param_value (C := more_env) 0 2
    (VDict [("$ref", VStr "#/definitions/Missing")]) = Raise SwaggerError.
Proof.
  split.
  - destruct (@reference_is_treated_as_model more_env 0 0%nat
                [("$ref", VStr "#/definitions/Name")]
                (VStr "#/definitions/Name")
                eq_refl eq_refl eq_refl eq_refl) as [Hvalue _].
    apply (Hvalue [("type", VStr "string")]); reflexivity.
  - destruct (@reference_is_treated_as_model more_env 0 0%nat
                [("$ref", VStr "#/definitions/Missing")]
                (VStr "#/definitions/Missing")
                eq_refl eq_refl eq_refl eq_refl) as [_ Hraise].
    apply Hraise. reflexivity.
Defined.

Lemma self_reference_exhausts_recursion_witness :
  _get_param_value (C := more_env) 0 1000
    (VDict [("$ref", VStr "#/definitions/Node")]) = Raise RecursionLimit.
Proof.
  apply (@self_reference_exhausts_recursion more_env 0
           (VStr "#/definitions/Node")
           [("type", VStr "object");
            ("properties",
             VDict [("next", VDict [("$ref", VStr "#/definitions/Node")])])]
           "next" [("$ref", VStr "#/definitions/Node")] []);
    reflexivity.
Defined.

Lemma value_does_not_depend_on_the_limit_witness :
  _get_param_value (C := example_env) 0 1000
    (VDict [("$ref", VStr "#/definitions/Pet")]) =
  Ok (VDict [("tag", VStr "value-for-tag"); ("age", VInt 42)]).
Proof.
  apply (@value_does_not_depend_on_the_limit example_env 0 3%nat 1000%nat).
  - lia.
  - vm_compute. reflexivity.
Defined.

Lemma skip_is_for_optional_parameters_witness :
  _should_skip_setting_param_value
    (example_query "limit" [("type", VStr "integer")]) false = Ok true /\
  _should_skip_setting_param_value
    (example_header "X-Mode" [("enum", VInt 3)]) true = Raise TypeError /\
  required (example_header "X-Trace" [("type", VStr "string")]) = false.
Proof.
  destruct skip_is_for_optional_parameters as [Honly [Hquery Hheader]].
  split; [|split].
  - rewrite (Hquery (example_query "limit" [("type", VStr "integer")]) false);
      reflexivity.
  - apply Hheader.
    + reflexivity.
    + reflexivity.
    + left. exists 3. reflexivity.
  - apply (Honly (example_header "X-Trace" [("type", VStr "string")]) false).
    reflexivity.
Defined.

Lemma example_keys_distinct (a b c : Param) :
  NoDup (keys [("p1", a); ("p2", b); ("p3", c)]).
Proof.
  unfold keys. simpl. repeat constructor; simpl; intuition discriminate.
Defined.

Lemma example_required_distinct : NoDup (keys (params example_required)).
Proof.
  unfold keys. simpl. repeat constructor; simpl; intuition discriminate.
Defined.

Lemma optional_flag_is_irrelevant_without_optionals_witness :
  set_operation_params (C := example_env) 0 3 true example_overrides
    example_required =
  set_operation_params (C := example_env) 0 3 false example_overrides
    example_required.
Proof.
  apply (@optional_flag_is_irrelevant_without_optionals example_env 0 3%nat
           example_overrides example_required example_required_distinct).
  reflexivity.
Defined.


Lemma expansion_without_values_is_the_baseline_witness :
  set_operation_params (C := example_env) 0 3 false
    (ParameterValues.set ParameterValues.init "/users" "p1" [VInt 1; VInt 2])
    example_operation = Ok [example_filled].
Proof.
  apply (@expansion_without_values_is_the_baseline example_env 0 3%nat false
           (ParameterValues.set ParameterValues.init "/users" "p1"
              [VInt 1; VInt 2])
           example_operation example_filled).
  - exact (example_keys_distinct _ _ _).
  - vm_compute. reflexivity.
  - intros k p Hin.
    destruct Hin as [H | [H | [H | []]]]; injection H as <- <-; reflexivity.
Defined.

Lemma single_values_keep_one_operation_witness :
  exists o,
    set_operation_params (C := example_env) 0 3 false
      (ParameterValues.set ParameterValues.init "/pets" "p2" [VInt 9])
      example_operation = Ok [o] /\
    fill_at "p2" o = Some (VInt 9) /\
    fill_at "p1" o = Some (VStr "value-for-p1").
Proof.
  destruct (@single_values_keep_one_operation example_env 0 3%nat false
              (ParameterValues.set ParameterValues.init "/pets" "p2" [VInt 9])
              example_operation example_filled)
    as [o [Hrun [Hover Hrest]]].
  - exact (example_keys_distinct _ _ _).
  - vm_compute. reflexivity.
  - intros k vs Hin. vm_compute in Hin.
    destruct Hin as [H | [H | [H | []]]]; injection H as <- <-; simpl; lia.
  - exists o. split; [exact Hrun|]. split.
    + destruct (Hover "p2" [VInt 9]) as [v [Hv Hfill]].
      * vm_compute. left. reflexivity.
      * injection Hv as <-. exact Hfill.
    + rewrite (Hrest "p1").
      * reflexivity.
      * vm_compute. intuition discriminate.
Defined.

Lemma set_custom_values_needs_the_parameter_witness :
  _set_custom_parameter_values [example_filled; example_required] "p3"
    [VInt 1; VInt 2] = Raise KeyError.
Proof.
  destruct (set_custom_values_needs_the_parameter "p3") as [_ Hraise].
  apply (Hraise [example_filled] example_required [] (VInt 1) [VInt 2]).
  - intros o [<- | []]. split.
    + right. right. left. reflexivity.
    + exact (example_keys_distinct _ _ _).
  - exact example_required_distinct.
  - unfold keys. simpl. intuition discriminate.
Defined.

Lemma copy_keeps_every_fill_witness :
  _copy example_filled = Ok example_filled /\
  _copy example_operation = Ok example_operation.
Proof.
  split.
  - apply copy_keeps_every_fill. exact (example_keys_distinct _ _ _).
  - apply copy_keeps_every_fill. exact (example_keys_distinct _ _ _).
Defined.
